(** * Verification of the dockerd command orchestrator

    A shallow embedding of [daemon/command/daemon.go] (the [daemonCLI]
    life cycle: listener resolution, start-up, hot reload, stop and
    shutdown, with the set-up of the process environment, of the logs
    and of containerd) and of [daemon/container.go] ([newContainer],
    [getEntrypointAndArgs], the look-up of containers and the validation
    of their settings), with the properties of the specification stated
    and settled against that embedding.

    Conventions of the embedding:
    - a Go [error] is [option goerr], [None] being [nil];
    - a Go slice of strings is a [list string]; indexing out of range is
      a run-time panic, made explicit in the result type;
    - calls into collaborators that are not part of the embedded files
      (the daemon core, the cluster, the listeners package, the Go
      standard library's network functions) are taken from an explicit
      environment, and every observable effect of the embedded code is
      recorded as an event of a trace. *)

From Stdlib Require Import ZArith Lia Bool Ascii.
From stdpp Require Import base option list strings gmap sorting.

Local Open Scope string_scope.
Local Open Scope list_scope.

(** ** Go values shared by the whole development *)

Module Go.

(** Run-time outcome of a Go call that may return an error or panic. *)
Inductive outcome (E A : Type) : Type :=
| Ok (a : A)
| Fail (e : E)
| Panic.
Arguments Ok {E A} a.
Arguments Fail {E A} e.
Arguments Panic {E A}.

(** Error values.  [ErrServerClosed], [DeadlineExceeded] and [Canceled]
    are the sentinels of net/http and context; [ErrNew] is
    [errors.New]/[fmt.Errorf] without a wrapped cause; [ErrWrap] is
    [errors.Wrap] (and [fmt.Errorf] with [%w]) around a non-nil cause;
    [ErrExt] is an error produced by a collaborator. *)
Inductive goerr : Type :=
| ErrServerClosed
| DeadlineExceeded
| Canceled
| ErrNew (msg : string)
| ErrExt (msg : string)
| ErrWrap (cause : goerr) (msg : string).

Definition error : Type := option goerr.

Global Instance goerr_eq_dec : EqDecision goerr.
Proof. solve_decision. Defined.

(** [errors.Wrap(err, msg)]: nil when [err] is nil. *)
Definition Wrap (err : error) (msg : string) : error :=
  match err with
  | None => None
  | Some e => Some (ErrWrap e msg)
  end.

(** [errors.Is(err, target)] for the sentinel targets used here: the
    chain of wrapped causes is searched for [target]. *)
Fixpoint chain_has (target e : goerr) : bool :=
  if decide (e = target) then true
  else match e with
       | ErrWrap c _ => chain_has target c
       | _ => false
       end.

Definition Is (err : error) (target : goerr) : bool :=
  match err with
  | None => false
  | Some e => chain_has target e
  end.

(** The innermost cause of an error. *)
Fixpoint root_cause (e : goerr) : goerr :=
  match e with
  | ErrWrap c _ => root_cause c
  | _ => e
  end.

End Go.
Import Go.

(** ** daemon/container.go: [getEntrypointAndArgs] and [newContainer] *)

Module Container.

(** The fields of [containertypes.Config] read or written by
    [newContainer]. *)
Record Config : Type := mkConfig {
  Hostname : string;
  Entrypoint : list string;
  Cmd : list string
}.

(** The fields of [containertypes.HostConfig] read by [newContainer]:
    [NetworkMode.IsHost()]. *)
Record HostConfig : Type := mkHostConfig {
  NetworkModeIsHost : bool
}.

(** [container.Container] as [newContainer] fills it in. *)
Record Container : Type := mkContainer {
  ID : string;
  Root : string;
  Created : Z;
  Managed : bool;
  Path : string;
  Args : list string;
  CConfig : Config;
  ImageID : string;
  Name : string;
  Driver : string;
  ImagePlatform : string;
  OS : string
}.

(** [s[0]] and [s[1:]] on a slice: both panic on the empty slice. *)
Definition index0 (s : list string) : option string :=
  match s with
  | [] => None
  | x :: _ => Some x
  end.

Definition slice_from1 (s : list string) : option (list string) :=
  match s with
  | [] => None
  | _ :: l => Some l
  end.

(** [[
    func getEntrypointAndArgs(configEntrypoint, configCmd []string) (string, []string) {
        if len(configEntrypoint) == 0 {
            return configCmd[0], configCmd[1:]
        }
        return configEntrypoint[0], append(configEntrypoint[1:], configCmd...)
    }
    ]]
    [None] is the index-out-of-range panic. *)
Definition getEntrypointAndArgs (configEntrypoint configCmd : list string)
  : option (string * list string) :=
  if Nat.eqb (length configEntrypoint) 0 then
    x ← index0 configCmd;
    r ← slice_from1 configCmd;
    Some (x, r)
  else
    x ← index0 configEntrypoint;
    r ← slice_from1 configEntrypoint;
    Some (x, r ++ configCmd).

(** [id[:12]]: panics when the string is shorter than 12 bytes. *)
Definition prefix12 (id : string) : option string :=
  if Nat.ltb (String.length id) 12 then None
  else Some (String.substring 0 12 id).

(** [filepath.Join(repository, id)] for two non-empty clean parts. *)
Definition path_join (a b : string) : string := a ++ "/" ++ b.

Section NewContainer.
(** Collaborators of [newContainer]. *)
Variable generateIDAndName : string -> (string * string) * error.
Variable osHostname : string * error.
Variable repository : string.
Variable storageDriver : string.
Variable now : Z.

(** [errdefs.System(err)] keeps the error and tags its class. *)
Definition errdefsSystem (e : goerr) : goerr := ErrWrap e "system".

Definition newContainer (name platform platformOS : string)
    (config : Config) (hostConfig : HostConfig) (imgID : string)
    (managed : bool) : outcome goerr (Container * error) :=
  let '((id, name'), err) := generateIDAndName name in
  match err with
  | Some e => Fail e
  | None =>
      let hostname : outcome goerr string :=
        if decide (Hostname config = "") then
          if NetworkModeIsHost hostConfig then
            match osHostname with
            | (_, Some e) => Fail (errdefsSystem e)
            | (h, None) => Ok h
            end
          else
            match prefix12 id with
            | None => Panic
            | Some h => Ok h
            end
        else Ok (Hostname config) in
      match hostname with
      | Panic => Panic
      | Fail e => Fail e
      | Ok h =>
          let config' := mkConfig h (Entrypoint config) (Cmd config) in
          match getEntrypointAndArgs (Entrypoint config') (Cmd config') with
          | None => Panic
          | Some (entrypoint, args) =>
              Ok ({| ID := id;
                     Root := path_join repository id;
                     Created := now;
                     Managed := managed;
                     Path := entrypoint;
                     Args := args;
                     CConfig := config';
                     ImageID := imgID;
                     Name := name';
                     Driver := storageDriver;
                     ImagePlatform := platform;
                     OS := platformOS |}, err)
          end
      end
  end.
End NewContainer.

End Container.

(** ** daemon/command/daemon.go: configuration and listener resolution *)

Module Command.

(** Flag names ([FlagTLS], [FlagTLSVerify] of the options file). *)
Definition FlagTLS : string := "tls".
Definition FlagTLSVerify : string := "tlsverify".

(** [time.Second], in nanoseconds ([time.Duration] is an int64 count
    of nanoseconds). *)
Definition Second : Z := 1000000000.

Record TLSOptions : Type := mkTLSOptions {
  CAFile : string;
  CertFile : string;
  KeyFile : string
}.

(** The fields of [config.Config] the embedded functions touch.
    [TLS] and [TLSVerify] are [*bool]; [ValuesSet] holds the keys for
    which [IsValueSet] answers true; [CDISpecDirs] distinguishes the
    nil slice. *)
Record Config : Type := mkConfig {
  Hosts : list string;
  TLS : option bool;
  TLSVerify : option bool;
  TLSOpts : TLSOptions;
  Debug : bool;
  LogLevel : string;
  LogFormat : string;
  MinAPIVersion : string;
  Labels : list string;
  ValuesSet : gset string;
  CDISpecDirs : option (list string);
  Features : gmap string bool;
  SocketGroup : string;
  AuthorizationPlugins : list string;
  Pidfile : string;
  Root : string;
  ExecRoot : string;
  Rootless : bool;
  Experimental : bool;
  MetricsAddress : string
}.

Definition IsValueSet (conf : Config) (name : string) : bool :=
  bool_decide (name ∈ ValuesSet conf).

Definition set_Hosts (h : list string) (c : Config) : Config :=
  mkConfig h (TLS c) (TLSVerify c) (TLSOpts c) (Debug c) (LogLevel c)
    (LogFormat c) (MinAPIVersion c) (Labels c) (ValuesSet c)
    (CDISpecDirs c) (Features c) (SocketGroup c)
    (AuthorizationPlugins c) (Pidfile c) (Root c) (ExecRoot c)
    (Rootless c) (Experimental c) (MetricsAddress c).

Definition set_TLS (v : option bool) (c : Config) : Config :=
  mkConfig (Hosts c) v (TLSVerify c) (TLSOpts c) (Debug c) (LogLevel c)
    (LogFormat c) (MinAPIVersion c) (Labels c) (ValuesSet c)
    (CDISpecDirs c) (Features c) (SocketGroup c)
    (AuthorizationPlugins c) (Pidfile c) (Root c) (ExecRoot c)
    (Rootless c) (Experimental c) (MetricsAddress c).

Definition set_TLSVerify (v : option bool) (c : Config) : Config :=
  mkConfig (Hosts c) (TLS c) v (TLSOpts c) (Debug c) (LogLevel c)
    (LogFormat c) (MinAPIVersion c) (Labels c) (ValuesSet c)
    (CDISpecDirs c) (Features c) (SocketGroup c)
    (AuthorizationPlugins c) (Pidfile c) (Root c) (ExecRoot c)
    (Rootless c) (Experimental c) (MetricsAddress c).

Definition set_TLSOpts (v : TLSOptions) (c : Config) : Config :=
  mkConfig (Hosts c) (TLS c) (TLSVerify c) v (Debug c) (LogLevel c)
    (LogFormat c) (MinAPIVersion c) (Labels c) (ValuesSet c)
    (CDISpecDirs c) (Features c) (SocketGroup c)
    (AuthorizationPlugins c) (Pidfile c) (Root c) (ExecRoot c)
    (Rootless c) (Experimental c) (MetricsAddress c).

Definition set_logging (d : bool) (lvl fmt : string) (c : Config) : Config :=
  mkConfig (Hosts c) (TLS c) (TLSVerify c) (TLSOpts c) d lvl fmt
    (MinAPIVersion c) (Labels c) (ValuesSet c)
    (CDISpecDirs c) (Features c) (SocketGroup c)
    (AuthorizationPlugins c) (Pidfile c) (Root c) (ExecRoot c)
    (Rootless c) (Experimental c) (MetricsAddress c).

Definition set_MinAPIVersion (v : string) (c : Config) : Config :=
  mkConfig (Hosts c) (TLS c) (TLSVerify c) (TLSOpts c) (Debug c)
    (LogLevel c) (LogFormat c) v (Labels c) (ValuesSet c)
    (CDISpecDirs c) (Features c) (SocketGroup c)
    (AuthorizationPlugins c) (Pidfile c) (Root c) (ExecRoot c)
    (Rootless c) (Experimental c) (MetricsAddress c).

Definition set_Labels (v : list string) (c : Config) : Config :=
  mkConfig (Hosts c) (TLS c) (TLSVerify c) (TLSOpts c) (Debug c)
    (LogLevel c) (LogFormat c) (MinAPIVersion c) v (ValuesSet c)
    (CDISpecDirs c) (Features c) (SocketGroup c)
    (AuthorizationPlugins c) (Pidfile c) (Root c) (ExecRoot c)
    (Rootless c) (Experimental c) (MetricsAddress c).

Definition set_CDISpecDirs (v : option (list string)) (c : Config) : Config :=
  mkConfig (Hosts c) (TLS c) (TLSVerify c) (TLSOpts c) (Debug c)
    (LogLevel c) (LogFormat c) (MinAPIVersion c) (Labels c) (ValuesSet c)
    v (Features c) (SocketGroup c)
    (AuthorizationPlugins c) (Pidfile c) (Root c) (ExecRoot c)
    (Rootless c) (Experimental c) (MetricsAddress c).

(** *** Listener resolution *)

(** [tls.ClientAuthType]. *)
Inductive ClientAuthType : Type :=
| NoClientCert
| RequestClientCert
| RequireAnyClientCert
| VerifyClientCertIfGiven
| RequireAndVerifyClientCert.

Global Instance ClientAuthType_eq_dec : EqDecision ClientAuthType.
Proof. solve_decision. Defined.

(** The one field of [tls.Config] that [loadListeners] reads. *)
Record tlsConfig : Type := mkTlsConfig {
  ClientAuth : ClientAuthType
}.

(** A bound [net.Listener]: its address and the socket it wraps. *)
Record Listener : Type := mkListener {
  ls_addr : string;
  ls_fd : nat
}.

Global Instance Listener_eq_dec : EqDecision Listener.
Proof. solve_decision. Defined.

(** What [loadListeners] does besides returning: log lines, sleeps,
    port reservations and binds, in program order. *)
Inductive LEvent : Type :=
| LWarn (host msg : string)
| LError (host msg : string)
| LDebug (proto addr : string)
| LSleep (nanoseconds : Z)
| LAllocatePort (addr : string)
| LInit (proto addr : string).

(** Collaborators of host normalisation and listener resolution that
    are not part of the embedded file: the package constants
    [DefaultTLSValue] and [honorXDG], [opts.ParseHost],
    [allocateDaemonPort], [listeners.Init], and the functions of Go's
    [net] package ([IP] is [net.IP]; [ParseIP] answers [None] for
    nil; [ResolveIPAddr] may return both a nil address and an
    error). *)
Record HostEnv : Type := mkHostEnv {
  DefaultTLSValue : bool;
  honorXDG : bool;
  ParseHost : bool -> bool -> string -> string * error;
  IP : Type;
  SplitHostPort : string -> (string * string) * error;
  ParseIP : string -> option IP;
  ResolveIPAddr : string -> option IP * error;
  IsLoopback : IP -> bool;
  allocateDaemonPort : string -> error;
  listenersInit : string -> string -> string -> option tlsConfig
                  -> list Listener * error
}.

(** [strings.HasPrefix] and [strings.Cut]. *)
Fixpoint HasPrefix (s p : string) : bool :=
  match p, s with
  | EmptyString, _ => true
  | String _ _, EmptyString => false
  | String a p', String b s' => if decide (a = b) then HasPrefix s' p' else false
  end.

Fixpoint drop_bytes (n : nat) (s : string) : string :=
  match n, s with
  | O, _ => s
  | S _, EmptyString => EmptyString
  | S n', String _ s' => drop_bytes n' s'
  end.

Fixpoint Cut (s sep : string) : (string * string) * bool :=
  if HasPrefix s sep then (EmptyString, drop_bytes (String.length sep) s, true)
  else match s with
       | EmptyString => (EmptyString, EmptyString, false)
       | String c s' =>
           let '(before, after, found) := Cut s' sep in
           if found then (String c before, after, true)
           else (s, EmptyString, false)
       end.

(** [sort.Strings]: ascending byte-wise order.  The order is total
    and antisymmetric, so the result is the one sorted permutation of
    the input whatever the algorithm. *)
Definition sortStrings (l : list string) : list string :=
  merge_sort String.le l.

Section Hosts.
Context (E : HostEnv).

(** The loop of [normalizeHosts]: parse, skip what was seen, append. *)
Fixpoint normalizeLoop (useTLS : bool) (rest hosts : list string)
    (seen : gset string) : list string + goerr :=
  match rest with
  | [] => inl hosts
  | h :: rest' =>
      match ParseHost E useTLS (honorXDG E) h with
      | (_, Some err) => inr err
      | (host, None) =>
          if bool_decide (host ∈ seen) then
            normalizeLoop useTLS rest' hosts seen
          else
            normalizeLoop useTLS rest' (hosts ++ [host]) ({[ host ]} ∪ seen)
      end
  end.

(** [normalizeHosts(cfg)].  [cfg] is a pointer: the first component
    is the configuration as the call leaves it (with an empty host
    list already replaced by the one-entry slice when parsing then
    fails), the second the returned error. *)
Definition normalizeHosts (cfg : Config) : Config * error :=
  let cfg1 :=
    if Nat.eqb (length (Hosts cfg)) 0 then set_Hosts [EmptyString] cfg
    else cfg in
  let useTLS :=
    match TLS cfg1 with
    | Some b => b
    | None => DefaultTLSValue E
    end in
  match normalizeLoop useTLS (Hosts cfg1) [] ∅ with
  | inr err => (cfg1, Some err)
  | inl hosts => (set_Hosts (sortStrings hosts) cfg1, None)
  end.

(** [checkTLSAuthOK(cfg)]. *)
Definition checkTLSAuthOK (cfg : Config) : bool :=
  match TLS cfg with
  | None => DefaultTLSValue E
  | Some false => true
  | Some true =>
      match TLSVerify cfg with
      | None => false
      | Some _ => true
      end
  end.

Definition msgInsecure : string :=
  "Binding to IP address without --tlsverify is insecure and gives root access on this machine to everyone who has access to your network.".
Definition msgBrowser : string :=
  "Binding to an IP address, even on localhost, can also give access to scripts run in a browser. Be safe out there!".
Definition msgDeprecation : string :=
  "[DEPRECATION NOTICE] In future versions this will be a hard failure preventing the daemon from starting! Learn more at: https://docs.docker.com/go/api-security/".
Definition msgSlowed : string :=
  "Binding to an IP address without --tlsverify is deprecated. Startup is intentionally being slowed down to show this message".
Definition msgGenerate : string :=
  "Please consider generating tls certificates with client validation to prevent exposing unauthenticated root access to your network".
Definition msgOverride : string :=
  "You can override this by explicitly specifying '--tls=false' or '--tlsverify=false'".
Definition msgRemoved : string :=
  "Support for listening on TCP without authentication or explicit intent to run without authentication will be removed in the next release".
Definition msgLookup : string :=
  "Error looking up specified host address".

(** [authEnabled] of [loadListeners]. *)
Definition authEnabled (tc : option tlsConfig) : bool :=
  match tc with
  | None => false
  | Some c => bool_decide (ClientAuth c = RequireAndVerifyClientCert)
  end.

(** The look-up of the bound address inside the [!checkTLSAuthOK]
    branch: the events it logs and whether the long delay applies. *)
Definition nonLoopbackDelay (protoAddr ipAddr : string) : list LEvent :=
  if decide (ipAddr = "localhost") then []
  else
    let '(ip, evs) :=
      match ParseIP E ipAddr with
      | Some ip => (Some ip, [])
      | None =>
          let '(ipA, err) := ResolveIPAddr E ipAddr in
          (ipA,
           match err with
           | Some _ => [LError ipAddr msgLookup]
           | None => []
           end)
      end in
    let slow :=
      match ip with
      | None => true
      | Some a => negb (IsLoopback E a)
      end in
    if slow then
      evs ++ [LWarn protoAddr msgSlowed; LWarn protoAddr msgGenerate;
              LWarn protoAddr msgOverride; LWarn protoAddr msgRemoved;
              LSleep (15 * Second)]
    else evs.

(** The deterrent block of the loop body, for one host: its events
    and the error it may return. *)
Definition deterrent (cfg : Config) (tc : option tlsConfig)
    (protoAddr proto addr : string) : list LEvent * error :=
  if bool_decide (proto = "tcp") && negb (authEnabled tc) then
    let evs := [LWarn protoAddr msgInsecure; LWarn protoAddr msgBrowser;
                LWarn protoAddr msgDeprecation; LSleep Second] in
    if negb (checkTLSAuthOK cfg) then
      match SplitHostPort E addr with
      | (_, Some err) => (evs, Wrap (Some err) "error parsing tcp address")
      | ((ipAddr, _), None) => (evs ++ nonLoopbackDelay protoAddr ipAddr, None)
      end
    else (evs, None)
  else ([], None).

(** The loop of [loadListeners] over [cfg.Hosts[i:]], with the
    accumulated [hosts], [lss] and trace. *)
Fixpoint listenLoop (cfg : Config) (tc : option tlsConfig)
    (rest hosts : list string) (lss : list Listener) (tr : list LEvent)
    : (list Listener * list string + goerr) * list LEvent :=
  match rest with
  | [] => (inl (lss, hosts), tr)
  | protoAddr :: rest' =>
      let '(proto, addr, ok) := Cut protoAddr "://" in
      if negb ok then
        (inr (ErrNew ("bad format " ++ protoAddr ++ ", expected PROTO://ADDR")), tr)
      else
        match deterrent cfg tc protoAddr proto addr with
        | (evs, Some err) => (inr err, tr ++ evs)
        | (evs, None) =>
            let tr1 := tr ++ evs in
            let alloc : list LEvent * error :=
              if bool_decide (proto = "tcp") then
                ([LAllocatePort addr], allocateDaemonPort E addr)
              else ([], None) in
            match alloc with
            | (evs2, Some err) => (inr err, tr1 ++ evs2)
            | (evs2, None) =>
                let tr2 := tr1 ++ evs2 ++ [LInit proto addr] in
                match listenersInit E proto addr (SocketGroup cfg) tc with
                | (_, Some err) => (inr err, tr2)
                | (ls, None) =>
                    listenLoop cfg tc rest' (hosts ++ [addr]) (lss ++ ls)
                      (tr2 ++ [LDebug proto addr])
                end
            end
        end
  end.

(** [loadListeners(cfg, tlsConfig)]: the listeners and host list, or
    the error, together with the trace of what was done. *)
Definition loadListeners (cfg : Config) (tc : option tlsConfig)
    : (list Listener * list string + goerr) * list LEvent :=
  if Nat.eqb (length (Hosts cfg)) 0 then
    (inr (ErrNew "no hosts configured"), [])
  else listenLoop cfg tc (Hosts cfg) [] [] [].

(** Total time slept by a trace, and its number of warnings. *)
Definition slept (tr : list LEvent) : Z :=
  foldr (fun ev acc => match ev with LSleep d => d + acc | _ => acc end)%Z 0%Z tr.

Definition warnings (tr : list LEvent) : nat :=
  foldr (fun ev acc => match ev with LWarn _ _ => S acc | _ => acc end) O tr.

End Hosts.

(** *** Loading the command-line configuration *)

(** [pflag.FlagSet]: whether it was parsed and which flags the
    command line changed. *)
Record FlagSet : Type := mkFlagSet {
  Parsed : bool;
  ChangedFlags : gset string
}.

Definition Changed (f : FlagSet) (name : string) : bool :=
  bool_decide (name ∈ ChangedFlags f).

(** [daemonOptions].  [daemonConfig] is the configuration object the
    flags were installed on; [oTLSOptions] is a pointer. *)
Record daemonOptions : Type := mkDaemonOptions {
  flags : FlagSet;
  configFile : string;
  daemonConfig : Config;
  oDebug : bool;
  oHosts : list string;
  oLogLevel : string;
  oLogFormat : string;
  oTLS : bool;
  oTLSVerify : bool;
  oTLSOptions : option TLSOptions
}.

(** Collaborators of [loadDaemonCliConfig] outside the embedded file.
    The functions that receive the configuration pointer only to
    check it are taken as validators.  [MergeDaemonConfigurations]
    answers the merged configuration (nil when the file does not
    exist) and an error. *)
Record CliEnv : Type := mkCliEnv {
  setDefaultOptions : daemonOptions -> daemonOptions;
  envMinAPIVersion : string;
  ValidateMinAPIVersion : string -> error;
  goosWindows : bool;
  MergeDaemonConfigurations : Config -> FlagSet -> string -> option Config * error;
  IsNotExist : goerr -> bool;
  Validate : Config -> error;
  GetConflictFreeLabels : list string -> list string * error;
  validateCPURealtimeOptions : Config -> error;
  DefaultSpecDirs : list string;
  setPlatformOptions : Config -> error;
  cliHostEnv : HostEnv
}.

Section LoadConfig.
Context (E : CliEnv).

(** Lines 577-584: the TLS flags. *)
Definition applyTLSFlags (opts : daemonOptions) (conf : Config) : Config :=
  let conf1 :=
    if Changed (flags opts) FlagTLS then set_TLS (Some (oTLS opts)) conf
    else conf in
  if Changed (flags opts) FlagTLSVerify then
    set_TLS (Some true) (set_TLSVerify (Some (oTLSVerify opts)) conf1)
  else conf1.

(** Lines 635-644: an explicit [tlsverify] turns TLS on, and
    [TLSVerify] defaults to [TLS]. *)
Definition forceTLS (conf : Config) : Config :=
  let conf1 :=
    if IsValueSet conf FlagTLSVerify then set_TLS (Some true) conf
    else conf in
  match TLSVerify conf1, TLS conf1 with
  | None, Some b => set_TLSVerify (Some b) conf1
  | _, _ => conf1
  end.

(** Lines 651-662: the CDI spec directories. *)
Definition cdiSpecDirs (conf : Config) : Config :=
  let conf1 :=
    match CDISpecDirs conf with
    | None =>
        set_CDISpecDirs
          (match DefaultSpecDirs E with [] => None | l => Some l end) conf
    | Some [d] => if decide (d = "") then set_CDISpecDirs None conf else conf
    | Some _ => conf
    end in
  match Features conf1 !! "cdi" with
  | Some false => set_CDISpecDirs None conf1
  | _ => conf1
  end.

(** The configuration handed to the merge with the configuration
    file: everything [loadDaemonCliConfig] does up to line 594. *)
Definition flagsConfig (opts : daemonOptions) : Config + goerr :=
  let conf := daemonConfig opts in
  let conf := set_Hosts (oHosts opts)
                (set_logging (oDebug opts) (oLogLevel opts) (oLogFormat opts) conf) in
  let ver := envMinAPIVersion E in
  let conf_or_err :=
    if decide (ver = "") then inl conf
    else match ValidateMinAPIVersion E ver with
         | Some err => inr (ErrWrap err "invalid DOCKER_MIN_API_VERSION")
         | None => inl (set_MinAPIVersion ver conf)
         end in
  match conf_or_err with
  | inr err => inr err
  | inl conf =>
      let conf := applyTLSFlags opts conf in
      inl (set_TLSOpts
             (match oTLSOptions opts with
              | Some o => mkTLSOptions (CAFile o) (CertFile o) (KeyFile o)
              | None => mkTLSOptions "" "" ""
              end) conf)
  end.

(** Lines 596-618: the configuration file, when there is one. *)
Definition mergeFile (opts : daemonOptions) (conf : Config) : Config + goerr :=
  let file :=
    if goosWindows E && bool_decide (configFile opts = "") then
      (Root conf ++ "/config/daemon.json")%string
    else configFile opts in
  if decide (file = "") then inl conf
  else
    let '(c, err) := MergeDaemonConfigurations E conf (flags opts) file in
    let fatal :=
      match err with
      | Some e => Changed (flags opts) "config-file" || negb (IsNotExist E e)
      | None => false
      end in
    if fatal then
      inr (ErrWrap (default (ErrNew "") err)
             ("unable to configure the Docker daemon with file " ++ file)%string)
    else inl (default conf c).

(** Lines 620-668. *)
Definition finishConfig (conf : Config) : Config + goerr :=
  match normalizeHosts (cliHostEnv E) conf with
  | (_, Some err) => inr err
  | (conf, None) =>
      match Validate E conf with
      | Some err => inr err
      | None =>
          match GetConflictFreeLabels E (Labels conf) with
          | (_, Some err) => inr err
          | (newLabels, None) =>
              let conf := forceTLS (set_Labels newLabels conf) in
              match validateCPURealtimeOptions E conf with
              | Some err => inr err
              | None =>
                  let conf := cdiSpecDirs conf in
                  match setPlatformOptions E conf with
                  | Some err => inr err
                  | None => inl conf
                  end
              end
          end
      end
  end.

(** [loadDaemonCliConfig(opts)]. *)
Definition loadDaemonCliConfig (opts : daemonOptions) : Config + goerr :=
  if negb (Parsed (flags opts)) then
    inr (ErrNew "cannot load CLI config before flags are parsed")
  else
    let opts := setDefaultOptions E opts in
    match flagsConfig opts with
    | inr err => inr err
    | inl conf =>
        match mergeFile opts conf with
        | inr err => inr err
        | inl conf => finishConfig conf
        end
    end.

End LoadConfig.

(** [newAPIServerTLSConfig(cfg)], over [tlsconfig.Server] of the
    go-connections library, which either fails or answers a
    [tls.Config]. *)
Definition newAPIServerTLSConfig
    (tlsconfigServer : TLSOptions -> ClientAuthType -> option tlsConfig * error)
    (cfg : Config) : option tlsConfig * error :=
  match TLS cfg with
  | Some true =>
      let clientAuth :=
        match TLSVerify cfg with
        | None | Some true => RequireAndVerifyClientCert
        | Some false => NoClientCert
        end in
      match tlsconfigServer (TLSOpts cfg) clientAuth with
      | (_, Some err) => (None, Some (ErrWrap err "invalid TLS configuration"))
      | (tc, None) => (tc, None)
      end
  | _ => (None, None)
  end.

End Command.
Import Command.

(** ** The shutdown signal: [daemonCLI.stop] *)

Module Stop.

(** A [chan struct{}] on which nothing is ever sent. *)
Inductive chan : Type :=
| ChanOpen
| ChanClosed.

Global Instance chan_eq_dec : EqDecision chan.
Proof. solve_decision. Defined.

(** The synchronisation fields of [daemonCLI]: the [done] word of
    [stopOnce] and the [apiShutdown] channel.  [closes] counts the
    [close(cli.apiShutdown)] calls that were carried out, that is, the
    transitions from "not requested" to "requested". *)
Record cliSync : Type := mkCliSync {
  stopOnceDone : bool;
  apiShutdown : chan;
  closes : nat
}.

(** [newDaemonCLI]: a zero [sync.Once] and [make(chan struct{})]. *)
Definition newDaemonCLI : cliSync := mkCliSync false ChanOpen 0.

(** [close(ch)]: closing a closed channel panics ([None]). *)
Definition closeChan (c : chan) : option chan :=
  match c with
  | ChanOpen => Some ChanClosed
  | ChanClosed => None
  end.

(** [cli.stop()], run without interference:
    [cli.stopOnce.Do(func() { close(cli.apiShutdown) })]. *)
Definition stop (cli : cliSync) : option cliSync :=
  if stopOnceDone cli then Some cli
  else
    c ← closeChan (apiShutdown cli);
    Some (mkCliSync true c (S (closes cli))).

(** [n] calls one after the other. *)
Fixpoint stopTimes (n : nat) (cli : cliSync) : option cliSync :=
  match n with
  | O => Some cli
  | S n' => cli' ← stop cli; stopTimes n' cli'
  end.

(** What an observer sees: [<-cli.apiShutdown] is ready exactly when
    the channel is closed (and then at every receive). *)
Definition requested (cli : cliSync) : bool :=
  bool_decide (apiShutdown cli = ChanClosed).

(** *** Concurrent callers

    [sync.Once.Do] is
    [[
    if o.done.Load() == 0 { o.doSlow(f) }
    ]]
    and [doSlow] is
    [[
    o.m.Lock(); defer o.m.Unlock()
    if o.done.Load() == 0 { defer o.done.Store(1); f() }
    ]]
    Each caller of [stop] is a thread walking through these steps;
    a step of one thread is atomic. *)
Inductive pc : Type :=
| PcCall      (* about to load [done] on the fast path *)
| PcLock      (* about to take the mutex *)
| PcCheck     (* holds the mutex, about to load [done] again *)
| PcRun       (* holds the mutex, about to run [close(cli.apiShutdown)] *)
| PcStore     (* holds the mutex, about to store [done = 1] *)
| PcUnlock    (* holds the mutex, about to release it *)
| PcReturned
| PcPanicked.

Global Instance pc_eq_dec : EqDecision pc.
Proof. solve_decision. Defined.

Definition holdsMutex (p : pc) : bool :=
  match p with
  | PcCheck | PcRun | PcStore | PcUnlock => true
  | _ => false
  end.

(** The shared state with the mutex of the [Once] (its holder, when
    taken) and the program counter of every caller. *)
Record world : Type := mkWorld {
  cli : cliSync;
  mutex : option nat;
  threads : list pc
}.

Definition initial (n : nat) : world :=
  mkWorld newDaemonCLI None (replicate n PcCall).

Definition setPc (i : nat) (p : pc) (w : world) : world :=
  mkWorld (cli w) (mutex w) (<[i := p]> (threads w)).

(** One step of thread [i]. *)
Inductive step (i : nat) (w : world) : world -> Prop :=
| step_fast :
    threads w !! i = Some PcCall ->
    stopOnceDone (cli w) = true ->
    step i w (setPc i PcReturned w)
| step_slow :
    threads w !! i = Some PcCall ->
    stopOnceDone (cli w) = false ->
    step i w (setPc i PcLock w)
| step_lock :
    threads w !! i = Some PcLock ->
    mutex w = None ->
    step i w (mkWorld (cli w) (Some i) (<[i := PcCheck]> (threads w)))
| step_check_done :
    threads w !! i = Some PcCheck ->
    stopOnceDone (cli w) = true ->
    step i w (setPc i PcUnlock w)
| step_check_todo :
    threads w !! i = Some PcCheck ->
    stopOnceDone (cli w) = false ->
    step i w (setPc i PcRun w)
| step_run c :
    threads w !! i = Some PcRun ->
    closeChan (apiShutdown (cli w)) = Some c ->
    step i w (mkWorld (mkCliSync (stopOnceDone (cli w)) c (S (closes (cli w))))
                (mutex w) (<[i := PcStore]> (threads w)))
| step_run_panic :
    threads w !! i = Some PcRun ->
    closeChan (apiShutdown (cli w)) = None ->
    step i w (setPc i PcPanicked w)
| step_store :
    threads w !! i = Some PcStore ->
    step i w (mkWorld (mkCliSync true (apiShutdown (cli w)) (closes (cli w)))
                (mutex w) (<[i := PcUnlock]> (threads w)))
| step_unlock :
    threads w !! i = Some PcUnlock ->
    step i w (mkWorld (cli w) None (<[i := PcReturned]> (threads w))).

(** Any interleaving of the callers. *)
Inductive reachable (n : nat) : world -> Prop :=
| reach_init : reachable n (initial n)
| reach_step i w w' : reachable n w -> step i w w' -> reachable n w'.

Definition allReturned (w : world) : Prop :=
  Forall (fun p => p = PcReturned) (threads w).

(** Steps a caller still has to take; every step lowers the sum. *)
Definition stepsLeft (p : pc) : nat :=
  match p with
  | PcCall => 6
  | PcLock => 5
  | PcCheck => 4
  | PcRun => 3
  | PcStore => 2
  | PcUnlock => 1
  | PcReturned | PcPanicked => 0
  end.

Definition measure (w : world) : nat :=
  foldr (fun p acc => stepsLeft p + acc) 0 (threads w).

End Stop.

(** ** Go contexts over a logical clock *)

Module Ctx.

Local Open Scope Z_scope.

(** A context as the calls that built it.  [id] names the cancel
    function returned together with the context; instants are
    nanoseconds on one clock. *)
Inductive Context : Type :=
| Background
| CancelCtx (parent : Context) (id : nat)
| TimerCtx (parent : Context) (id : nat) (deadline : Z)
| WithoutCancel (parent : Context).

(** The instant at which each cancel function is first called, if it
    ever is. *)
Definition Schedule : Type := nat -> option Z.

Definition setCancel (id : nat) (t : option Z) (s : Schedule) : Schedule :=
  fun j => if Nat.eqb j id then t else s j.

(** [ctx.Deadline()]. *)
Fixpoint Deadline (c : Context) : option Z :=
  match c with
  | Background => None
  | CancelCtx p _ => Deadline p
  | TimerCtx _ _ d => Some d
  | WithoutCancel _ => None
  end.

(** [context.WithCancel]. *)
Definition WithCancel (parent : Context) (id : nat) : Context :=
  CancelCtx parent id.

(** [context.WithDeadline]: when the parent's deadline is earlier, the
    result is a plain cancel context under the parent. *)
Definition WithDeadline (parent : Context) (id : nat) (d : Z) : Context :=
  match Deadline parent with
  | Some cur => if cur <? d then CancelCtx parent id else TimerCtx parent id d
  | None => TimerCtx parent id d
  end.

(** [context.WithTimeout(parent, timeout)] called at instant [now]. *)
Definition WithTimeout (now : Z) (parent : Context) (id : nat) (timeout : Z)
  : Context :=
  WithDeadline parent id (now + timeout).

(** The earlier of two ends; the first argument wins a tie. *)
Definition earlier (a b : option (Z * goerr)) : option (Z * goerr) :=
  match a, b with
  | None, _ => b
  | _, None => a
  | Some (ta, _), Some (tb, _) => if ta <=? tb then a else b
  end.

(** When a context becomes done and the value of [ctx.Err()] from then
    on: the parent's end, the deadline, or the call of its cancel
    function, whichever comes first ([None]: never). *)
Fixpoint doneAt (s : Schedule) (c : Context) : option (Z * goerr) :=
  match c with
  | Background => None
  | WithoutCancel _ => None
  | CancelCtx p id =>
      earlier (doneAt s p) (option_map (fun t => (t, Canceled)) (s id))
  | TimerCtx p id d =>
      earlier (earlier (doneAt s p) (Some (d, DeadlineExceeded)))
              (option_map (fun t => (t, Canceled)) (s id))
  end.

End Ctx.

(** ** [shutdownDaemon] *)

Module Shutdown.

Import Ctx.
Local Open Scope Z_scope.

(** Arithmetic of [int64] ([time.Duration], and [int] on a 64-bit
    platform): results wrap around. *)
Definition wrap64 (z : Z) : Z := (z + 2 ^ 63) mod 2 ^ 64 - 2 ^ 63.

Definition maxInt64 : Z := 2 ^ 63 - 1.

(** [time.Duration(timeout) * time.Second]. *)
Definition timeoutDuration (timeout : Z) : Z := wrap64 (timeout * Second).

(** The daemon core as [shutdownDaemon] uses it: the value of
    [d.ShutdownTimeout()] and how long [d.Shutdown] runs before it
    returns ([None]: it does not return). *)
Record Daemon : Type := mkDaemon {
  ShutdownTimeout : Z;
  ShutdownTakes : option Z
}.

Inductive ShutdownLog : Type :=
| ForceShutdown   (* Error: "Force shutdown daemon" *)
| CleanShutdown.  (* Debug: "Clean shutdown succeeded" *)

(** The context that bounds [d.Shutdown] (lines 530-535). *)
Definition boundingContext (now : Z) (parent : Context) (id : nat) (d : Daemon)
  : Context :=
  if 0 <=? ShutdownTimeout d then
    WithTimeout now parent id (timeoutDuration (ShutdownTimeout d))
  else WithCancel parent id.

(** [shutdownDaemon(ctx, d)] called at instant [now]; [id] is the
    cancel function it creates, called by the goroutine when
    [d.Shutdown] returns.  The result is the instant at which
    [<-ctx.Done()] is passed and the line logged then; [None] when the
    call blocks for ever. *)
Definition shutdownDaemon (now : Z) (s : Schedule) (parent : Context)
    (id : nat) (d : Daemon) : option (Z * ShutdownLog) :=
  let ctx := boundingContext now parent id d in
  let s' := setCancel id (option_map (Z.add now) (ShutdownTakes d)) s in
  match doneAt s' ctx with
  | None => None
  | Some (t, err) =>
      Some (Z.max now t,
            if Is (Some err) DeadlineExceeded then ForceShutdown
            else CleanShutdown)
  end.

End Shutdown.

(** ** Configuration reload: [daemonCLI.reloadConfig] *)

Module Reload.

(** Lines of the log, by level. *)
Inductive LogLine : Type :=
| Info (msg : string)
| Warn (msg : string) (err : goerr)
| Error (msg : string) (err : goerr)
| Fatal (msg : string) (err : goerr).

(** What the reload reads and writes: the configuration of the
    running daemon core ([cli.d.Config()]), the plugin list held by
    the authorization middleware, and the debug switch. *)
Record State : Type := mkState {
  liveConfig : Config;
  authzPlugins : list string;
  debugEnabled : bool
}.

(** Collaborators.  [pluginGet] is
    [pg.Get(name, authorization.AuthZApiImplements, plugingetter.Lookup)],
    [marshal] is [json.Marshal(config.Sanitize(...))]. *)
Record ReloadEnv : Type := mkReloadEnv {
  reparse : Config + goerr;
  pluginGet : string -> error;
  coreReload : Config -> Config -> Config + goerr;
  marshal : Config -> string + goerr
}.

(** [validateAuthzPlugins(requestedPlugins, pg)]. *)
Fixpoint validateAuthzPlugins (requestedPlugins : list string)
    (get : string -> error) : error :=
  match requestedPlugins with
  | [] => None
  | reqPlugin :: rest =>
      match get reqPlugin with
      | Some err => Some err
      | None => validateAuthzPlugins rest get
      end
  end.

(** The result of a run: the state, the log, and whether the process
    was terminated ([Fatal] logs and then exits the process). *)
Record Run : Type := mkRun {
  state : State;
  log : list LogLine;
  exited : bool
}.

Section Reload.
Context (E : ReloadEnv).

(** Modelled from the spec: [Daemon.Reload], which applies the new
    configuration to the live daemon core, or fails and leaves the
    core under the previous configuration. *)
Definition daemonReload (st : State) (cfg : Config) : State + goerr :=
  match coreReload E (liveConfig st) cfg with
  | inl live => inl (mkState live (authzPlugins st) (debugEnabled st))
  | inr err => inr err
  end.

(** Lines 489-497: the debug switch follows the new configuration
    when it sets "debug". *)
Definition toggleDebug (cfg : Config) (st : State) : State :=
  if IsValueSet cfg "debug" then
    if debugEnabled st && negb (Debug cfg) then
      mkState (liveConfig st) (authzPlugins st) false
    else if Debug cfg && negb (debugEnabled st) then
      mkState (liveConfig st) (authzPlugins st) true
    else st
  else st.

(** The [reload] closure of [reloadConfig]. *)
Definition reload (cfg : Config) (r : Run) : Run :=
  match validateAuthzPlugins (AuthorizationPlugins cfg) (pluginGet E) with
  | Some err =>
      mkRun (state r)
        (log r ++ [Fatal "Error validating authorization plugin" err]) true
  | None =>
      match daemonReload (state r) cfg with
      | inr err =>
          mkRun (state r)
            (log r ++ [Error "Error reconfiguring the daemon" err]) false
      | inl st =>
          let st := mkState (liveConfig st) (AuthorizationPlugins cfg)
                      (debugEnabled st) in
          mkRun (toggleDebug cfg st) (log r) false
      end
  end.

(** Modelled from the spec: [config.Reload], which re-parses and
    re-validates the configuration and hands it to the callback
    only when that succeeded. *)
Definition configReload (callback : Config -> Run -> Run) (r : Run)
  : Run * error :=
  match reparse E with
  | inr err => (r, Some err)
  | inl cfg => (callback cfg r, None)
  end.

(** [cli.reloadConfig()]. *)
Definition reloadConfig (st : State) : Run :=
  let r := mkRun st [Info "Got signal to reload configuration"] false in
  match configReload reload r with
  | (r, Some err) =>
      mkRun (state r) (log r ++ [Error "Error reloading configuration" err])
        (exited r)
  | (r, None) =>
      if exited r then r
      else
        match marshal E (liveConfig (state r)) with
        | inr err =>
            mkRun (state r)
              (log r ++ [Warn "Error when marshaling configuration for printing" err;
                         Info "Reloaded configuration"]) false
        | inl _ =>
            mkRun (state r) (log r ++ [Info "Reloaded configuration"]) false
        end
  end.

End Reload.

End Reload.

(** ** The orchestrator: [daemonCLI.start] *)

Module Start.

Import Ctx.

Inductive Level : Type := LvInfo | LvWarn | LvError.

(** Everything [start] does that can be observed from outside, in
    program order. *)
Inductive Event : Type :=
| Log (lvl : Level) (msg : string)
| ConfigureProxyEnv
| ConfigureDaemonLogs
| DebugEnable
| SetDefaultUmask
| CreateDaemonRoot
| MkdirAll (path : string)
| PidfileWrite (path : string)
| Remove (path : string)
| StickRuntimeDirContents
| LoadListeners (tr : list LEvent)
| InitContainerd (ctx : Context)
| WaitContainerdShutdown (timeout : Z)
| Cancel (id : nat)
| Trap
| GoShutdownWatcher (ctx : Context)
| AfterFunc (d : Z) (id : nat)
| AwaitShutdownDone
| TimerStop
| HttpClose
| PreNotifyReady
| SetupTracing
| RegisterCDIDriver
| UseMiddleware (name : string)
| NewDaemon (ctx : Context)
| StoreHosts (hosts : list string)
| ValidateAuthzPlugins
| StartMetricsServer (addr : string)
| ClusterNew
| SetCluster
| ClusterStart
| RestartSwarmContainers
| SessionNewManager
| NewBuildManager
| BuildkitNew (ctx : Context)
| NewBackend
| BuildRouters (experimental : bool)
| CreateMux
| GoProcessClusterNotifications (ctx : Context)
| SetupConfigReloadTrap
| NotifyReady
| GoServe (ls : Listener)
| ClusterCleanup
| NotifyStopping
| ShutdownDaemon (ctx : Context)
| ShutdownBuildKit
| OtelShutdown.

(** The functions [start] defers, by the line that registers them. *)
Inductive Deferred : Type :=
| DRemovePidfile      (* line 148 *)
| DWaitContainerd     (* line 179 *)
| DCancel             (* line 185 *)
| DApiShutdown.       (* line 205 *)

(** Collaborators of [start] and what the world decides during a run.
    [serve ls] is what [httpServer.Serve(ls)] returns (never nil);
    [finishRank] orders the listener goroutines by the moment they
    return; [stopFired] tells whether [cli.apiShutdown] is closed when
    the deferred function of line 205 runs. *)
Record StartEnv : Type := mkStartEnv {
  runningWithRootlessKit : bool;
  goosLinux : bool;
  goosIsWindows : bool;
  euid : Z;
  setDefaultUmask : error;
  createDaemonRoot : error;
  mkdirExecRoot : error;
  mkdirPidDir : error;
  pidfileWrite : error;
  pidfileRemove : error;
  stickRuntimeDirContents : error;
  startHostEnv : HostEnv;
  initContainerd : bool * error;
  preNotifyReady : error;
  newVersionMiddleware : error;
  newDaemon : error;
  authzPluginGet : string -> error;
  startMetricsServer : error;
  clusterNew : error;
  clusterStart : error;
  sessionNewManager : error;
  newBuildManager : error;
  buildkitNew : error;
  newBackend : error;
  buildkitFeature : bool;
  hasExperimental : bool;
  serve : Listener -> goerr;
  finishRank : Listener -> nat;
  stopFired : bool;
  httpCloseErr : error;
  otelShutdown : error
}.

(** The cancel functions [start] creates. *)
Definition idMain : nat := 0.
Definition idApi : nat := 1.

(** A function body in progress: the trace so far and the stack of
    deferred calls, the latest first. *)
Record Frame : Type := mkFrame {
  trace : list Event;
  deferred : list Deferred
}.

(** Either the body goes on with a value, or it has executed a
    [return] with this error. *)
Inductive Flow (A : Type) : Type :=
| Next (a : A)
| Return (err : error).
Arguments Next {A} a.
Arguments Return {A} err.

Definition M (A : Type) : Type := Frame -> Flow A * Frame.

Definition pure {A} (a : A) : M A := fun f => (Next a, f).

Definition bind {A B} (m : M A) (k : A -> M B) : M B :=
  fun f =>
    match m f with
    | (Next a, f') => k a f'
    | (Return e, f') => (Return e, f')
    end.

Definition emit (ev : Event) : M unit :=
  fun f => (Next tt, mkFrame (trace f ++ [ev]) (deferred f)).

Definition defer (d : Deferred) : M unit :=
  fun f => (Next tt, mkFrame (trace f) (d :: deferred f)).

Definition return_ {A} (e : error) : M A := fun f => (Return e, f).

(** [if err != nil { return wrap(err) }]. *)
Definition check (err : error) (wrap : goerr -> goerr) : M unit :=
  match err with
  | Some e => return_ (Some (wrap e))
  | None => pure tt
  end.

Definition when (b : bool) (m : M unit) : M unit :=
  if b then m else pure tt.

Global Instance M_bind : MBind M := fun A B k m => bind m k.
Global Instance M_ret : MRet M := fun A a => pure a.

Definition wrapWith (msg : string) (e : goerr) : goerr := ErrWrap e msg.

(** [filepath.Dir] is not interpreted. *)
Definition pidDir (pidfile : string) : string := ("dir:" ++ pidfile)%string.

(** [cdiEnabled(conf)]. *)
Definition cdiEnabled (E : StartEnv) (conf : Config) : bool :=
  if negb (goosLinux E) then false
  else match Features conf !! "cdi" with
       | None => true
       | Some val => val
       end.

Section Start.
Context (E : StartEnv).

(** [initMiddlewares], as called from [start]: the error of
    [middleware.NewVersionMiddleware] comes back unchanged and the
    caller wraps it (line 261). *)
Definition initMiddlewares : M unit :=
  emit (UseMiddleware "experimental");;
  check (newVersionMiddleware E) (wrapWith "failed to start API server");;
  emit (UseMiddleware "version");;
  emit (UseMiddleware "authorization").

(** [createAndStartCluster]: the cluster is handed to the daemon
    before it is started, and returned together with the error of
    [c.Start()]. *)
Definition createAndStartCluster : M unit :=
  emit ClusterNew;;
  check (clusterNew E) (wrapWith "failed to start cluster component");;
  emit SetCluster;;
  emit ClusterStart;;
  check (clusterStart E) (wrapWith "failed to start cluster component").

(** [initBuildkit], as called from [start]: any error is wrapped by
    the caller. *)
Definition initBuildkit (ctx : Context) : M unit :=
  let outer := wrapWith "error initializing buildkit" in
  emit (Log LvInfo "Initializing buildkit");;
  emit SessionNewManager;;
  check (sessionNewManager E)
    (fun e => outer (wrapWith "failed to create sessionmanager" e));;
  emit NewBuildManager;;
  check (newBuildManager E) outer;;
  emit (BuildkitNew ctx);;
  check (buildkitNew E)
    (fun e => outer (wrapWith "error creating buildkit instance" e));;
  emit NewBackend;;
  check (newBackend E)
    (fun e => outer (wrapWith "failed to create builder backend" e));;
  emit (Log LvInfo "Completed buildkit initialization").

(** The listener goroutines in the order in which they return. *)
Definition finishesBefore (a b : Listener) : Prop :=
  (finishRank E a <= finishRank E b)%nat.

Global Instance finishesBefore_dec : RelDecision finishesBefore.
Proof. intros a b. unfold finishesBefore. apply _. Defined.

Definition finishOrder (lss : list Listener) : list Listener :=
  merge_sort finishesBefore lss.

(** What the goroutines leave in [errAPI], a channel of capacity
    one written with a non-blocking send: the first error other
    than [http.ErrServerClosed] stays, later ones are dropped. *)
Fixpoint collect (order : list Listener) (errAPI : option goerr)
    (tr : list Event) : option goerr * list Event :=
  match order with
  | [] => (errAPI, tr)
  | ls :: rest =>
      let err := serve E ls in
      if decide (err = ErrServerClosed) then collect rest errAPI tr
      else
        collect rest
          (match errAPI with
           | None => Some err
           | Some _ => errAPI
           end)
          (tr ++ [Log LvError "ServeAPI error"])
  end.

(** Lines 321-344. *)
Definition serveAPI (lss : list Listener) : M (option goerr) :=
  fun f =>
    let started := trace f ++ map GoServe lss in
    let '(errAPI, tr) := collect (finishOrder lss) None started in
    (Next errAPI, mkFrame tr (deferred f)).

(** The body of [start], up to its [return]. *)
Definition body (cfg : Config) (tc : option tlsConfig) (ctx0 : Context)
  : M unit :=
  emit ConfigureProxyEnv;;
  emit ConfigureDaemonLogs;;
  emit (Log LvInfo "Starting up");;
  when (Debug cfg) (emit DebugEnable);;
  when (runningWithRootlessKit E && negb (Rootless cfg))
    (return_ (Some (ErrNew "rootless mode needs to be enabled for running with RootlessKit")));;
  when (goosLinux E && negb (euid E =? 0)%Z)
    (return_ (Some (ErrNew "dockerd needs to be started with root privileges. To run dockerd in rootless mode as an unprivileged user, see https://docs.docker.com/go/rootless/")));;
  emit SetDefaultUmask;;
  check (setDefaultUmask E) (fun e => e);;
  emit CreateDaemonRoot;;
  check (createDaemonRoot E) (fun e => e);;
  emit (MkdirAll (ExecRoot cfg));;
  check (mkdirExecRoot E) (fun e => e);;
  when (negb (bool_decide (Pidfile cfg = "")))
    (emit (MkdirAll (pidDir (Pidfile cfg)));;
     check (mkdirPidDir E) (wrapWith "failed to create pidfile directory");;
     emit (PidfileWrite (Pidfile cfg));;
     check (pidfileWrite E)
       (wrapWith ("failed to start daemon, ensure docker is not running or delete "
                  ++ Pidfile cfg)%string);;
     defer DRemovePidfile);;
  when (Rootless cfg)
    (emit (Log LvWarn "Running in rootless mode. This mode has feature limitations.");;
     when (runningWithRootlessKit E)
       (emit (Log LvInfo "Running with RootlessKit integration"));;
     emit StickRuntimeDirContents;;
     when (bool_decide (is_Some (stickRuntimeDirContents E)))
       (emit (Log LvWarn "cannot set sticky bit on files under XDG_RUNTIME_DIR")));;
  when (Experimental cfg)
    (emit (Log LvWarn "Running with experimental features enabled"));;
  let '(loaded, ltr) := loadListeners (startHostEnv E) cfg tc in
  emit (LoadListeners ltr);;
  match loaded with
  | inr err => return_ (Some (ErrWrap err "failed to load listeners"))
  | inl (lss, hosts) =>
      let ctx := WithCancel ctx0 idMain in
      emit (InitContainerd ctx);;
      when (fst (initContainerd E)) (defer DWaitContainerd);;
      match snd (initContainerd E) with
      | Some err => emit (Cancel idMain);; return_ (Some err)
      | None =>
          defer DCancel;;
          let apiShutdownCtx := WithCancel (WithoutCancel ctx) idApi in
          emit Trap;;
          emit (GoShutdownWatcher apiShutdownCtx);;
          defer DApiShutdown;;
          emit PreNotifyReady;;
          check (preNotifyReady E) (fun e => e);;
          emit SetupTracing;;
          when (cdiEnabled E cfg) (emit RegisterCDIDriver);;
          initMiddlewares;;
          emit (NewDaemon ctx);;
          check (newDaemon E) (wrapWith "failed to start daemon");;
          emit (StoreHosts hosts);;
          emit ValidateAuthzPlugins;;
          check (Reload.validateAuthzPlugins (AuthorizationPlugins cfg)
                   (authzPluginGet E))
            (wrapWith "failed to validate authorization plugin");;
          emit (StartMetricsServer (MetricsAddress cfg));;
          check (startMetricsServer E) (wrapWith "failed to start metrics server");;
          createAndStartCluster;;
          emit RestartSwarmContainers;;
          initBuildkit ctx;;
          when (goosIsWindows E && buildkitFeature E)
            (emit (Log LvWarn "Buildkit feature is enabled in the daemon.json configuration file. Support for BuildKit on Windows is experimental, and enabling this feature may not work. Use at your own risk!"));;
          emit (BuildRouters (hasExperimental E));;
          emit CreateMux;;
          emit (GoProcessClusterNotifications ctx);;
          emit SetupConfigReloadTrap;;
          emit NotifyReady;;
          emit (Log LvInfo "Daemon has completed initialization");;
          errAPI ← serveAPI lss;
          emit ClusterCleanup;;
          emit NotifyStopping;;
          emit (ShutdownDaemon ctx);;
          emit ShutdownBuildKit;;
          emit (Cancel idMain);;
          match errAPI with
          | Some err =>
              return_ (Some (ErrWrap err "shutting down due to ServeAPI error"))
          | None =>
              emit OtelShutdown;;
              when (bool_decide (is_Some (otelShutdown E)))
                (emit (Log LvError "Failed to shutdown OTEL tracing"));;
              emit (Log LvInfo "Daemon shutdown complete");;
              return_ None
          end
      end
  end.

(** The deferred function of line 205. *)
Definition apiShutdownDeferred : list Event :=
  if stopFired E then [AfterFunc (5 * Second) idApi; AwaitShutdownDone; TimerStop]
  else
    HttpClose ::
    (if bool_decide (is_Some (httpCloseErr E))
     then [Log LvError "Error closing http server"] else []).

(** What a deferred call does when it runs. *)
Definition runDeferred (cfg : Config) (d : Deferred) : list Event :=
  match d with
  | DRemovePidfile =>
      Remove (Pidfile cfg) ::
      (if bool_decide (is_Some (pidfileRemove E))
       then [Log LvError "remove pidfile"] else [])
  | DWaitContainerd => [WaitContainerdShutdown (10 * Second)]
  | DCancel => [Cancel idMain]
  | DApiShutdown => apiShutdownDeferred
  end.

(** [cli.start(ctx)]: the returned error and the whole trace, the
    deferred calls running last-registered first once the body has
    returned. *)
Definition start (cfg : Config) (tc : option tlsConfig) (ctx0 : Context)
  : error * list Event :=
  match body cfg tc ctx0 (mkFrame [] []) with
  | (Return err, f) =>
      (err, trace f ++ concat (map (runDeferred cfg) (deferred f)))
  | (Next _, f) =>
      (None, trace f ++ concat (map (runDeferred cfg) (deferred f)))
  end.

End Start.

End Start.

(** ** The grace window of the API server, in time *)

Module Grace.

Import Ctx Start.
Local Open Scope Z_scope.

(** The two contexts of [start]: the cancellable main context (line
    176) and the context handed to [httpServer.Shutdown] (line 190). *)
Definition mainCtx (ctx0 : Context) : Context := WithCancel ctx0 idMain.

Definition apiShutdownCtx (ctx0 : Context) : Context :=
  WithCancel (WithoutCancel (mainCtx ctx0)) idApi.



End Grace.

(** ** The process environment: proxies and the OTLP protocol *)

Module Env.

(** The environment of the process is a [gmap string string], on a
    system where the names of variables are case-sensitive.
    [os.Getenv] answers the empty string for a variable that is not
    set. *)
Definition Getenv (env : gmap string string) (key : string) : string :=
  default "" (env !! key).

Fixpoint hasByte (c : Ascii.ascii) (s : string) : bool :=
  match s with
  | EmptyString => false
  | String a s' => if decide (a = c) then true else hasByte c s'
  end.

Definition NUL : Ascii.ascii := Ascii.zero.

(** [os.Setenv]: refuses an empty name, a name with [=] or a NUL byte
    and a value with a NUL byte, and leaves the environment as it was
    then. *)
Definition Setenv (key value : string) (env : gmap string string) : gmap string string * error :=
  if bool_decide (key = "") || hasByte "="%char key || hasByte NUL key
     || hasByte NUL value
  then (env, Some (ErrExt "setenv: invalid argument"))
  else (<[key := value]> env, None).

(** The fields of [config.Config] read by [configureProxyEnv]. *)
Record ProxyConfig : Type := mkProxyConfig {
  HTTPProxy : string;
  HTTPSProxy : string;
  NoProxy : string
}.

(** The warning of [overrideProxyEnv], with its three fields. *)
Record ProxyWarning : Type := mkProxyWarning {
  pw_name : string;
  pw_old : string;
  pw_new : string
}.

Section Proxy.
(** [config.MaskCredentials]. *)
Variable MaskCredentials : string -> string.

(** [overrideProxyEnv(name, val)], on the environment and the log. *)
Definition overrideProxyEnv (name val : string)
    (st : gmap string string * list ProxyWarning) : gmap string string * list ProxyWarning :=
  let '(env, logs) := st in
  let oldVal := Getenv env name in
  let logs :=
    if negb (bool_decide (oldVal = "")) && negb (bool_decide (oldVal = val))
    then logs ++ [mkProxyWarning name (MaskCredentials oldVal)
                    (MaskCredentials val)]
    else logs in
  (fst (Setenv name val env), logs).

(** [configureProxyEnv(cfg)]. *)
Definition configureProxyEnv (cfg : ProxyConfig) (env : gmap string string)
  : gmap string string * list ProxyWarning :=
  let st := (env, []) in
  let st :=
    if negb (bool_decide (HTTPProxy cfg = "")) then
      overrideProxyEnv "http_proxy" (HTTPProxy cfg)
        (overrideProxyEnv "HTTP_PROXY" (HTTPProxy cfg) st)
    else st in
  let st :=
    if negb (bool_decide (HTTPSProxy cfg = "")) then
      overrideProxyEnv "https_proxy" (HTTPSProxy cfg)
        (overrideProxyEnv "HTTPS_PROXY" (HTTPSProxy cfg) st)
    else st in
  if negb (bool_decide (NoProxy cfg = "")) then
    overrideProxyEnv "no_proxy" (NoProxy cfg)
      (overrideProxyEnv "NO_PROXY" (NoProxy cfg) st)
  else st.

End Proxy.

Definition tracesEnv : string := "OTEL_EXPORTER_OTLP_TRACES_PROTOCOL".
Definition metricsEnv : string := "OTEL_EXPORTER_OTLP_METRICS_PROTOCOL".
Definition protoEnv : string := "OTEL_EXPORTER_OTLP_PROTOCOL".
Definition defaultProto : string := "http/protobuf".

(** [setOTLPProtoDefault()]. *)
Definition setOTLPProtoDefault (env : gmap string string) : gmap string string :=
  if bool_decide (Getenv env protoEnv = "") then
    let env :=
      if bool_decide (Getenv env tracesEnv = "") then
        fst (Setenv tracesEnv defaultProto env)
      else env in
    if bool_decide (Getenv env metricsEnv = "") then
      fst (Setenv metricsEnv defaultProto env)
    else env
  else env.

End Env.

(** ** The containerd the daemon talks to *)

Module Containerd.

(** [supervisor.DaemonOpt], by the function that builds it. *)
Inductive DaemonOpt : Type :=
| WithLogLevel (lvl : string)
| WithLogFormat (fmt : string)
| WithCRIDisabled
| WithDetectLocalBinary.

Global Instance DaemonOpt_eq_dec : EqDecision DaemonOpt.
Proof. solve_decision. Defined.

(** Collaborators: the constant [containerddefaults.DefaultAddress],
    [homedir.GetRuntimeDir], [os.Lstat] (its error only),
    [filepath.Join], whether [runtime.GOOS] is windows, and
    [supervisor.Start], which answers the address of the containerd it
    started. *)
Record ContainerdEnv : Type := mkContainerdEnv {
  DefaultAddress : string;
  GetRuntimeDir : string * error;
  Lstat : string -> error;
  Join : list string -> string;
  onWindows : bool;
  supervisorStart : string -> string -> list DaemonOpt -> string * error
}.

(** What [initializeContainerd] does besides returning. *)
Inductive CEvent : Type :=
| CInfo (msg : string)
| CStart (root state : string) (opts : list DaemonOpt).

Section Containerd.
Context (E : ContainerdEnv).

(** [getContainerdDaemonOpts(cfg)]; [criContainerd] is
    [cfg.CriContainerd]. *)
Definition getContainerdDaemonOpts (cfg : Config) (criContainerd : bool)
  : list DaemonOpt * error :=
  let opts :=
    if Debug cfg then [WithLogLevel "debug"]
    else [WithLogLevel (LogLevel cfg)] in
  let opts :=
    if negb (bool_decide (LogFormat cfg = "")) then
      opts ++ [WithLogFormat (LogFormat cfg)]
    else opts in
  let opts := if negb criContainerd then opts ++ [WithCRIDisabled] else opts in
  let opts := if onWindows E then opts ++ [WithDetectLocalBinary] else opts in
  (opts, None).

(** [systemContainerdRunning(honorXDG)]. *)
Definition systemContainerdRunning (honorXDG : bool)
  : (string * bool) * error :=
  if honorXDG then
    match GetRuntimeDir E with
    | (_, Some err) => (("", false), Some err)
    | (runtimeDir, None) =>
        let addr := Join E [runtimeDir; "containerd"; "containerd.sock"] in
        ((addr, bool_decide (Lstat E addr = None)), None)
    end
  else
    ((DefaultAddress E, bool_decide (Lstat E (DefaultAddress E) = None)), None).

(** The result of [initializeContainerd]: the value it leaves in
    [cli.Config.ContainerdAddr] ([None]: the field is not written),
    whether the returned wait function is non-nil, the error, and the
    events. *)
Record InitResult : Type := mkInitResult {
  containerdAddr : option string;
  waitFn : bool;
  initErr : error;
  initEvents : list CEvent
}.

(** [cli.initializeContainerd(ctx)]; [honorXDG] is the package
    constant. *)
Definition initializeContainerd (honorXDG : bool) (cfg : Config)
    (criContainerd : bool) : InitResult :=
  match systemContainerdRunning honorXDG with
  | (_, Some err) =>
      mkInitResult None false
        (Some (ErrWrap err "could not determine whether the system containerd is running"))
        []
  | ((systemContainerdAddr, true), None) =>
      mkInitResult (Some systemContainerdAddr) false None []
  | ((_, false), None) =>
      let evs := [CInfo "containerd not running, starting managed containerd"] in
      match getContainerdDaemonOpts cfg criContainerd with
      | (_, Some err) =>
          mkInitResult None false
            (Some (ErrWrap err "failed to generate containerd options")) evs
      | (opts, None) =>
          let root := Join E [Root cfg; "containerd"] in
          let state := Join E [ExecRoot cfg; "containerd"] in
          let evs := evs ++ [CStart root state opts] in
          match supervisorStart E root state opts with
          | (_, Some err) =>
              mkInitResult None false
                (Some (ErrWrap err "failed to start containerd")) evs
          | (addr, None) => mkInitResult (Some addr) true None evs
          end
      end
  end.

End Containerd.

End Containerd.

(** ** Logging set-up: [configureDaemonLogs] *)

Module Logs.

Inductive LogEvent : Type :=
| SetFormat (fmt : string)
| DisableColors
| SetLevel (lvl : string)
| WarnLevel (err : goerr).

(** Collaborators: [log.SetFormat], [log.SetLevel], and whether the
    formatter installed by [log.SetFormat(log.TextFormat)] is a
    [*logrus.TextFormatter]. *)
Record LogEnv : Type := mkLogEnv {
  logSetFormat : string -> error;
  logSetLevel : string -> error;
  textFormatter : bool
}.

Definition JSONFormat : string := "json".
Definition TextFormat : string := "text".

(** The value a panic carries: [err.Error()] of an error, or a
    message. *)
Inductive PanicValue : Type :=
| PanicErr (err : goerr)
| PanicMsg (msg : string).

(** [configureDaemonLogs(conf)]; [rawLogs] is [conf.RawLogs].  The
    right component is a panic. *)
Definition configureDaemonLogs (E : LogEnv) (conf : Config) (rawLogs : bool)
  : list LogEvent + PanicValue :=
  let fmt : list LogEvent + PanicValue :=
    if decide (LogFormat conf = JSONFormat) then
      match logSetFormat E JSONFormat with
      | Some err => inr (PanicErr err)
      | None => inl [SetFormat JSONFormat]
      end
    else if bool_decide (LogFormat conf = TextFormat)
            || bool_decide (LogFormat conf = "") then
      match logSetFormat E TextFormat with
      | Some err => inr (PanicErr err)
      | None =>
          inl (SetFormat TextFormat ::
               (if rawLogs && textFormatter E then [DisableColors] else []))
      end
    else inr (PanicMsg ("unsupported log format " ++ LogFormat conf)%string) in
  match fmt with
  | inr p => inr p
  | inl evs =>
      let logLevel :=
        if decide (LogLevel conf = "") then "info" else LogLevel conf in
      inl (evs ++ SetLevel logLevel ::
           match logSetLevel E logLevel with
           | Some err => [WarnLevel err]
           | None => []
           end)
  end.

End Logs.

(** ** daemon/container.go: validation of container settings *)

Module Verify.

Local Open Scope Z_scope.

(** [containertypes.HealthConfig]: durations are [time.Duration],
    [Retries] is an [int]. *)
Record HealthConfig : Type := mkHealthConfig {
  Interval : Z;
  Timeout : Z;
  StartPeriod : Z;
  StartInterval : Z;
  Retries : Z
}.

Section Health.
(** [containertypes.MinimumDuration], and how [%s] prints it. *)
Variable MinimumDuration : Z.
Variable showDuration : Z -> string.

(** [validateHealthCheck(healthConfig)]; [None] is the nil pointer. *)
Definition validateHealthCheck (healthConfig : option HealthConfig) : error :=
  match healthConfig with
  | None => None
  | Some hc =>
      if negb (Interval hc =? 0) && (Interval hc <? MinimumDuration) then
        Some (ErrNew ("Interval in Healthcheck cannot be less than "
                      ++ showDuration MinimumDuration)%string)
      else if negb (Timeout hc =? 0) && (Timeout hc <? MinimumDuration) then
        Some (ErrNew ("Timeout in Healthcheck cannot be less than "
                      ++ showDuration MinimumDuration)%string)
      else if Retries hc <? 0 then
        Some (ErrNew "Retries in Healthcheck cannot be negative")
      else if negb (StartPeriod hc =? 0) && (StartPeriod hc <? MinimumDuration) then
        Some (ErrNew ("StartPeriod in Healthcheck cannot be less than "
                      ++ showDuration MinimumDuration)%string)
      else if negb (StartInterval hc =? 0)
              && (StartInterval hc <? MinimumDuration) then
        Some (ErrNew ("StartInterval in Healthcheck cannot be less than "
                      ++ showDuration MinimumDuration)%string)
      else None
  end.

End Health.

(** [nat.PortBinding] and [nat.PortMap]; the map is given as the list
    of its entries in the order in which the [range] loop visits
    them. *)
Record PortBinding : Type := mkPortBinding {
  HostIP : string;
  HostPort : string
}.

Definition PortMap : Type := list (string * list PortBinding).

Section Ports.
(** [nat.SplitProtoPort], [nat.ParsePort] and [nat.NewPort] (their
    errors), and [%q]. *)
Variable SplitProtoPort : string -> string * string.
Variable ParsePort : string -> error.
Variable NewPort : string -> string -> error.
Variable quote : string -> string.

Fixpoint validateBindings (pbs : list PortBinding) : error :=
  match pbs with
  | [] => None
  | pb :: rest =>
      let '(proto, port) := SplitProtoPort (HostPort pb) in
      match NewPort proto port with
      | Some _ =>
          Some (ErrNew ("invalid port specification: " ++ quote (HostPort pb))%string)
      | None => validateBindings rest
      end
  end.

(** [validatePortBindings(ports)]. *)
Fixpoint validatePortBindings (ports : PortMap) : error :=
  match ports with
  | [] => None
  | (port, pbs) :: rest =>
      let portStr := snd (SplitProtoPort port) in
      match ParsePort portStr with
      | Some _ =>
          Some (ErrNew ("invalid port specification: " ++ quote portStr)%string)
      | None =>
          match validateBindings pbs with
          | Some err => Some err
          | None => validatePortBindings rest
          end
      end
  end.

End Ports.

(** [mount.Mount], as far as [validateHostConfig] looks into it. *)
Record Mount : Type := mkMount {
  mountIsImage : bool;
  mountSpec : string
}.

(** The fields of [containertypes.HostConfig] that [validateHostConfig]
    reads; [RestartPolicyIsNone] and [IsolationIsValid] are the answers
    of the methods, [AnnotationKeys] the keys of the map in the order
    of the [range] loop. *)
Record HostConfig : Type := mkHostConfig {
  AutoRemove : bool;
  RestartPolicy : string;
  RestartPolicyIsNone : bool;
  Mounts : list Mount;
  ExtraHosts : list string;
  PortBindings : PortMap;
  CapAdd : list string;
  CapDrop : list string;
  Isolation : string;
  IsolationIsValid : bool;
  AnnotationKeys : list string
}.

Definition msgImageMount : string := "Image mount is an experimental feature".

(** Collaborators of [validateHostConfig]. *)
Record VerifyEnv : Type := mkVerifyEnv {
  ValidateMountConfig : Mount -> error;
  ValidateExtraHost : string -> error;
  vSplitProtoPort : string -> string * string;
  vParsePort : string -> error;
  vNewPort : string -> string -> error;
  vQuote : string -> string;
  ValidateRestartPolicy : string -> error;
  NormalizeLegacyCapabilities : list string -> error;
  GOOS : string
}.

Section HostConfig.
Context (E : VerifyEnv).

(** [validateCapabilities(hostConfig)]. *)
Definition validateCapabilities (hostConfig : HostConfig) : error :=
  match NormalizeLegacyCapabilities E (CapAdd hostConfig) with
  | Some err => Some (ErrWrap err "invalid CapAdd")
  | None =>
      match NormalizeLegacyCapabilities E (CapDrop hostConfig) with
      | Some err => Some (ErrWrap err "invalid CapDrop")
      | None => None
      end
  end.

(** The loop over [hostConfig.Mounts]. *)
Fixpoint validateMounts (mounts : list Mount) (warnings : list string)
  : list string * error :=
  match mounts with
  | [] => (warnings, None)
  | cfg :: rest =>
      let warnings :=
        if mountIsImage cfg then warnings ++ [msgImageMount] else warnings in
      match ValidateMountConfig E cfg with
      | Some err => (warnings, Some err)
      | None => validateMounts rest warnings
      end
  end.

Fixpoint validateExtraHosts (hosts : list string) : error :=
  match hosts with
  | [] => None
  | extraHost :: rest =>
      match ValidateExtraHost E extraHost with
      | Some err => Some err
      | None => validateExtraHosts rest
      end
  end.

Fixpoint validateAnnotations (keys : list string) : error :=
  match keys with
  | [] => None
  | k :: rest =>
      if decide (k = "") then
        Some (ErrNew "invalid Annotations: the empty string is not permitted as an annotation key")
      else validateAnnotations rest
  end.

(** [validateHostConfig(hostConfig)]; [None] is the nil pointer. *)
Definition validateHostConfig (hostConfig : option HostConfig)
  : list string * error :=
  match hostConfig with
  | None => ([], None)
  | Some hc =>
      if AutoRemove hc && negb (RestartPolicyIsNone hc) then
        ([], Some (ErrNew "can't create 'AutoRemove' container with restart policy"))
      else
        match validateMounts (Mounts hc) [] with
        | (warnings, Some err) => (warnings, Some err)
        | (warnings, None) =>
            match validateExtraHosts (ExtraHosts hc) with
            | Some err => (warnings, Some err)
            | None =>
                match validatePortBindings (vSplitProtoPort E) (vParsePort E)
                        (vNewPort E) (vQuote E) (PortBindings hc) with
                | Some err => (warnings, Some err)
                | None =>
                    match ValidateRestartPolicy E (RestartPolicy hc) with
                    | Some err => (warnings, Some err)
                    | None =>
                        match validateCapabilities hc with
                        | Some err => (warnings, Some err)
                        | None =>
                            if negb (IsolationIsValid hc) then
                              (warnings,
                               Some (ErrNew ("invalid isolation '" ++ Isolation hc
                                             ++ "' on " ++ GOOS E)%string))
                            else
                              (warnings, validateAnnotations (AnnotationKeys hc))
                        end
                    end
                end
            end
        end
  end.

End HostConfig.

(** The fields of [containertypes.Config] that
    [validateContainerConfig] reads or writes. *)
Record ContainerConfig : Type := mkContainerConfig {
  WorkingDir : string;
  StopSignal : string;
  Env : list string;
  Healthcheck : option HealthConfig
}.

(** Collaborators of [validateContainerConfig]: the functions of
    [path/filepath] for the platform, [signal.ParseSignal] and
    [opts.ValidateEnv] (their errors), and the minimum duration of a
    health check with its printed form. *)
Record ConfigEnv : Type := mkConfigEnv {
  FromSlash : string -> string;
  IsAbs : string -> bool;
  PathSeparator : string;
  Clean : string -> string;
  ParseSignal : string -> error;
  ValidateEnv : string -> error;
  cMinimumDuration : Z;
  cShowDuration : Z -> string
}.

Section ContainerConfig.
Context (C : ConfigEnv).

(** [translateWorkingDir(config)]: the configuration as the call
    leaves it, and the error. *)
Definition translateWorkingDir (config : ContainerConfig)
  : ContainerConfig * error :=
  if decide (WorkingDir config = "") then (config, None)
  else
    let wd := FromSlash C (WorkingDir config) in
    if negb (IsAbs C wd) && negb (HasPrefix wd (PathSeparator C)) then
      (config,
       Some (ErrNew ("the working directory '" ++ WorkingDir config
                     ++ "' is invalid, it needs to be an absolute path")%string))
    else
      (mkContainerConfig (Clean C wd) (StopSignal config) (Env config)
         (Healthcheck config), None).

Fixpoint validateEnvs (env : list string) : error :=
  match env with
  | [] => None
  | e :: rest =>
      match ValidateEnv C e with
      | Some err => Some err
      | None => validateEnvs rest
      end
  end.

(** [validateContainerConfig(config)]; [None] is the nil pointer. *)
Definition validateContainerConfig (config : option ContainerConfig)
  : option ContainerConfig * error :=
  match config with
  | None => (None, None)
  | Some c =>
      match translateWorkingDir c with
      | (c, Some err) => (Some c, Some err)
      | (c, None) =>
          let sig :=
            if negb (bool_decide (StopSignal c = "")) then
              ParseSignal C (StopSignal c)
            else None in
          match sig with
          | Some err => (Some c, Some err)
          | None =>
              match validateEnvs (Env c) with
              | Some err => (Some c, Some err)
              | None =>
                  (Some c,
                   validateHealthCheck (cMinimumDuration C) (cShowDuration C)
                     (Healthcheck c))
              end
          end
      end
  end.

(** [daemon.verifyContainerSettings(daemonCfg, hostConfig, config,
    update)], over [verifyPlatformContainerSettings] of the platform:
    the container configuration as it is left, the warnings and the
    error. *)
Definition verifyContainerSettings (E : VerifyEnv)
    (verifyPlatformContainerSettings :
       option HostConfig -> bool -> list string * error)
    (hostConfig : option HostConfig) (config : option ContainerConfig)
    (update : bool) : option ContainerConfig * (list string * error) :=
  match validateContainerConfig config with
  | (config, Some err) => (config, ([], Some err))
  | (config, None) =>
      match validateHostConfig E hostConfig with
      | (warns, Some err) => (config, (warns, Some err))
      | (warns, None) =>
          let '(warns2, err) := verifyPlatformContainerSettings hostConfig update in
          (config, (warns ++ warns2, err))
      end
  end.

End ContainerConfig.

End Verify.

(** ** daemon/container.go: looking containers up *)

Module Store.

Import Container.

(** The daemon as the look-up functions see it: the memory store
    [daemon.containers], and of the view database
    [daemon.containersReplica] the two queries
    [Snapshot().GetID(name)] and [GetByPrefix(s)]. *)
Record Daemon : Type := mkDaemon {
  containers : gmap string Container;
  GetID : string -> string * error;
  GetByPrefix : string -> string * error
}.

Section Lookup.
(** The error constructors of the package, [invalidIdentifier] (under
    [errors.WithStack]) and [containerNotFound]. *)
Variable invalidIdentifier : string -> goerr.
Variable containerNotFound : string -> goerr.

(** [daemon.GetByName(name)]; no container is the nil pointer. *)
Definition GetByName (daemon : Daemon) (name : string)
  : option Container * error :=
  match name with
  | EmptyString => (None, Some (ErrNew "No container name supplied"))
  | String c _ =>
      let fullName := if decide (c = "/"%char) then name else ("/" ++ name)%string in
      match GetID daemon fullName with
      | (_, Some _) =>
          (None, Some (ErrNew ("Could not find entity for " ++ name)%string))
      | (id, None) =>
          match containers daemon !! id with
          | None =>
              (None,
               Some (ErrNew ("Could not find container for entity id " ++ id)%string))
          | Some e => (Some e, None)
          end
      end
  end.

(** [daemon.GetContainer(prefixOrName)]. *)
Definition GetContainer (daemon : Daemon) (prefixOrName : string)
  : option Container * error :=
  if decide (prefixOrName = "") then
    (None, Some (invalidIdentifier prefixOrName))
  else
    match containers daemon !! prefixOrName with
    | Some containerByID => (Some containerByID, None)
    | None =>
        match fst (GetByName daemon prefixOrName) with
        | Some containerByName => (Some containerByName, None)
        | None =>
            match GetByPrefix daemon prefixOrName with
            | (_, Some err) => (None, Some err)
            | (containerID, None) =>
                match containers daemon !! containerID with
                | None => (None, Some (containerNotFound prefixOrName))
                | Some ctr => (Some ctr, None)
                end
            end
        end
    end.

End Lookup.

(** The input stream [register] gives the container. *)
Inductive InputPipe : Type := InputPipes | NopInputPipe.

(** [daemon.register(ctx, c)]: the container enters the memory store
    under its id, replacing what was there, and is then written to the
    view database; [checkpointTo] is [c.CheckpointTo], which answers
    the two queries of the database as it leaves them, and
    [openStdin] is [c.Config.OpenStdin]. *)
Definition register
    (checkpointTo : Container -> Daemon ->
                    ((string -> string * error) * (string -> string * error)) * error)
    (daemon : Daemon) (c : Container) (openStdin : bool)
  : (Daemon * InputPipe) * error :=
  let pipe := if openStdin then InputPipes else NopInputPipe in
  let added := mkDaemon (<[ID c := c]> (containers daemon)) (GetID daemon)
                 (GetByPrefix daemon) in
  let '((getID, getByPrefix), err) := checkpointTo c added in
  ((mkDaemon (containers added) getID getByPrefix, pipe), err).

End Store.

(** ** [newDaemonCLI] *)

Module Cli.

(** [daemonCLI], as far as [newDaemonCLI] computes it: the
    configuration and the TLS configuration of the API server.  (The
    shutdown channel and its [sync.Once] are in [Stop].) *)
Record daemonCLI : Type := mkDaemonCLI {
  cliConfig : Config;
  apiTLSConfig : option tlsConfig
}.

(** [newDaemonCLI(opts)]. *)
Definition newDaemonCLI (E : CliEnv)
    (tlsconfigServer : TLSOptions -> ClientAuthType -> option tlsConfig * error)
    (opts : daemonOptions) : daemonCLI + goerr :=
  match loadDaemonCliConfig E opts with
  | inr err => inr err
  | inl cfg =>
      match newAPIServerTLSConfig tlsconfigServer cfg with
      | (_, Some err) => inr err
      | (tlsConfig, None) => inl (mkDaemonCLI cfg tlsConfig)
      end
  end.

End Cli.

(** * Properties *)

(** ** Container creation *)

Section ContainerFacts.
Import Container.

Lemma getEntrypointAndArgs_entrypoint e es cmd :
  getEntrypointAndArgs (e :: es) cmd = Some (e, es ++ cmd).
Proof. reflexivity. Qed.

Lemma getEntrypointAndArgs_cmd c cs :
  getEntrypointAndArgs [] (c :: cs) = Some (c, cs).
Proof. reflexivity. Qed.

Lemma getEntrypointAndArgs_panics ep cmd :
  getEntrypointAndArgs ep cmd = None <-> ep = [] /\ cmd = [].
Proof.
  destruct ep as [|e es], cmd as [|c cs]; simpl; split;
    intros H; try discriminate; try (destruct H; discriminate); auto.
Qed.

(** The hypothesis says that the host-name phase of [newContainer]
    does not panic: the host name is given, or taken from the host,
    or the generated id is long enough to be cut at 12 bytes. *)
Lemma newContainer_panic_iff gen host repo drv now name plat os config hc img managed :
  (Hostname config <> "" \/ NetworkModeIsHost hc = true \/
   prefix12 (fst (fst (gen name))) <> None) ->
  newContainer gen host repo drv now name plat os config hc img managed = Panic
  <-> snd (gen name) = None
      /\ (Hostname config = "" -> NetworkModeIsHost hc = true -> snd host = None)
      /\ Entrypoint config = [] /\ Cmd config = [].
Proof.
  intros Hok. unfold newContainer.
  destruct (gen name) as [[id name'] [err|]] eqn:Hgen; simpl.
  { split; [discriminate|]. intros [? _]; discriminate. }
  simpl in Hok.
  destruct (decide (Hostname config = "")) as [Hh|Hh].
  - destruct (NetworkModeIsHost hc) eqn:Hnet.
    + destruct host as [h [e|]]; simpl.
      * split; [discriminate|]. intros (_ & H & _). specialize (H Hh eq_refl).
        discriminate.
      * destruct (getEntrypointAndArgs (Entrypoint config) (Cmd config))
          as [[ep args]|] eqn:Hg.
        -- split; [discriminate|]. intros (_ & _ & H1 & H2).
           rewrite H1, H2 in Hg. discriminate.
        -- apply getEntrypointAndArgs_panics in Hg. tauto.
    + destruct (prefix12 id) as [h|] eqn:Hp.
      * destruct (getEntrypointAndArgs (Entrypoint config) (Cmd config))
          as [[ep args]|] eqn:Hg.
        -- split; [discriminate|]. intros (_ & _ & H1 & H2).
           rewrite H1, H2 in Hg. discriminate.
        -- apply getEntrypointAndArgs_panics in Hg.
           split; [intros _|reflexivity].
           repeat split; try tauto; intros; congruence.
      * exfalso. destruct Hok as [?|[?|?]]; congruence.
  - destruct (getEntrypointAndArgs (Entrypoint config) (Cmd config))
      as [[ep args]|] eqn:Hg.
    + split; [discriminate|]. intros (_ & _ & H1 & H2).
      rewrite H1, H2 in Hg. discriminate.
    + apply getEntrypointAndArgs_panics in Hg.
      split; [intros _|reflexivity].
      repeat split; try tauto; intros; congruence.
Qed.

End ContainerFacts.

(** C10.  [getEntrypointAndArgs] returns the first entry of a non-empty
    entrypoint with the rest of it followed by the command, the first
    entry of the command with its rest when the entrypoint is empty, and
    indexes out of range (the error branch of the embedding) exactly
    when both are empty; [newContainer], once it has an id and a host
    name, panics exactly on such a configuration, so it is safe only
    when the entrypoint or the command is non-empty. *)
Theorem C10_entrypoint_or_cmd_required :
  (forall e es cmd,
      Container.getEntrypointAndArgs (e :: es) cmd = Some (e, es ++ cmd)) /\
  (forall c cs, Container.getEntrypointAndArgs [] (c :: cs) = Some (c, cs)) /\
  (forall ep cmd,
      Container.getEntrypointAndArgs ep cmd = None <-> ep = [] /\ cmd = []) /\
  (forall gen host repo drv now name plat os config hc img managed,
      (Container.Hostname config <> "" \/ Container.NetworkModeIsHost hc = true \/
       Container.prefix12 (fst (fst (gen name))) <> None) ->
      Container.newContainer gen host repo drv now name plat os config hc img managed
        = Panic
      <-> snd (gen name) = None
          /\ (Container.Hostname config = "" ->
              Container.NetworkModeIsHost hc = true -> snd host = None)
          /\ Container.Entrypoint config = [] /\ Container.Cmd config = []).
Proof.
  split; [exact getEntrypointAndArgs_entrypoint|].
  split; [exact getEntrypointAndArgs_cmd|].
  split; [exact getEntrypointAndArgs_panics|].
  intros. now apply newContainer_panic_iff.
Qed.

(** ** The shutdown signal *)

Section StopFacts.
Import Stop.

Lemma stop_after_done c : stopOnceDone c = true -> stop c = Some c.
Proof. unfold stop. now intros ->. Qed.

Lemma stop_first : stop newDaemonCLI = Some (mkCliSync true ChanClosed 1).
Proof. reflexivity. Qed.

Lemma stopTimes_done n c : stopOnceDone c = true -> stopTimes n c = Some c.
Proof.
  intros Hd. induction n as [|n IH]; simpl; [reflexivity|].
  rewrite (stop_after_done c Hd). simpl. exact IH.
Qed.

Lemma stopTimes_once n :
  1 <= n -> stopTimes n newDaemonCLI = stop newDaemonCLI.
Proof.
  destruct n as [|n]; [lia|]. intros _. simpl.
  rewrite stop_first. simpl. now apply stopTimes_done.
Qed.

(** The invariant of the interleavings: nobody has panicked, the mutex
    is held by exactly the thread inside [doSlow], the channel is
    closed exactly when one [close] was carried out, and [done] is set
    only after it. *)
Record Inv (n : nat) (w : world) : Prop := mkInv {
  inv_len : length (threads w) = n;
  inv_nopanic : forall i, threads w !! i <> Some PcPanicked;
  inv_mutex : forall i p, threads w !! i = Some p ->
                (holdsMutex p = true <-> mutex w = Some i);
  inv_count : closes (cli w) = if decide (apiShutdown (cli w) = ChanClosed) then 1 else 0;
  inv_done : stopOnceDone (cli w) = true -> apiShutdown (cli w) = ChanClosed;
  inv_run : forall i, threads w !! i = Some PcRun ->
              stopOnceDone (cli w) = false /\ apiShutdown (cli w) = ChanOpen;
  inv_store : forall i, threads w !! i = Some PcStore -> apiShutdown (cli w) = ChanClosed;
  inv_after : forall i p, threads w !! i = Some p -> p = PcUnlock \/ p = PcReturned ->
              stopOnceDone (cli w) = true;
  inv_closed : apiShutdown (cli w) = ChanClosed ->
               stopOnceDone (cli w) = true \/ exists j, threads w !! j = Some PcStore;
  inv_owner : forall j, mutex w = Some j ->
              exists p, threads w !! j = Some p /\ holdsMutex p = true
}.

Lemma Inv_initial n : Inv n (initial n).
Proof.
  split; simpl.
  - apply length_replicate.
  - intros i H. apply lookup_replicate in H as [? _]. discriminate.
  - intros i p H. apply lookup_replicate in H as [-> _]. simpl. split; discriminate.
  - reflexivity.
  - discriminate.
  - intros i H. apply lookup_replicate in H as [? _]. discriminate.
  - intros i H. apply lookup_replicate in H as [? _]. discriminate.
  - intros i p H [-> | ->]; apply lookup_replicate in H as [? _]; discriminate.
  - discriminate.
  - discriminate.
Qed.

Ltac look :=
  repeat match goal with
  | H : <[_ := _]> _ !! _ = Some _ |- _ =>
      apply list_lookup_insert_Some in H; destruct H as [(-> & ? & ?) | (? & ?)]
  end.

Ltac use_mutex Hmx :=
  repeat match goal with
  | H : ?ts !! ?x = Some ?q |- _ =>
      lazymatch goal with
      | _ : holdsMutex q = true <-> _ = Some x |- _ => fail
      | _ => pose proof (Hmx x q H)
      end
  end.

Lemma Inv_step n i w w' : Inv n w -> step i w w' -> Inv n w'.
Proof.
  intros [Hlen Hnp Hmx Hcnt Hdone Hrun Hstore Hafter Hclosed Hown] Hs.
  destruct w as [c m ts]; destruct c as [d ch k]; simpl in *.
  destruct Hs; simpl in *;
    try match goal with
        | H : ts !! i = Some PcRun |- _ =>
            destruct (Hrun i H) as [-> ->]; simpl in *; simplify_eq
        end;
    split; simpl; rewrite ?length_insert; auto.
  all: try (intros j Hj; look; subst; try discriminate; try congruence; eauto; fail).
  all: try (intros j p Hj; look; subst; use_mutex Hmx; simpl in *;
            intuition congruence).
  all: try (intros j p Hj Hp; look; subst; destruct Hp; try discriminate;
            try congruence; eauto; fail).
  all: try (intros Hc; destruct (Hclosed Hc) as [?|[j Hj]]; [auto|];
            right; exists j; rewrite list_lookup_insert_ne; [assumption|];
            intros ->; congruence).
  all: try (intros j Hj; look; subst; use_mutex Hmx; simpl in *;
            first [discriminate | intuition congruence]).
  all: try (intros j Hj; simplify_eq; eexists; split;
            [apply list_lookup_insert_eq; eapply lookup_lt_Some; eassumption
            |reflexivity]).
  all: try (intros j Hj; destruct (Hown j Hj) as (p & Hp & Hh);
            destruct (decide (j = i)) as [->|Hne];
            [simplify_eq; simpl in *; try discriminate;
             eexists;
             (split;
              [apply list_lookup_insert_eq; eapply lookup_lt_Some; eassumption
              |reflexivity])
            |exists p; split; [rewrite list_lookup_insert_ne; auto|assumption]]).
  - intros j Hj. look; subst; [|eauto]. split; [reflexivity|].
    destruct ch; [reflexivity|]. exfalso.
    destruct (Hclosed eq_refl) as [?|[j' Hj']]; [discriminate|].
    use_mutex Hmx; simpl in *. intuition congruence.
  - intros _. right. exists i. apply list_lookup_insert_eq.
    eapply lookup_lt_Some; eassumption.
  - intros _. eauto.
Qed.

Lemma reachable_Inv n w : reachable n w -> Inv n w.
Proof.
  induction 1 as [|i w w' _ IH Hs]; [apply Inv_initial|].
  eapply Inv_step; eassumption.
Qed.

Lemma Inv_closes_le n w : Inv n w -> closes (cli w) <= 1.
Proof.
  intros H. rewrite (inv_count _ _ H). destruct (decide _); lia.
Qed.

Lemma Inv_all_returned n w :
  Inv n w -> 1 <= n -> allReturned w ->
  requested (cli w) = true /\ closes (cli w) = 1 /\ stopOnceDone (cli w) = true.
Proof.
  intros H Hn Hall.
  assert (Hd : stopOnceDone (cli w) = true).
  { destruct (threads w) as [|p ts] eqn:Hts.
    - pose proof (inv_len _ _ H) as Hl. rewrite Hts in Hl. simpl in Hl. lia.
    - apply (inv_after _ _ H 0 p); [now rewrite Hts|].
      unfold allReturned in Hall. rewrite Hts in Hall.
      right. now inversion Hall. }
  pose proof (inv_done _ _ H Hd) as Hc.
  unfold requested. rewrite (inv_count _ _ H), Hc.
  rewrite bool_decide_eq_true. destruct (decide _); [auto|contradiction].
Qed.

Lemma Inv_progress n w :
  Inv n w -> ~ allReturned w -> exists i w', step i w w'.
Proof.
  intros H Hnot.
  destruct (mutex w) as [j|] eqn:Hm.
  - destruct (inv_owner _ _ H j Hm) as (p & Hp & Hholds).
    exists j. destruct p; try discriminate.
    + destruct (stopOnceDone (cli w)) eqn:Hd; eexists;
        [eapply step_check_done|eapply step_check_todo]; eassumption.
    + destruct (inv_run _ _ H j Hp) as [_ Hopen].
      eexists. eapply step_run; [eassumption|]. rewrite Hopen. reflexivity.
    + eexists. eapply step_store; eassumption.
    + eexists. eapply step_unlock; eassumption.
  - apply not_Forall_Exists in Hnot; [|intros p; apply _].
    apply Exists_exists in Hnot as (p & Hin & Hp).
    apply list_elem_of_lookup in Hin as [i Hi].
    exists i.
    pose proof (inv_mutex _ _ H i p Hi) as Hmx. rewrite Hm in Hmx.
    destruct p; simpl in *;
      try (exfalso; destruct Hmx as [Hmx _]; specialize (Hmx eq_refl); discriminate).
    + destruct (stopOnceDone (cli w)) eqn:Hd; eexists;
        [eapply step_fast|eapply step_slow]; eassumption.
    + eexists. eapply step_lock; eassumption.
    + contradiction.
    + exfalso. eapply inv_nopanic; eassumption.
Qed.

Lemma measure_insert ts i p p' :
  ts !! i = Some p -> stepsLeft p' < stepsLeft p ->
  foldr (fun q acc => stepsLeft q + acc) 0 (<[i := p']> ts)
  < foldr (fun q acc => stepsLeft q + acc) 0 ts.
Proof.
  revert i. induction ts as [|q ts IH]; intros [|i] Hi Hlt; simpl in *;
    try discriminate.
  - injection Hi as ->. lia.
  - specialize (IH i Hi Hlt). lia.
Qed.

Lemma step_measure i w w' : step i w w' -> measure w' < measure w.
Proof.
  destruct 1; unfold measure; simpl;
    eapply measure_insert; try eassumption; simpl; lia.
Qed.

End StopFacts.

(** C2.  Calling [stop] once or any number of times, one call after the
    other, leaves the same state: the channel is closed by the first
    call, every later call changes nothing and none fails.  Under any
    interleaving of [n] concurrent callers the close is carried out at
    most once and no caller panics; every run ends (each step lowers a
    measure, and a state where somebody has not returned can step), and
    once all callers have returned an observer finds the signal
    requested, after exactly one transition. *)
Theorem C2_stop_fires_once :
  Stop.stop Stop.newDaemonCLI = Some (Stop.mkCliSync true Stop.ChanClosed 1) /\
  (forall c, Stop.stopOnceDone c = true -> Stop.stop c = Some c) /\
  (forall n, 1 <= n ->
     Stop.stopTimes n Stop.newDaemonCLI = Stop.stop Stop.newDaemonCLI) /\
  (forall n w, Stop.reachable n w ->
     Stop.closes (Stop.cli w) <= 1 /\
     (forall i, Stop.threads w !! i <> Some Stop.PcPanicked) /\
     (1 <= n -> Stop.allReturned w ->
        Stop.requested (Stop.cli w) = true /\ Stop.closes (Stop.cli w) = 1) /\
     (~ Stop.allReturned w -> exists i w', Stop.step i w w') /\
     (forall i w', Stop.step i w w' -> Stop.measure w' < Stop.measure w)).
Proof.
  split; [exact stop_first|].
  split; [exact stop_after_done|].
  split; [exact stopTimes_once|].
  intros n w Hr. pose proof (reachable_Inv n w Hr) as H.
  split; [eapply Inv_closes_le; eassumption|].
  split; [exact (inv_nopanic n w H)|].
  split.
  { intros Hn Hall. destruct (Inv_all_returned n w H Hn Hall) as (? & ? & _). auto. }
  split; [eapply Inv_progress; eassumption|].
  intros i w'. apply step_measure.
Qed.

(** ** Host normalisation and listener resolution *)

Section HostFacts.
Context (E : HostEnv).

Lemma sortStrings_sorted l : Sorted String.le (sortStrings l).
Proof. unfold sortStrings. apply Sorted_merge_sort. apply _. Qed.

Lemma sortStrings_perm l : sortStrings l ≡ₚ l.
Proof. unfold sortStrings. apply merge_sort_Permutation. Qed.

(** [sort.Strings] is determined by its contract. *)
Lemma sortStrings_unique l l' :
  Sorted String.le l' -> l' ≡ₚ l -> l' = sortStrings l.
Proof.
  intros Hs Hp. eapply (Sorted_unique String.le); [assumption|apply sortStrings_sorted|].
  rewrite Hp. symmetry. apply sortStrings_perm.
Qed.

Lemma normalizeLoop_spec useTLS rest : forall hosts seen,
  Forall (fun h => snd (ParseHost E useTLS (honorXDG E) h) = None) rest ->
  (forall h, h ∈ seen <-> h ∈ hosts) ->
  exists res,
    normalizeLoop E useTLS rest hosts seen = inl res /\
    (forall h, h ∈ res <-> h ∈ hosts \/ h ∈ map (fun x => fst (ParseHost E useTLS (honorXDG E) x)) rest) /\
    (NoDup hosts -> NoDup res) /\
    (NoDup (hosts ++ map (fun x => fst (ParseHost E useTLS (honorXDG E) x)) rest) ->
       res = hosts ++ map (fun x => fst (ParseHost E useTLS (honorXDG E) x)) rest).
Proof.
  induction rest as [|h rest IH]; intros hosts seen Hwf Hseen; simpl.
  - exists hosts. split; [reflexivity|]. split; [|split].
    + intros x. rewrite elem_of_nil. tauto.
    + auto.
    + intros _. now rewrite app_nil_r.
  - inversion Hwf as [|? ? Hh Hrest]; subst.
    destruct (ParseHost E useTLS (honorXDG E) h) as [host err] eqn:Hp.
    simpl in Hh. subst err.
    destruct (bool_decide (host ∈ seen)) eqn:Hin.
    + apply bool_decide_eq_true in Hin.
      destruct (IH hosts seen Hrest Hseen) as (res & Hres & Hmem & Hnd & Heq).
      exists res. split; [assumption|]. split; [|split].
      * intros x. rewrite Hmem, elem_of_cons.
        split; [tauto|]. intros [?|[->|?]]; auto. left. now apply Hseen.
      * assumption.
      * intros Hnodup. exfalso. apply NoDup_app in Hnodup as (_ & Hdisj & _).
        apply (Hdisj host); [now apply Hseen|]. apply elem_of_cons. now left.
    + apply bool_decide_eq_false in Hin.
      assert (Hseen' : forall x, x ∈ {[host]} ∪ seen <-> x ∈ hosts ++ [host]).
      { intros x. rewrite elem_of_union, elem_of_singleton, elem_of_app,
          list_elem_of_singleton, Hseen. tauto. }
      destruct (IH (hosts ++ [host]) ({[host]} ∪ seen) Hrest Hseen')
        as (res & Hres & Hmem & Hnd & Heq).
      exists res. split; [assumption|]. split; [|split].
      * intros x. rewrite Hmem, elem_of_app, list_elem_of_singleton, elem_of_cons.
        tauto.
      * intros Hnodup. apply Hnd. apply NoDup_app. split; [assumption|].
        split; [|apply NoDup_singleton].
        intros x Hx Hx'. apply list_elem_of_singleton in Hx'. subst x.
        apply Hin. now apply Hseen.
      * rewrite <- app_assoc in Heq. simpl in Heq. exact Heq.
Qed.

Lemma listenLoop_hosts cfg tc rest : forall hosts lss tr lss' hosts' tr',
  listenLoop E cfg tc rest hosts lss tr = (inl (lss', hosts'), tr') ->
  hosts' = hosts ++ map (fun h => snd (fst (Cut h "://"))) rest.
Proof.
  induction rest as [|h rest IH]; intros hosts lss tr lss' hosts' tr' H; simpl in *.
  - injection H as <- <- <-. now rewrite app_nil_r.
  - destruct (Cut h "://") as [[proto addr] ok]. simpl.
    destruct ok; simpl in H; [|discriminate].
    destruct (deterrent E cfg tc h proto addr) as [evs [err|]]; [discriminate|].
    destruct (bool_decide (proto = "tcp")).
    + destruct (allocateDaemonPort E addr); [discriminate|].
      destruct (listenersInit E proto addr (SocketGroup cfg) tc) as [ls [err|]];
        [discriminate|].
      apply IH in H. rewrite H, <- app_assoc. reflexivity.
    + destruct (listenersInit E proto addr (SocketGroup cfg) tc) as [ls [err|]];
        [discriminate|].
      apply IH in H. rewrite H, <- app_assoc. reflexivity.
Qed.

Lemma normalizeHosts_spec cfg :
  Hosts cfg <> [] ->
  Forall (fun h => snd (ParseHost E (default (DefaultTLSValue E) (TLS cfg))
                          (honorXDG E) h) = None) (Hosts cfg) ->
  exists cfg',
    normalizeHosts E cfg = (cfg', None) /\
    Sorted String.le (Hosts cfg') /\
    NoDup (Hosts cfg') /\
    Hosts cfg' ≡ₚ
      remove_dups (map (fun x => fst (ParseHost E (default (DefaultTLSValue E) (TLS cfg))
                                        (honorXDG E) x)) (Hosts cfg)) /\
    (NoDup (map (fun x => fst (ParseHost E (default (DefaultTLSValue E) (TLS cfg))
                                 (honorXDG E) x)) (Hosts cfg)) ->
       Hosts cfg' =
       sortStrings (map (fun x => fst (ParseHost E (default (DefaultTLSValue E) (TLS cfg))
                                         (honorXDG E) x)) (Hosts cfg))).
Proof.
  intros Hne Hwf.
  assert (Hlen : Nat.eqb (length (Hosts cfg)) 0 = false)
    by (destruct (Hosts cfg); [contradiction|reflexivity]).
  unfold normalizeHosts. rewrite Hlen.
  assert (Htls : match TLS cfg with Some b => b | None => DefaultTLSValue E end
                 = default (DefaultTLSValue E) (TLS cfg)) by now destruct (TLS cfg).
  rewrite Htls.
  destruct (normalizeLoop_spec (default (DefaultTLSValue E) (TLS cfg)) (Hosts cfg) [] ∅ Hwf)
    as (res & Hres & Hmem & Hnd & Heq).
  { intros x. rewrite elem_of_nil. set_solver. }
  rewrite Hres. eexists. split; [reflexivity|].
  change (Hosts (set_Hosts (sortStrings res) cfg)) with (sortStrings res).
  assert (Hndres : NoDup res) by (apply Hnd; constructor).
  split; [apply sortStrings_sorted|].
  split; [rewrite sortStrings_perm; assumption|].
  split.
  - rewrite sortStrings_perm. apply NoDup_Permutation; [assumption|apply NoDup_remove_dups|].
    intros x. rewrite Hmem, elem_of_remove_dups, elem_of_nil. tauto.
  - intros Hnodup. now rewrite (Heq Hnodup).
Qed.

Lemma loadListeners_hosts cfg tc lss hosts tr :
  loadListeners E cfg tc = (inl (lss, hosts), tr) ->
  hosts = map (fun h => snd (fst (Cut h "://"))) (Hosts cfg).
Proof.
  unfold loadListeners. destruct (Nat.eqb _ _); [discriminate|].
  intros H. apply listenLoop_hosts in H. exact H.
Qed.

End HostFacts.

(** An environment for the examples: host specifications are already
    in normal form, numeric addresses are the three listed ones, names
    do not resolve, every port can be reserved and every bind yields one
    socket. *)
Definition exampleHostEnv : HostEnv :=
  {| DefaultTLSValue := false;
     honorXDG := false;
     ParseHost := fun _ _ h => (h, None);
     IP := string;
     SplitHostPort := fun a =>
       let '(h, p, ok) := Cut a ":" in
       if ok then ((h, p), None)
       else (("", ""), Some (ErrExt "missing port in address"));
     ParseIP := fun s =>
       if bool_decide (s ∈ ["127.0.0.1"; "0.0.0.0"; "192.168.1.10"]) then Some s
       else None;
     ResolveIPAddr := fun _ => (None, Some (ErrExt "no such host"));
     IsLoopback := fun ip => HasPrefix ip "127.";
     allocateDaemonPort := fun _ => None;
     listenersInit := fun _ addr _ _ => ([mkListener addr 3], None) |}.

Definition exampleConfig (hosts : list string) (tls tlsverify : option bool)
  : Config :=
  {| Hosts := hosts; TLS := tls; TLSVerify := tlsverify;
     TLSOpts := mkTLSOptions "" "" ""; Debug := false; LogLevel := "info";
     LogFormat := "text"; MinAPIVersion := ""; Labels := [];
     ValuesSet := ∅; CDISpecDirs := None; Features := ∅;
     SocketGroup := "docker"; AuthorizationPlugins := [];
     Pidfile := "/var/run/docker.pid"; Root := "/var/lib/docker";
     ExecRoot := "/var/run/docker"; Rootless := false; Experimental := false;
     MetricsAddress := "" |}.

(** C3, as amended.  For a non-empty list of well-formed host
    specifications, [normalizeHosts] leaves in [cfg.Hosts] the parsed
    specifications sorted in ascending byte order with every duplicate
    collapsed to one entry (for a duplicate-free list: exactly the sorted
    list), and the host list [loadListeners] then returns holds the
    address part of each of these entries, in the order of the whole
    specifications. *)
Theorem C3_normalized_hosts (E : HostEnv) (cfg : Config) :
  Hosts cfg <> [] ->
  Forall (fun h => snd (ParseHost E (default (DefaultTLSValue E) (TLS cfg))
                          (honorXDG E) h) = None) (Hosts cfg) ->
  exists cfg',
    normalizeHosts E cfg = (cfg', None) /\
    Sorted String.le (Hosts cfg') /\
    NoDup (Hosts cfg') /\
    Hosts cfg' ≡ₚ
      remove_dups (map (fun x => fst (ParseHost E (default (DefaultTLSValue E) (TLS cfg))
                                        (honorXDG E) x)) (Hosts cfg)) /\
    (NoDup (map (fun x => fst (ParseHost E (default (DefaultTLSValue E) (TLS cfg))
                                 (honorXDG E) x)) (Hosts cfg)) ->
       Hosts cfg' =
       sortStrings (map (fun x => fst (ParseHost E (default (DefaultTLSValue E) (TLS cfg))
                                         (honorXDG E) x)) (Hosts cfg))) /\
    (forall tc lss hosts tr,
       loadListeners E cfg' tc = (inl (lss, hosts), tr) ->
       hosts = map (fun h => snd (fst (Cut h "://"))) (Hosts cfg')).
Proof.
  intros Hne Hwf.
  destruct (normalizeHosts_spec E cfg Hne Hwf) as (cfg' & H1 & H2 & H3 & H4 & H5).
  exists cfg'. repeat (split; [assumption|]).
  intros tc lss hosts tr. apply loadListeners_hosts.
Qed.

Lemma C3_normalized_hosts_witness :
  exists cfg',
    normalizeHosts exampleHostEnv
      (exampleConfig ["unix:///var/run/docker.sock"; "tcp://127.0.0.1:2375";
                      "unix:///var/run/docker.sock"] (Some false) None)
      = (cfg', None) /\
    Hosts cfg' = ["tcp://127.0.0.1:2375"; "unix:///var/run/docker.sock"] /\
    (forall tc lss hosts tr,
       loadListeners exampleHostEnv cfg' tc = (inl (lss, hosts), tr) ->
       hosts = ["127.0.0.1:2375"; "/var/run/docker.sock"]).
Proof.
  destruct (C3_normalized_hosts exampleHostEnv
              (exampleConfig ["unix:///var/run/docker.sock"; "tcp://127.0.0.1:2375";
                              "unix:///var/run/docker.sock"] (Some false) None))
    as (cfg' & Hn & _ & _ & _ & _ & Hl).
  - discriminate.
  - repeat constructor.
  - exists cfg'. split; [exact Hn|].
    assert (Hh : Hosts cfg' = ["tcp://127.0.0.1:2375"; "unix:///var/run/docker.sock"]).
    { vm_compute in Hn. injection Hn as <-. reflexivity. }
    split; [exact Hh|].
    intros tc lss hosts tr H. rewrite (Hl tc lss hosts tr H), Hh. reflexivity.
Defined.

(** The claim as first stated fails: for the two distinct well-formed
    specifications below, the list returned by listener resolution is
    neither the sorted input nor a sorted list at all. *)
Lemma C3_counterexample :
  let input := ["unix:///var/run/docker.sock"; "tcp://127.0.0.1:2375"] in
  let cfg' := fst (normalizeHosts exampleHostEnv (exampleConfig input (Some false) None)) in
  let hosts := ["127.0.0.1:2375"; "/var/run/docker.sock"] in
  NoDup input /\
  snd (normalizeHosts exampleHostEnv (exampleConfig input (Some false) None)) = None /\
  (exists lss tr, loadListeners exampleHostEnv cfg' None = (inl (lss, hosts), tr)) /\
  hosts <> sortStrings input /\
  hosts <> sortStrings (map (fun h => snd (fst (Cut h "://"))) input) /\
  ~ Sorted String.le hosts.
Proof.
  cbv zeta. split; [|split; [|split; [|split; [|split]]]].
  - eapply bool_decide_unpack. vm_compute. exact I.
  - vm_compute. reflexivity.
  - eexists _, _. vm_compute. reflexivity.
  - vm_compute. discriminate.
  - vm_compute. discriminate.
  - intros H. inversion H as [|? ? _ Hd]; subst. inversion Hd as [|? ? Hle]; subst.
    vm_compute in Hle. exact Hle.
Qed.

(** ** The deterrent delay of listener resolution *)

Section DeterrentFacts.
Context (E : HostEnv).
Local Open Scope Z_scope.

Lemma slept_app a b : slept (a ++ b) = slept a + slept b.
Proof.
  unfold slept. induction a as [|ev a IH]; simpl; [reflexivity|].
  destruct ev; rewrite ?IH; lia.
Qed.

Lemma warnings_app a b : warnings (a ++ b) = (warnings a + warnings b)%nat.
Proof.
  unfold warnings. induction a as [|ev a IH]; simpl; [reflexivity|].
  destruct ev; rewrite ?IH; lia.
Qed.

(** What the deterrent block costs for one host of the list. *)
Definition hostDelay (cfg : Config) (tc : option tlsConfig) (h : string) : Z :=
  let '(proto, addr, _) := Cut h "://" in
  slept (fst (deterrent E cfg tc h proto addr)).

Definition hostWarnings (cfg : Config) (tc : option tlsConfig) (h : string) : nat :=
  let '(proto, addr, _) := Cut h "://" in
  warnings (fst (deterrent E cfg tc h proto addr)).

Lemma nonLoopbackDelay_slept pa ip :
  slept (nonLoopbackDelay E pa ip) = 0 \/
  slept (nonLoopbackDelay E pa ip) = 15 * Second.
Proof.
  unfold nonLoopbackDelay.
  destruct (decide (ip = "localhost")); [left; reflexivity|].
  destruct (ParseIP E ip) as [a|].
  - destruct (negb (IsLoopback E a)); [right|left]; reflexivity.
  - destruct (ResolveIPAddr E ip) as [[a|] [err|]];
      try destruct (negb (IsLoopback E a)); simpl; auto.
Qed.

Lemma deterrent_nonneg cfg tc pa proto addr :
  0 <= slept (fst (deterrent E cfg tc pa proto addr)).
Proof.
  unfold deterrent.
  destruct (bool_decide (proto = "tcp") && negb (authEnabled tc)); [|simpl; lia].
  destruct (negb (checkTLSAuthOK E cfg)); [|simpl; unfold Second; lia].
  destruct (SplitHostPort E addr) as [[ip port] [err|]]; simpl fst.
  - simpl; unfold Second; lia.
  - change (0 <= slept ([LWarn pa msgInsecure; LWarn pa msgBrowser;
                          LWarn pa msgDeprecation; LSleep Second]
                         ++ nonLoopbackDelay E pa ip)).
    rewrite slept_app.
    destruct (nonLoopbackDelay_slept pa ip) as [-> | ->]; simpl; unfold Second; lia.
Qed.

Lemma hostDelay_nonneg cfg tc h : 0 <= hostDelay cfg tc h.
Proof.
  unfold hostDelay. destruct (Cut h "://") as [[proto addr] ok].
  apply deterrent_nonneg.
Qed.

(** With verified client certificates the block does nothing. *)
Lemma deterrent_auth cfg tc pa proto addr :
  authEnabled tc = true -> deterrent E cfg tc pa proto addr = ([], None).
Proof.
  intros H. unfold deterrent. rewrite H, andb_false_r. reflexivity.
Qed.

(** The sleeps and warnings of the loop are those of the deterrent
    blocks of the hosts it went through. *)
Lemma listenLoop_cost cfg tc rest : forall hosts lss tr lss' hosts' tr',
  listenLoop E cfg tc rest hosts lss tr = (inl (lss', hosts'), tr') ->
  slept tr' = slept tr + foldr (fun h acc => hostDelay cfg tc h + acc) 0 rest /\
  warnings tr' =
    (warnings tr + foldr (fun h acc => hostWarnings cfg tc h + acc) 0 rest)%nat.
Proof.
  induction rest as [|h rest IH]; intros hosts lss tr lss' hosts' tr' H;
    simpl in H |- *.
  - injection H as <- <- <-. split; lia.
  - unfold hostDelay at 1, hostWarnings at 1.
    destruct (Cut h "://") as [[proto addr] ok].
    destruct ok; simpl in H; [|discriminate].
    destruct (deterrent E cfg tc h proto addr) as [evs [err|]]; [discriminate|].
    simpl fst.
    destruct (bool_decide (proto = "tcp")).
    + destruct (allocateDaemonPort E addr); [discriminate|].
      destruct (listenersInit E proto addr (SocketGroup cfg) tc) as [ls [err|]];
        [discriminate|].
      apply IH in H as [H1 H2]. rewrite H1, H2.
      rewrite !slept_app, !warnings_app. simpl. split; lia.
    + destruct (listenersInit E proto addr (SocketGroup cfg) tc) as [ls [err|]];
        [discriminate|].
      apply IH in H as [H1 H2]. rewrite H1, H2.
      rewrite !slept_app, !warnings_app. simpl. split; lia.
Qed.

Lemma listenLoop_auth cfg tc rest : forall hosts lss tr r tr',
  authEnabled tc = true ->
  listenLoop E cfg tc rest hosts lss tr = (r, tr') ->
  slept tr' = slept tr /\ warnings tr' = warnings tr.
Proof.
  induction rest as [|h rest IH]; intros hosts lss tr r tr' Ha H; simpl in H.
  - injection H as <- <-. split; reflexivity.
  - destruct (Cut h "://") as [[proto addr] ok].
    destruct ok; simpl in H; [|injection H as <- <-; split; reflexivity].
    rewrite (deterrent_auth cfg tc h proto addr Ha) in H.
    destruct (bool_decide (proto = "tcp")).
    + destruct (allocateDaemonPort E addr).
      { injection H as <- <-. rewrite !slept_app, !warnings_app. simpl. split; lia. }
      destruct (listenersInit E proto addr (SocketGroup cfg) tc) as [ls [err|]].
      { injection H as <- <-. rewrite !slept_app, !warnings_app. simpl. split; lia. }
      apply (IH _ _ _ _ _ Ha) in H as [H1 H2]. rewrite H1, H2.
      rewrite !slept_app, !warnings_app. simpl. split; lia.
    + destruct (listenersInit E proto addr (SocketGroup cfg) tc) as [ls [err|]].
      { injection H as <- <-. rewrite !slept_app, !warnings_app. simpl. split; lia. }
      apply (IH _ _ _ _ _ Ha) in H as [H1 H2]. rewrite H1, H2.
      rewrite !slept_app, !warnings_app. simpl. split; lia.
Qed.

Lemma sum_delay_member cfg tc h rest :
  h ∈ rest ->
  hostDelay cfg tc h <= foldr (fun h acc => hostDelay cfg tc h + acc) 0 rest.
Proof.
  induction rest as [|x rest IH]; intros Hin.
  - apply elem_of_nil in Hin. contradiction.
  - simpl. assert (0 <= foldr (fun h acc => hostDelay cfg tc h + acc) 0 rest).
    { clear. induction rest as [|y rest IH]; simpl; [lia|].
      pose proof (hostDelay_nonneg cfg tc y). lia. }
    apply elem_of_cons in Hin as [->|Hin].
    + lia.
    + specialize (IH Hin). pose proof (hostDelay_nonneg cfg tc x). lia.
Qed.

Lemma sum_warnings_member cfg tc h rest :
  h ∈ rest ->
  (hostWarnings cfg tc h <= foldr (fun h acc => hostWarnings cfg tc h + acc) 0 rest)%nat.
Proof.
  induction rest as [|x rest IH]; intros Hin.
  - apply elem_of_nil in Hin. contradiction.
  - simpl. apply elem_of_cons in Hin as [->|Hin]; [lia|].
    specialize (IH Hin). lia.
Qed.

(** The block for a tcp host without verified client certificates. *)
Lemma deterrent_tcp_ok cfg tc pa addr :
  authEnabled tc = false -> checkTLSAuthOK E cfg = true ->
  deterrent E cfg tc pa "tcp" addr =
    ([LWarn pa msgInsecure; LWarn pa msgBrowser; LWarn pa msgDeprecation;
      LSleep Second], None).
Proof.
  intros Ha Hc. unfold deterrent. rewrite Ha, Hc. reflexivity.
Qed.

Lemma deterrent_tcp_split cfg tc pa addr ip port :
  authEnabled tc = false -> checkTLSAuthOK E cfg = false ->
  SplitHostPort E addr = ((ip, port), None) ->
  deterrent E cfg tc pa "tcp" addr =
    ([LWarn pa msgInsecure; LWarn pa msgBrowser; LWarn pa msgDeprecation;
      LSleep Second] ++ nonLoopbackDelay E pa ip, None).
Proof.
  intros Ha Hc Hs. unfold deterrent. rewrite Ha, Hc, Hs. reflexivity.
Qed.

Lemma nonLoopbackDelay_slow pa ip :
  ip <> "localhost" ->
  match ParseIP E ip with
  | Some a => IsLoopback E a = false
  | None => match fst (ResolveIPAddr E ip) with
            | Some a => IsLoopback E a = false
            | None => True
            end
  end ->
  slept (nonLoopbackDelay E pa ip) = 15 * Second /\
  warnings (nonLoopbackDelay E pa ip) = 4%nat.
Proof.
  intros Hl Hn. unfold nonLoopbackDelay.
  destruct (decide (ip = "localhost")); [contradiction|].
  destruct (ParseIP E ip) as [a|].
  - rewrite Hn. simpl. split; [lia|reflexivity].
  - destruct (ResolveIPAddr E ip) as [[a|] [err|]]; simpl in Hn;
      rewrite ?Hn; simpl; split; solve [lia|reflexivity].
Qed.

Lemma nonLoopbackDelay_loopback pa ip :
  ip = "localhost" \/
  (exists a, (ParseIP E ip = Some a \/
              (ParseIP E ip = None /\ fst (ResolveIPAddr E ip) = Some a)) /\
             IsLoopback E a = true) ->
  slept (nonLoopbackDelay E pa ip) = 0 /\
  warnings (nonLoopbackDelay E pa ip) = 0%nat.
Proof.
  intros H. unfold nonLoopbackDelay.
  destruct (decide (ip = "localhost")); [split; reflexivity|].
  destruct H as [?|(a & Ha & Hloop)]; [contradiction|].
  destruct Ha as [-> | [-> Hr]].
  - rewrite Hloop. split; reflexivity.
  - destruct (ResolveIPAddr E ip) as [ipA [err|]]; simpl in Hr; subst ipA;
      rewrite Hloop; split; reflexivity.
Qed.

End DeterrentFacts.

(** C5.  With client-certificate verification enabled, listener
    resolution never sleeps and logs no warning, whatever the hosts and
    whatever its outcome.  Without it, every successful resolution of a
    list that holds a tcp host has slept at least one second and logged
    at least three warnings, and at least sixteen seconds when the TLS
    posture is not an accepted opt-out ([checkTLSAuthOK] false) and the
    host part of that address is not loopback.  For a single tcp host
    whose address splits into host and port, whose port can be reserved
    and which can be bound, resolution succeeds and the delay is exactly
    one second, or sixteen in the latter case. *)
Theorem C5_deterrent_delay (E : HostEnv) (cfg : Config) (tc : option tlsConfig) :
  (authEnabled tc = true ->
   forall r tr, loadListeners E cfg tc = (r, tr) ->
     slept tr = 0%Z /\ warnings tr = 0) /\
  (authEnabled tc = false ->
   forall h addr lss hosts tr,
     h ∈ Hosts cfg -> Cut h "://" = ("tcp", addr, true) ->
     loadListeners E cfg tc = (inl (lss, hosts), tr) ->
     (Second <= slept tr)%Z /\ 3 <= warnings tr /\
     (checkTLSAuthOK E cfg = false ->
      forall ip port,
        SplitHostPort E addr = ((ip, port), None) ->
        ip <> "localhost" ->
        match ParseIP E ip with
        | Some a => IsLoopback E a = false
        | None => match fst (ResolveIPAddr E ip) with
                  | Some a => IsLoopback E a = false
                  | None => True
                  end
        end ->
        (16 * Second <= slept tr)%Z /\ 7 <= warnings tr)) /\
  (authEnabled tc = false ->
   forall h addr ls,
     Hosts cfg = [h] -> Cut h "://" = ("tcp", addr, true) ->
     allocateDaemonPort E addr = None ->
     listenersInit E "tcp" addr (SocketGroup cfg) tc = (ls, None) ->
     (checkTLSAuthOK E cfg = true ->
      exists tr, loadListeners E cfg tc = (inl (ls, [addr]), tr) /\
                 slept tr = Second /\ warnings tr = 3) /\
     (checkTLSAuthOK E cfg = false ->
      forall ip port,
        SplitHostPort E addr = ((ip, port), None) ->
        exists tr, loadListeners E cfg tc = (inl (ls, [addr]), tr) /\
          (ip <> "localhost" ->
           match ParseIP E ip with
           | Some a => IsLoopback E a = false
           | None => match fst (ResolveIPAddr E ip) with
                     | Some a => IsLoopback E a = false
                     | None => True
                     end
           end ->
           slept tr = (16 * Second)%Z /\ warnings tr = 7) /\
          (ip = "localhost" \/
           (exists a, (ParseIP E ip = Some a \/
                       (ParseIP E ip = None /\ fst (ResolveIPAddr E ip) = Some a)) /\
                      IsLoopback E a = true) ->
           slept tr = Second /\ warnings tr = 3))).
Proof.
  split; [|split].
  - intros Ha r tr. unfold loadListeners.
    destruct (Nat.eqb _ _).
    + intros H. injection H as <- <-. split; reflexivity.
    + intros H. apply (listenLoop_auth E) in H; [|assumption]. exact H.
  - intros Ha h addr lss hosts tr Hin Hcut. unfold loadListeners.
    destruct (Nat.eqb _ _); [discriminate|]. intros H.
    apply (listenLoop_cost E) in H as [Hs Hw]. simpl in Hs, Hw.
    pose proof (sum_delay_member E cfg tc h (Hosts cfg) Hin) as Hd.
    pose proof (sum_warnings_member E cfg tc h (Hosts cfg) Hin) as Hn.
    unfold hostDelay in Hd at 1. unfold hostWarnings in Hn at 1.
    rewrite Hcut in Hd, Hn.
    destruct (checkTLSAuthOK E cfg) eqn:Hc.
    + rewrite (deterrent_tcp_ok E cfg tc h addr Ha Hc) in Hd, Hn.
      simpl in Hd, Hn. split; [lia|]. split; [lia|]. discriminate.
    + assert (Hbase : (Second <= slept (fst (deterrent E cfg tc h "tcp" addr)))%Z /\
                      3 <= warnings (fst (deterrent E cfg tc h "tcp" addr))).
      { destruct (SplitHostPort E addr) as [[ip port] [err|]] eqn:Hsp.
        - unfold deterrent. rewrite Ha, Hc, Hsp. simpl. unfold Second. split; lia.
        - rewrite (deterrent_tcp_split E cfg tc h addr ip port Ha Hc Hsp).
          cbn [fst]. rewrite slept_app, warnings_app.
          destruct (nonLoopbackDelay_slept E h ip) as [-> | ->]; simpl;
            unfold Second; split; lia. }
      destruct Hbase as [Hb1 Hb2].
      split; [lia|]. split; [lia|].
      intros _ ip port Hsplit Hl Hnl.
      rewrite (deterrent_tcp_split E cfg tc h addr ip port Ha Hc Hsplit) in Hd, Hn.
      cbn [fst] in Hd, Hn. rewrite slept_app in Hd. rewrite warnings_app in Hn.
      destruct (nonLoopbackDelay_slow E h ip Hl Hnl) as [Hs15 Hw4].
      rewrite Hs15 in Hd. rewrite Hw4 in Hn. simpl in Hd, Hn.
      unfold Second in *. split; lia.
  - intros Ha h addr ls Hh Hcut Halloc Hinit. split.
    + intros Hc. unfold loadListeners. rewrite Hh. simpl.
      rewrite Hcut. simpl.
      rewrite (deterrent_tcp_ok E cfg tc h addr Ha Hc), Halloc, Hinit.
      eexists. split; [reflexivity|]. split; reflexivity.
    + intros Hc ip port Hsplit. unfold loadListeners. rewrite Hh. simpl.
      rewrite Hcut. simpl.
      rewrite (deterrent_tcp_split E cfg tc h addr ip port Ha Hc Hsplit),
        Halloc, Hinit.
      eexists. split; [reflexivity|]. split.
      * intros Hl Hnl. destruct (nonLoopbackDelay_slow E h ip Hl Hnl) as [Hs15 Hw4].
        rewrite !slept_app, !warnings_app, Hs15, Hw4. simpl.
        unfold Second. split; lia.
      * intros Hloop.
        destruct (nonLoopbackDelay_loopback E h ip Hloop) as [Hs0 Hw0].
        rewrite !slept_app, !warnings_app, Hs0, Hw0. simpl. split; lia.
Qed.

Lemma C5_deterrent_delay_witness :
  exists tr,
    loadListeners exampleHostEnv (exampleConfig ["tcp://0.0.0.0:2375"] None None) None
      = (inl ([mkListener "0.0.0.0:2375" 3], ["0.0.0.0:2375"]), tr) /\
    slept tr = (16 * Second)%Z /\ warnings tr = 7.
Proof.
  destruct (C5_deterrent_delay exampleHostEnv
              (exampleConfig ["tcp://0.0.0.0:2375"] None None) None)
    as (_ & _ & H).
  destruct (H eq_refl "tcp://0.0.0.0:2375" "0.0.0.0:2375"
              [mkListener "0.0.0.0:2375" 3] eq_refl eq_refl eq_refl eq_refl)
    as [_ H2].
  destruct (H2 eq_refl "0.0.0.0" "2375" eq_refl) as (tr & Hl & Hslow & _).
  exists tr. split; [exact Hl|]. apply Hslow.
  - discriminate.
  - reflexivity.
Defined.

(** ** The TLS settings of the loaded configuration *)

Section LoadConfigFacts.
Context (E : CliEnv).

Lemma normalizeHosts_frame H cfg cfg' err :
  normalizeHosts H cfg = (cfg', err) ->
  TLS cfg' = TLS cfg /\ TLSVerify cfg' = TLSVerify cfg /\
  ValuesSet cfg' = ValuesSet cfg.
Proof.
  unfold normalizeHosts.
  destruct (Nat.eqb (length (Hosts cfg)) 0);
    match goal with
    | |- context [normalizeLoop ?a ?b ?c ?d ?e] => destruct (normalizeLoop a b c d e)
    end;
    intros Heq; injection Heq as <- <-; auto.
Qed.

Lemma cdiSpecDirs_frame conf :
  TLS (cdiSpecDirs E conf) = TLS conf /\
  TLSVerify (cdiSpecDirs E conf) = TLSVerify conf /\
  ValuesSet (cdiSpecDirs E conf) = ValuesSet conf.
Proof.
  unfold cdiSpecDirs.
  destruct (CDISpecDirs conf) as [[|d [|d' l]]|]; simpl;
    try destruct (decide (d = "")); simpl;
    match goal with
    | |- context [Features ?c !! "cdi"] => destruct (Features c !! "cdi") as [[|]|]
    end; auto.
Qed.

(** Lines 635-644. *)
Lemma forceTLS_spec conf :
  TLS (forceTLS conf) =
    (if IsValueSet conf FlagTLSVerify then Some true else TLS conf) /\
  TLSVerify (forceTLS conf) =
    match TLSVerify conf with
    | Some v => Some v
    | None => TLS (forceTLS conf)
    end /\
  ValuesSet (forceTLS conf) = ValuesSet conf.
Proof.
  unfold forceTLS.
  destruct (IsValueSet conf FlagTLSVerify) eqn:Hset; simpl;
    destruct (TLSVerify conf) as [v|] eqn:Hv; simpl;
    try destruct (TLS conf) as [b|] eqn:Ht; simpl;
    rewrite ?Hv, ?Ht; auto.
Qed.

(** Lines 577-584. *)
Lemma applyTLSFlags_spec opts conf :
  (Changed (flags opts) FlagTLSVerify = true ->
   TLS (applyTLSFlags opts conf) = Some true /\
   TLSVerify (applyTLSFlags opts conf) = Some (oTLSVerify opts)) /\
  (Changed (flags opts) FlagTLSVerify = false ->
   TLSVerify (applyTLSFlags opts conf) = TLSVerify conf /\
   TLS (applyTLSFlags opts conf) =
     if Changed (flags opts) FlagTLS then Some (oTLS opts) else TLS conf).
Proof.
  unfold applyTLSFlags.
  destruct (Changed (flags opts) FlagTLSVerify), (Changed (flags opts) FlagTLS);
    simpl; split; intros; try discriminate; auto.
Qed.

Lemma flagsConfig_spec opts c0 :
  flagsConfig E opts = inl c0 ->
  (Changed (flags opts) FlagTLSVerify = true ->
   TLS c0 = Some true /\ TLSVerify c0 = Some (oTLSVerify opts)) /\
  (Changed (flags opts) FlagTLSVerify = false ->
   TLSVerify c0 = TLSVerify (daemonConfig opts) /\
   TLS c0 = if Changed (flags opts) FlagTLS then Some (oTLS opts)
            else TLS (daemonConfig opts)).
Proof.
  unfold flagsConfig.
  destruct (decide (envMinAPIVersion E = "")).
  - intros H. injection H as <-. simpl.
    match goal with
    | |- context [applyTLSFlags opts ?c] =>
        pose proof (applyTLSFlags_spec opts c) as Hs
    end.
    simpl in Hs. exact Hs.
  - destruct (ValidateMinAPIVersion E (envMinAPIVersion E)); [discriminate|].
    intros H. injection H as <-. simpl.
    match goal with
    | |- context [applyTLSFlags opts ?c] =>
        pose proof (applyTLSFlags_spec opts c) as Hs
    end.
    simpl in Hs. exact Hs.
Qed.

Lemma mergeFile_spec opts c0 c1 :
  mergeFile E opts c0 = inl c1 ->
  c1 = c0 \/
  exists file err, MergeDaemonConfigurations E c0 (flags opts) file = (Some c1, err).
Proof.
  unfold mergeFile.
  match goal with |- context [decide (?f = "")] => generalize f end.
  intros file. destruct (decide (file = "")).
  - intros H. injection H as <-. now left.
  - destruct (MergeDaemonConfigurations E c0 (flags opts) file) as [c err] eqn:Hm.
    match goal with |- context [if ?b then _ else _] => destruct b end;
      [discriminate|].
    intros H. injection H as <-. destruct c as [c|]; simpl; [|now left].
    right. exists file, err. exact Hm.
Qed.

Lemma finishConfig_spec c1 conf :
  finishConfig E c1 = inl conf ->
  TLS conf = (if IsValueSet c1 FlagTLSVerify then Some true else TLS c1) /\
  TLSVerify conf = match TLSVerify c1 with
                   | Some v => Some v
                   | None => TLS conf
                   end /\
  ValuesSet conf = ValuesSet c1.
Proof.
  unfold finishConfig.
  destruct (normalizeHosts (cliHostEnv E) c1) as [cn [err|]] eqn:Hn; [discriminate|].
  apply normalizeHosts_frame in Hn as (Ht & Hv & Hs).
  destruct (Validate E cn); [discriminate|].
  destruct (GetConflictFreeLabels E (Labels cn)) as [labels [err|]]; [discriminate|].
  destruct (validateCPURealtimeOptions E _); [discriminate|].
  destruct (setPlatformOptions E _); [discriminate|].
  intros H. injection H as <-.
  destruct (cdiSpecDirs_frame (forceTLS (set_Labels labels cn))) as (-> & -> & ->).
  destruct (forceTLS_spec (set_Labels labels cn)) as (-> & -> & ->).
  unfold IsValueSet. simpl. rewrite Ht, Hv, Hs. auto.
Qed.

End LoadConfigFacts.

(** An environment for the examples: no configuration file is found,
    every validation passes. *)
Definition exampleCliEnv : CliEnv :=
  {| setDefaultOptions := fun o => o;
     envMinAPIVersion := "";
     ValidateMinAPIVersion := fun _ => None;
     goosWindows := false;
     MergeDaemonConfigurations := fun _ _ _ => (None, Some (ErrExt "no such file"));
     IsNotExist := fun _ => true;
     Validate := fun _ => None;
     GetConflictFreeLabels := fun l => (l, None);
     validateCPURealtimeOptions := fun _ => None;
     DefaultSpecDirs := ["/etc/cdi"; "/var/run/cdi"];
     setPlatformOptions := fun _ => None;
     cliHostEnv := exampleHostEnv |}.

(** [dockerd --tlsverify=false -H tcp://127.0.0.1:2376]. *)
Definition exampleOptions : daemonOptions :=
  {| flags := mkFlagSet true {[ "tlsverify"; "host" ]};
     configFile := "/etc/docker/daemon.json";
     daemonConfig := exampleConfig [] None None;
     oDebug := false;
     oHosts := ["tcp://127.0.0.1:2376"];
     oLogLevel := "info";
     oLogFormat := "text";
     oTLS := false;
     oTLSVerify := false;
     oTLSOptions := None |}.

(** C9.  In every configuration [loadDaemonCliConfig] accepts: when
    [tlsverify] is recorded as set, whatever its value, [TLS] is true;
    when [TLS] is non-nil so is [TLSVerify], which takes the value of
    [TLS] when nothing had set it.  A [--tlsverify] flag, whatever its
    value, sets [TLS] to true in the configuration built from the
    flags, and the accepted configuration keeps this whenever the
    configuration that leaves the merge with the configuration file
    has it (in particular when no file is merged).  Hence verification
    is required without TLS only if that configuration already said
    so without recording [tlsverify] as set. *)
Theorem C9_tls_policy_consistent (E : CliEnv) (opts : daemonOptions) (conf : Config) :
  loadDaemonCliConfig E opts = inl conf ->
  (IsValueSet conf FlagTLSVerify = true -> TLS conf = Some true) /\
  (TLS conf <> None -> TLSVerify conf <> None) /\
  exists c0 c1,
    flagsConfig E (setDefaultOptions E opts) = inl c0 /\
    mergeFile E (setDefaultOptions E opts) c0 = inl c1 /\
    (c1 = c0 \/
     exists file err,
       MergeDaemonConfigurations E c0 (flags (setDefaultOptions E opts)) file
       = (Some c1, err)) /\
    (Changed (flags (setDefaultOptions E opts)) FlagTLSVerify = true ->
     TLS c0 = Some true /\
     TLSVerify c0 = Some (oTLSVerify (setDefaultOptions E opts))) /\
    (TLS c1 = Some true \/ IsValueSet c1 FlagTLSVerify = true ->
     TLS conf = Some true) /\
    (Changed (flags (setDefaultOptions E opts)) FlagTLSVerify = true -> c1 = c0 ->
     TLS conf = Some true /\
     TLSVerify conf = Some (oTLSVerify (setDefaultOptions E opts))) /\
    TLSVerify conf = match TLSVerify c1 with
                     | Some v => Some v
                     | None => TLS conf
                     end /\
    (TLSVerify conf = Some true ->
     TLS conf = Some true \/
     (TLSVerify c1 = Some true /\ TLS c1 <> Some true /\
      IsValueSet c1 FlagTLSVerify = false)).
Proof.
  unfold loadDaemonCliConfig.
  destruct (negb (Parsed (flags opts))); [discriminate|].
  destruct (flagsConfig E (setDefaultOptions E opts)) as [c0|err] eqn:Hf;
    [|discriminate].
  destruct (mergeFile E (setDefaultOptions E opts) c0) as [c1|err] eqn:Hm;
    [|discriminate].
  intros Hfin.
  destruct (finishConfig_spec E c1 conf Hfin) as (Ht & Hv & Hs).
  destruct (flagsConfig_spec E _ c0 Hf) as [Hflag _].
  assert (Hset : IsValueSet conf FlagTLSVerify = IsValueSet c1 FlagTLSVerify)
    by (unfold IsValueSet; now rewrite Hs).
  split; [|split].
  - rewrite Hset, Ht. now intros ->.
  - rewrite Hv. destruct (TLSVerify c1); [discriminate|auto].
  - exists c0, c1. split; [first [exact Hf|reflexivity]|]. split; [exact Hm|].
    split; [now apply mergeFile_spec|].
    split; [exact Hflag|].
    split.
    { rewrite Ht. intros [H1| ->]; [|reflexivity].
      rewrite H1. now destruct (IsValueSet c1 FlagTLSVerify). }
    split.
    { intros Hc ->. destruct (Hflag Hc) as [H1 H2].
      rewrite Hv, H2, Ht, H1. now destruct (IsValueSet c0 FlagTLSVerify). }
    split; [exact Hv|].
    rewrite Hv, Ht.
    destruct (IsValueSet c1 FlagTLSVerify); [now left|].
    destruct (TLSVerify c1) as [v|]; [|now left].
    intros Hv1. injection Hv1 as ->.
    destruct (TLS c1) as [[|]|]; [now left|right..]; repeat split; congruence.
Qed.

Lemma C9_tls_policy_consistent_witness :
  exists conf,
    loadDaemonCliConfig exampleCliEnv exampleOptions = inl conf /\
    TLS conf = Some true /\ TLSVerify conf = Some false.
Proof.
  destruct (loadDaemonCliConfig exampleCliEnv exampleOptions) as [conf|err] eqn:H;
    [|vm_compute in H; discriminate].
  exists conf. split; [reflexivity|].
  destruct (C9_tls_policy_consistent exampleCliEnv exampleOptions conf H)
    as (_ & _ & c0 & c1 & Hf & Hm & _ & _ & _ & Hkeep & _).
  apply Hkeep; [reflexivity|].
  vm_compute in Hf. injection Hf as <-.
  vm_compute in Hm. injection Hm as <-. reflexivity.
Defined.

(** ** Configuration reload *)

Section ReloadFacts.
Import Reload.
Context (E : ReloadEnv).

Lemma toggleDebug_spec cfg st :
  liveConfig (toggleDebug cfg st) = liveConfig st /\
  authzPlugins (toggleDebug cfg st) = authzPlugins st /\
  debugEnabled (toggleDebug cfg st) =
    if IsValueSet cfg "debug" then Debug cfg else debugEnabled st.
Proof.
  unfold toggleDebug.
  destruct (IsValueSet cfg "debug"), (debugEnabled st) eqn:Hd, (Debug cfg);
    simpl; rewrite ?Hd; auto.
Qed.

(** The four ways a reload can go. *)
Lemma reloadConfig_cases st :
  match reparse E with
  | inr err =>
      reloadConfig E st =
        mkRun st [Info "Got signal to reload configuration";
                  Error "Error reloading configuration" err] false
  | inl cfg =>
      match validateAuthzPlugins (AuthorizationPlugins cfg) (pluginGet E) with
      | Some err =>
          reloadConfig E st =
            mkRun st [Info "Got signal to reload configuration";
                      Fatal "Error validating authorization plugin" err] true
      | None =>
          match coreReload E (liveConfig st) cfg with
          | inr err =>
              state (reloadConfig E st) = st /\
              exited (reloadConfig E st) = false /\
              In (Error "Error reconfiguring the daemon" err)
                 (log (reloadConfig E st))
          | inl live =>
              state (reloadConfig E st) =
                mkState live (AuthorizationPlugins cfg)
                  (if IsValueSet cfg "debug" then Debug cfg else debugEnabled st) /\
              exited (reloadConfig E st) = false /\
              In (Info "Reloaded configuration") (log (reloadConfig E st))
          end
      end
  end.
Proof.
  unfold reloadConfig, configReload, reload, daemonReload.
  destruct (reparse E) as [cfg|err]; [|reflexivity].
  destruct (validateAuthzPlugins _ _) as [err|]; [reflexivity|].
  cbn -[toggleDebug].
  destruct (coreReload E (liveConfig st) cfg) as [live|err]; cbn -[toggleDebug].
  - match goal with
    | |- context [toggleDebug cfg ?s] =>
        destruct (toggleDebug_spec cfg s) as (H1 & H2 & H3);
        destruct (toggleDebug cfg s) as [l a d] eqn:Ht
    end.
    simpl in *. subst.
    destruct (marshal E live); simpl; repeat split; auto.
  - destruct (marshal E (liveConfig st)); simpl; repeat split; auto.
Qed.

End ReloadFacts.

(** C4, as amended.  A reload whose re-validation of the configuration
    fails, or whose daemon core refuses the new configuration, logs the
    error, leaves the core configuration, the cached authorization
    plugins and the debug switch as they were, and the process goes on.
    A reload whose authorization plugins do not validate logs at the
    Fatal level, which ends the process, the state being untouched up
    to then.  The cached plugin list and the debug switch change only
    when the core reload succeeded, and then to the values of the new
    configuration. *)
Theorem C4_reload_all_or_nothing (E : Reload.ReloadEnv) (st : Reload.State) :
  (forall err, Reload.reparse E = inr err ->
     Reload.state (Reload.reloadConfig E st) = st /\
     Reload.exited (Reload.reloadConfig E st) = false /\
     In (Reload.Error "Error reloading configuration" err)
        (Reload.log (Reload.reloadConfig E st))) /\
  (forall cfg err, Reload.reparse E = inl cfg ->
     Reload.validateAuthzPlugins (AuthorizationPlugins cfg) (Reload.pluginGet E)
       = Some err ->
     Reload.state (Reload.reloadConfig E st) = st /\
     Reload.exited (Reload.reloadConfig E st) = true /\
     In (Reload.Fatal "Error validating authorization plugin" err)
        (Reload.log (Reload.reloadConfig E st))) /\
  (forall cfg err, Reload.reparse E = inl cfg ->
     Reload.validateAuthzPlugins (AuthorizationPlugins cfg) (Reload.pluginGet E)
       = None ->
     Reload.coreReload E (Reload.liveConfig st) cfg = inr err ->
     Reload.state (Reload.reloadConfig E st) = st /\
     Reload.exited (Reload.reloadConfig E st) = false /\
     In (Reload.Error "Error reconfiguring the daemon" err)
        (Reload.log (Reload.reloadConfig E st))) /\
  (forall cfg live, Reload.reparse E = inl cfg ->
     Reload.validateAuthzPlugins (AuthorizationPlugins cfg) (Reload.pluginGet E)
       = None ->
     Reload.coreReload E (Reload.liveConfig st) cfg = inl live ->
     Reload.state (Reload.reloadConfig E st) =
       Reload.mkState live (AuthorizationPlugins cfg)
         (if IsValueSet cfg "debug" then Debug cfg else Reload.debugEnabled st) /\
     Reload.exited (Reload.reloadConfig E st) = false) /\
  (Reload.state (Reload.reloadConfig E st) <> st ->
   exists cfg live,
     Reload.reparse E = inl cfg /\
     Reload.validateAuthzPlugins (AuthorizationPlugins cfg) (Reload.pluginGet E)
       = None /\
     Reload.coreReload E (Reload.liveConfig st) cfg = inl live) /\
  (Reload.exited (Reload.reloadConfig E st) = true <->
   exists cfg err,
     Reload.reparse E = inl cfg /\
     Reload.validateAuthzPlugins (AuthorizationPlugins cfg) (Reload.pluginGet E)
       = Some err).
Proof.
  pose proof (reloadConfig_cases E st) as H.
  split; [|split; [|split; [|split; [|split]]]].
  - intros err Hp. rewrite Hp in H. rewrite H. simpl. auto.
  - intros cfg err Hp Hv. rewrite Hp, Hv in H. rewrite H. simpl. auto.
  - intros cfg err Hp Hv Hc. rewrite Hp, Hv, Hc in H. exact H.
  - intros cfg live Hp Hv Hc. rewrite Hp, Hv, Hc in H.
    destruct H as (Hs & He & _). auto.
  - intros Hne.
    destruct (Reload.reparse E) as [cfg|err0] eqn:Hp;
      [|rewrite H in Hne; contradiction].
    destruct (Reload.validateAuthzPlugins _ _) as [err1|] eqn:Hv;
      [rewrite H in Hne; contradiction|].
    destruct (Reload.coreReload E (Reload.liveConfig st) cfg) as [live|err2] eqn:Hc.
    + exists cfg, live. auto.
    + destruct H as (Hs & _). contradiction.
  - destruct (Reload.reparse E) as [cfg|err0] eqn:Hp.
    + destruct (Reload.validateAuthzPlugins _ _) as [err1|] eqn:Hv.
      * rewrite H. simpl. split; [intros _; eauto|reflexivity].
      * assert (He : Reload.exited (Reload.reloadConfig E st) = false).
        { destruct (Reload.coreReload E (Reload.liveConfig st) cfg);
            destruct H as (_ & He & _); exact He. }
        rewrite He. split; [discriminate|].
        intros (cfg' & err & Hcfg & Hv'). injection Hcfg as <-. congruence.
    + rewrite H. simpl. split; [discriminate|].
      intros (cfg' & err & Hcfg & _). discriminate.
Qed.

(** A reload in which the configuration asks for an authorization
    plugin that the plugin store does not know. *)
Definition exampleReloadEnv : Reload.ReloadEnv :=
  {| Reload.reparse :=
       inl (mkConfig ["unix:///var/run/docker.sock"] None None
              (mkTLSOptions "" "" "") true "debug" "text" "" [] {[ "debug" ]}
              None ∅ "docker" ["authz-broker"] "/var/run/docker.pid"
              "/var/lib/docker" "/var/run/docker" false false "");
     Reload.pluginGet := fun _ => Some (ErrExt "plugin not found");
     Reload.coreReload := fun _ new => inl new;
     Reload.marshal := fun _ => inl "{}" |}.

Definition exampleReloadState : Reload.State :=
  Reload.mkState (exampleConfig ["unix:///var/run/docker.sock"] None None) [] false.

(** The claim as first stated fails: this reload ends the process. *)
Lemma C4_counterexample :
  Reload.exited (Reload.reloadConfig exampleReloadEnv exampleReloadState) = true /\
  Reload.log (Reload.reloadConfig exampleReloadEnv exampleReloadState) =
    [Reload.Info "Got signal to reload configuration";
     Reload.Fatal "Error validating authorization plugin" (ErrExt "plugin not found")].
Proof. split; reflexivity. Qed.

Lemma C4_reload_all_or_nothing_witness :
  Reload.state (Reload.reloadConfig exampleReloadEnv exampleReloadState)
    = exampleReloadState /\
  Reload.exited (Reload.reloadConfig exampleReloadEnv exampleReloadState) = true.
Proof.
  destruct (C4_reload_all_or_nothing exampleReloadEnv exampleReloadState)
    as (_ & H & _).
  destruct (H _ (ErrExt "plugin not found") eq_refl eq_refl) as (Hs & He & _).
  split; [exact Hs|exact He].
Defined.

(** ** The bounded shutdown of the daemon core *)

Section ShutdownFacts.
Import Ctx Shutdown.
Local Open Scope Z_scope.



Lemma earlier_cases a b :
  earlier a b = a \/ earlier a b = b.
Proof.
  destruct a as [[ta ea]|], b as [[tb eb]|]; simpl; auto.
  destruct (ta <=? tb); auto.
Qed.

Lemma earlier_le_l a t e b :
  a = Some (t, e) -> exists t' e', earlier a b = Some (t', e') /\ t' <= t.
Proof.
  intros ->. destruct b as [[tb eb]|]; simpl.
  - destruct (t <=? tb) eqn:Hle.
    + exists t, e. split; [reflexivity|lia].
    + exists tb, eb. split; [reflexivity|]. apply Z.leb_gt in Hle. lia.
  - exists t, e. split; [reflexivity|lia].
Qed.

Lemma earlier_le_r a t e b :
  b = Some (t, e) -> exists t' e', earlier a b = Some (t', e') /\ t' <= t.
Proof.
  intros ->. destruct a as [[ta ea]|]; simpl.
  - destruct (ta <=? t) eqn:Hle.
    + exists ta, ea. split; [reflexivity|]. apply Z.leb_le in Hle. lia.
    + exists t, e. split; [reflexivity|lia].
  - exists t, e. split; [reflexivity|lia].
Qed.

(** A context is done by its deadline. *)
Lemma doneAt_by_deadline s c dl :
  Deadline c = Some dl -> exists t e, doneAt s c = Some (t, e) /\ t <= dl.
Proof.
  induction c as [|p IH id|p IH id d|p IH]; simpl; intros H; try discriminate.
  - destruct (IH H) as (t & e & Hd & Hle).
    destruct (earlier_le_l _ t e (option_map (fun t0 => (t0, Canceled)) (s id)) Hd)
      as (t' & e' & He & Hle').
    exists t', e'. split; [exact He|lia].
  - injection H as ->.
    destruct (earlier_le_r (doneAt s p) dl DeadlineExceeded _ eq_refl)
      as (t1 & e1 & He1 & Hle1).
    destruct (earlier_le_l _ t1 e1 (option_map (fun t0 => (t0, Canceled)) (s id)) He1)
      as (t' & e' & He & Hle').
    exists t', e'. split; [exact He|lia].
Qed.

(** Contexts end with one of the two context errors. *)
Lemma doneAt_err s c t e :
  doneAt s c = Some (t, e) -> e = Canceled \/ e = DeadlineExceeded.
Proof.
  revert t e. induction c as [|p IH id|p IH id d|p IH]; simpl; intros t e H;
    try discriminate.
  - destruct (earlier_cases (doneAt s p)
                (option_map (fun t0 => (t0, Canceled)) (s id))) as [Hc|Hc];
      rewrite Hc in H; [eauto|].
    destruct (s id); simpl in H; [|discriminate]. injection H as _ <-. auto.
  - destruct (earlier_cases (earlier (doneAt s p) (Some (d, DeadlineExceeded)))
                (option_map (fun t0 => (t0, Canceled)) (s id))) as [Hc|Hc];
      rewrite Hc in H.
    + destruct (earlier_cases (doneAt s p) (Some (d, DeadlineExceeded))) as [Hc'|Hc'];
        rewrite Hc' in H; [eauto|]. injection H as _ <-. auto.
    + destruct (s id); simpl in H; [|discriminate]. injection H as _ <-. auto.
Qed.

Lemma boundingContext_deadline now parent id d :
  0 <= ShutdownTimeout d ->
  exists dl,
    Deadline (boundingContext now parent id d) = Some dl /\
    dl <= now + timeoutDuration (ShutdownTimeout d) /\
    (Deadline parent = None -> dl = now + timeoutDuration (ShutdownTimeout d)).
Proof.
  intros H. unfold boundingContext, WithTimeout, WithDeadline.
  destruct (0 <=? ShutdownTimeout d) eqn:Hle; [|apply Z.leb_gt in Hle; lia].
  destruct (Deadline parent) as [cur|] eqn:Hd.
  - destruct (cur <? now + timeoutDuration (ShutdownTimeout d)) eqn:Hlt; simpl.
    + exists cur. rewrite Hd. apply Z.ltb_lt in Hlt.
      split; [reflexivity|]. split; [lia|discriminate].
    + eexists. split; [reflexivity|]. split; [lia|discriminate].
  - simpl. eexists. split; [reflexivity|]. split; [lia|reflexivity].
Qed.

End ShutdownFacts.




(** ** The orchestrator *)

Import Ctx Start.

Section StartFacts.
Context (E : StartEnv).

(** A computation of [start] is a writer: whatever the frame it starts
    from, it ends the same way, appends the same events and pushes the
    same deferred calls. *)
Definition Runs {A} (m : M A) (r : Flow A) (evs : list Event)
    (ds : list Deferred) : Prop :=
  forall f, m f = (r, mkFrame (trace f ++ evs) (ds ++ deferred f)).

Lemma Runs_pure {A} (a : A) : Runs (pure a) (Next a) [] [].
Proof. intros f. unfold pure. rewrite app_nil_r. now destruct f. Qed.

Lemma Runs_emit ev : Runs (emit ev) (Next tt) [ev] [].
Proof. intros f. reflexivity. Qed.

Lemma Runs_defer d : Runs (defer d) (Next tt) [] [d].
Proof. intros f. unfold defer. now rewrite app_nil_r. Qed.

Lemma Runs_return {A} e : Runs (@return_ A e) (Return e) [] [].
Proof. intros f. unfold return_. rewrite app_nil_r. now destruct f. Qed.

Lemma Runs_bind_next {A B} (m : M A) (k : A -> M B) a r evs ds evs' ds' :
  Runs m (Next a) evs ds -> Runs (k a) r evs' ds' ->
  Runs (bind m k) r (evs ++ evs') (ds' ++ ds).
Proof.
  intros Hm Hk f. unfold bind. rewrite Hm, Hk. simpl.
  now rewrite !app_assoc.
Qed.

Lemma Runs_bind_return {A B} (m : M A) (k : A -> M B) e evs ds :
  Runs m (Return e) evs ds -> Runs (bind m k) (Return e) evs ds.
Proof. intros Hm f. unfold bind. now rewrite Hm. Qed.

Lemma Runs_check_none err w : err = None -> Runs (check err w) (Next tt) [] [].
Proof. intros ->. apply Runs_pure. Qed.

Lemma Runs_check_some err w e :
  err = Some e -> Runs (check err w) (Return (Some (w e))) [] [].
Proof. intros ->. apply Runs_return. Qed.

Lemma Runs_when_true b m r evs ds :
  b = true -> Runs m r evs ds -> Runs (when b m) r evs ds.
Proof. now intros ->. Qed.

Lemma Runs_when_false b m : b = false -> Runs (when b m) (Next tt) [] [].
Proof. intros ->. apply Runs_pure. Qed.

(** A block that cannot return, under a test whose outcome is left
    open. *)
Lemma Runs_when_open b m evs ds :
  (b = true -> Runs m (Next tt) evs ds) ->
  Runs (when b m) (Next tt) (if b then evs else []) (if b then ds else []).
Proof.
  destruct b; [intros H; now apply H|intros _; apply Runs_pure].
Qed.

Lemma start_of_Runs cfg tc ctx0 err evs ds :
  Runs (body E cfg tc ctx0) (Return err) evs ds ->
  start E cfg tc ctx0 = (err, evs ++ concat (map (runDeferred E cfg) ds)).
Proof.
  intros H. unfold start. rewrite H. simpl. now rewrite app_nil_r.
Qed.

Lemma collect_trace order : forall errAPI tr,
  collect E order errAPI tr =
    (fst (collect E order errAPI []), tr ++ snd (collect E order errAPI [])).
Proof.
  induction order as [|ls rest IH]; intros errAPI tr; simpl.
  - now rewrite app_nil_r.
  - destruct (decide (serve E ls = ErrServerClosed)); [apply IH|].
    rewrite IH. rewrite (IH _ [Log LvError "ServeAPI error"]). simpl.
    now rewrite <- app_assoc.
Qed.

Lemma Runs_serveAPI lss :
  Runs (serveAPI E lss)
    (Next (fst (collect E (finishOrder E lss) None [])))
    (map GoServe lss ++ snd (collect E (finishOrder E lss) None [])) [].
Proof.
  intros f. unfold serveAPI. rewrite collect_trace. simpl.
  now rewrite app_assoc.
Qed.

End StartFacts.

(** Symbolic execution of a computation whose tests are settled by the
    hypotheses at hand. *)
Ltac fact :=
  first
    [ eassumption
    | reflexivity
    | match goal with
      | H : ?c = false |- negb ?c = true => rewrite H; reflexivity
      end
    | match goal with
      | Hb : negb ?c = true |- _ =>
          destruct c; simpl in *; [discriminate|]; first [eassumption|congruence]
      end
    | simpl in *; congruence ].

Ltac runs :=
  lazymatch goal with
  | |- Runs (pure _) _ _ _ => apply Runs_pure
  | |- Runs (emit _) _ _ _ => apply Runs_emit
  | |- Runs (defer _) _ _ _ => apply Runs_defer
  | |- Runs (return_ _) _ _ _ => apply Runs_return
  | |- Runs (serveAPI _ _) _ _ _ => apply Runs_serveAPI
  | |- Runs (check _ _) _ _ _ =>
      first [ apply Runs_check_none; fact | eapply Runs_check_some; fact ]
  | |- Runs (when _ _) _ _ _ =>
      first [ apply Runs_when_false; fact
            | eapply Runs_when_true; [fact|runs]
            | eapply Runs_when_open; intros ?; runs ]
  | |- Runs (bind _ _) _ _ _ =>
      first [ eapply Runs_bind_return; runs
            | eapply Runs_bind_next; [runs|cbv beta; runs] ]
  | |- Runs (match ?x with Some _ => _ | None => _ end) _ _ _ =>
      match goal with H : x = _ |- _ => rewrite H end; runs
  | |- Runs (mbind _ _) _ _ _ => unfold mbind, M_bind; runs
  | |- Runs initMiddlewares _ _ _ => unfold initMiddlewares; runs
  | |- Runs (initMiddlewares _) _ _ _ => unfold initMiddlewares; runs
  | |- Runs (createAndStartCluster _) _ _ _ => unfold createAndStartCluster; runs
  | |- Runs (initBuildkit _ _) _ _ _ => unfold initBuildkit; cbv zeta; runs
  end.

Section StartSequence.
Context (E : StartEnv).

(** *** The start-up sequence

    The fallible steps of [start] in program order, and for each the
    error its collaborator returns in this environment, before [start]
    wraps it ([None]: the step succeeds or is skipped). *)
Inductive Step : Type :=
| SRootlessKit | SPrivileges | SUmask | SDaemonRoot | SExecRoot
| SPidDir | SPidWrite | SListeners | SContainerd | SPreNotify
| SMiddlewares | SDaemon | SAuthz | SMetrics | SCluster | SBuildkit.

Definition position (k : Step) : nat :=
  match k with
  | SRootlessKit => 0 | SPrivileges => 1 | SUmask => 2 | SDaemonRoot => 3
  | SExecRoot => 4 | SPidDir => 5 | SPidWrite => 6 | SListeners => 7
  | SContainerd => 8 | SPreNotify => 9 | SMiddlewares => 10 | SDaemon => 11
  | SAuthz => 12 | SMetrics => 13 | SCluster => 14 | SBuildkit => 15
  end.

Definition stepRaw (cfg : Config) (tc : option tlsConfig) (k : Step) : error :=
  match k with
  | SRootlessKit =>
      if runningWithRootlessKit E && negb (Rootless cfg)
      then Some (ErrNew "rootless mode needs to be enabled for running with RootlessKit")
      else None
  | SPrivileges =>
      if goosLinux E && negb (euid E =? 0)%Z
      then Some (ErrNew "dockerd needs to be started with root privileges. To run dockerd in rootless mode as an unprivileged user, see https://docs.docker.com/go/rootless/")
      else None
  | SUmask => setDefaultUmask E
  | SDaemonRoot => createDaemonRoot E
  | SExecRoot => mkdirExecRoot E
  | SPidDir => if bool_decide (Pidfile cfg = "") then None else mkdirPidDir E
  | SPidWrite => if bool_decide (Pidfile cfg = "") then None else pidfileWrite E
  | SListeners =>
      match fst (loadListeners (startHostEnv E) cfg tc) with
      | inr e => Some e
      | inl _ => None
      end
  | SContainerd => snd (initContainerd E)
  | SPreNotify => preNotifyReady E
  | SMiddlewares => newVersionMiddleware E
  | SDaemon => newDaemon E
  | SAuthz =>
      Reload.validateAuthzPlugins (AuthorizationPlugins cfg) (authzPluginGet E)
  | SMetrics => startMetricsServer E
  | SCluster =>
      match clusterNew E with
      | Some e => Some e
      | None => clusterStart E
      end
  | SBuildkit =>
      match sessionNewManager E, newBuildManager E, buildkitNew E with
      | Some e, _, _ => Some e
      | None, Some e, _ => Some e
      | None, None, Some e => Some e
      | None, None, None => newBackend E
      end
  end.

(** Step [k] is the first to fail. *)
Definition failsAt (cfg : Config) (tc : option tlsConfig) (k : Step) : Prop :=
  is_Some (stepRaw cfg tc k) /\
  forall j, position j < position k -> stepRaw cfg tc j = None.

(** The step an event belongs to, for the events by which a step
    acquires or constructs something. *)
Definition stepOf (ev : Event) : option Step :=
  match ev with
  | SetDefaultUmask => Some SUmask
  | CreateDaemonRoot => Some SDaemonRoot
  | PidfileWrite _ => Some SPidWrite
  | LoadListeners _ => Some SListeners
  | InitContainerd _ => Some SContainerd
  | PreNotifyReady => Some SPreNotify
  | UseMiddleware _ => Some SMiddlewares
  | NewDaemon _ => Some SDaemon
  | ValidateAuthzPlugins => Some SAuthz
  | StartMetricsServer _ => Some SMetrics
  | ClusterNew | SetCluster | ClusterStart => Some SCluster
  | SessionNewManager | NewBuildManager | BuildkitNew _ | NewBackend =>
      Some SBuildkit
  | _ => None
  end.

(** The events that release or shut down something. *)
Definition isTeardown (ev : Event) : bool :=
  match ev with
  | Remove _ | WaitContainerdShutdown _ | Cancel _ | HttpClose
  | AfterFunc _ _ | AwaitShutdownDone | TimerStop
  | ClusterCleanup | ShutdownDaemon _ | ShutdownBuildKit | OtelShutdown => true
  | _ => false
  end.

Definition isServe (ev : Event) : bool :=
  match ev with
  | GoServe _ => true
  | _ => false
  end.

(** The deferred calls registered when step [k] is reached, the latest
    first. *)
Definition registeredBefore (cfg : Config) (k : Step) : list Deferred :=
  (if Nat.ltb (position SContainerd) (position k) then [DApiShutdown; DCancel] else []) ++
  (if Nat.leb (position SContainerd) (position k) && fst (initContainerd E)
   then [DWaitContainerd] else []) ++
  (if Nat.ltb (position SPidWrite) (position k) && negb (bool_decide (Pidfile cfg = ""))
   then [DRemovePidfile] else []).

End StartSequence.

(** Tactics that read the facts of a scenario off [failsAt]. *)
Ltac split_raw :=
  repeat match goal with
  | H : (if ?c then Some _ else None) = None |- _ =>
      destruct c eqn:?; [discriminate H|clear H]
  | H : (if ?c then Some _ else None) = Some _ |- _ =>
      destruct c eqn:?; [|discriminate H]
  | H : (if ?c then None else _) = Some _ |- _ =>
      destruct c eqn:?; [discriminate H|]
  | H : match fst ?x with inl _ => None | inr _ => _ end = _ |- _ =>
      destruct x as [[[? ?]|?] ?] eqn:?; simpl in H; try discriminate H
  | H : match ?x with Some _ => _ | None => _ end = _ |- _ =>
      destruct x eqn:?; try discriminate H
  | H : Some _ = Some _ |- _ => injection H as H; try subst
  | H : None = None |- _ => clear H
  end.

Ltac before_facts Hb :=
  let go j :=
    first [ let F := fresh "F" in
            assert (F := Hb j ltac:(simpl; lia)); unfold stepRaw in F
          | idtac ] in
  go SRootlessKit; go SPrivileges; go SUmask; go SDaemonRoot; go SExecRoot;
  go SPidDir; go SPidWrite; go SListeners; go SContainerd; go SPreNotify;
  go SMiddlewares; go SDaemon; go SAuthz; go SMetrics; go SCluster;
  go SBuildkit.

Lemma if_same {A} (b : bool) (x : A) : (if b then x else x) = x.
Proof. now destruct b. Qed.

Lemma forallb_if {A} (p : A -> bool) (b : bool) l1 l2 :
  forallb p (if b then l1 else l2) = if b then forallb p l1 else forallb p l2.
Proof. now destruct b. Qed.

Lemma existsb_if {A} (p : A -> bool) (b : bool) l1 l2 :
  existsb p (if b then l1 else l2) = if b then existsb p l1 else existsb p l2.
Proof. now destruct b. Qed.

Lemma filter_if {A} (p : A -> bool) (b : bool) l1 l2 :
  List.filter p (if b then l1 else l2)
  = if b then List.filter p l1 else List.filter p l2.
Proof. now destruct b. Qed.

Global Instance Step_eq_dec : EqDecision Step.
Proof. solve_decision. Defined.

Lemma filter_isServe_GoServe l :
  List.filter isServe (map GoServe l) = map GoServe l.
Proof. induction l as [|x l IH]; simpl; [reflexivity|now rewrite IH]. Qed.

Lemma filter_isTeardown_GoServe l :
  List.filter isTeardown (map GoServe l) = [].
Proof. induction l as [|x l IH]; simpl; [reflexivity|exact IH]. Qed.

Lemma stepOf_GoServe l :
  forallb (fun ev => match stepOf ev with
                     | Some _ => false
                     | None => true
                     end) (map GoServe l) = true.
Proof. induction l as [|x l IH]; simpl; [reflexivity|exact IH]. Qed.

(** The goroutines of the serve loop only log. *)
Lemma collect_only_logs E order : forall errAPI,
  Forall (fun ev => exists lvl msg, ev = Log lvl msg)
         (snd (collect E order errAPI [])).
Proof.
  induction order as [|ls rest IH]; intros errAPI; simpl; [constructor|].
  destruct (decide (serve E ls = ErrServerClosed)); [apply IH|].
  rewrite collect_trace. simpl. constructor; [eauto|apply IH].
Qed.

Lemma filter_logs (p : Event -> bool) l :
  (forall lvl msg, p (Log lvl msg) = false) ->
  Forall (fun ev => exists lvl msg, ev = Log lvl msg) l ->
  List.filter p l = [].
Proof.
  intros Hp. induction 1 as [|ev l (lvl & msg & ->) _ IH]; simpl;
    [reflexivity|]. now rewrite Hp.
Qed.

Definition isWatcher (ev : Event) : bool :=
  match ev with
  | GoShutdownWatcher _ => true
  | _ => false
  end.

(** The events by which [start] begins to serve and ends: the watcher
    of the stop signal, the serve loops, and every release. *)
Definition isLifecycle (ev : Event) : bool :=
  isWatcher ev || isServe ev || isTeardown ev.

Lemma filter_isLifecycle_GoServe l :
  List.filter isLifecycle (map GoServe l) = map GoServe l.
Proof. induction l as [|x l IH]; simpl; [reflexivity|now rewrite IH]. Qed.

Lemma filter_isWatcher_GoServe l :
  List.filter isWatcher (map GoServe l) = [].
Proof. induction l as [|x l IH]; simpl; [reflexivity|exact IH]. Qed.

Lemma filter_isWatcher_collect E order errAPI :
  List.filter isWatcher (snd (collect E order errAPI [])) = [].
Proof. apply filter_logs; [reflexivity|apply collect_only_logs]. Qed.

Lemma filter_isServe_collect E order errAPI :
  List.filter isServe (snd (collect E order errAPI [])) = [].
Proof. apply filter_logs; [reflexivity|apply collect_only_logs]. Qed.

Lemma filter_isTeardown_collect E order errAPI :
  List.filter isTeardown (snd (collect E order errAPI [])) = [].
Proof. apply filter_logs; [reflexivity|apply collect_only_logs]. Qed.

Lemma filter_isLifecycle_collect E order errAPI :
  List.filter isLifecycle (snd (collect E order errAPI [])) = [].
Proof. apply filter_logs; [reflexivity|apply collect_only_logs]. Qed.

(** Evaluation of a projection of an explicit trace. *)
Ltac crunch :=
  repeat (progress
    (rewrite ?forallb_app, ?existsb_app, ?List.filter_app,
       ?forallb_if, ?existsb_if, ?filter_if,
       ?filter_isServe_GoServe, ?filter_isTeardown_GoServe,
       ?filter_isServe_collect, ?filter_isTeardown_collect,
       ?filter_isWatcher_GoServe, ?filter_isWatcher_collect,
       ?filter_isLifecycle_GoServe, ?filter_isLifecycle_collect;
     cbn [forallb existsb List.filter app negb andb orb isServe isTeardown
          isWatcher isLifecycle stepOf position Nat.leb Nat.eqb Nat.ltb];
     rewrite ?if_same));
  repeat match goal with
  | H : ?c = true |- context [if ?c then _ else _] =>
      rewrite H; cbn [app negb andb orb]
  | H : ?c = false |- context [if ?c then _ else _] =>
      rewrite H; cbn [app negb andb orb]
  end;
  rewrite ?orb_true_r, ?andb_true_r, ?app_nil_r; try reflexivity.

Section StartScenarios.
Context (E : StartEnv).

(** The steps that leave an event of their own in the trace. *)
Definition hasMarker (cfg : Config) (j : Step) : bool :=
  match j with
  | SRootlessKit | SPrivileges | SExecRoot | SPidDir => false
  | SPidWrite => negb (bool_decide (Pidfile cfg = ""))
  | _ => true
  end.

Lemma start_fails cfg tc ctx0 k :
  failsAt E cfg tc k ->
  exists e evs,
    start E cfg tc ctx0
      = (Some e,
         evs ++ concat (map (runDeferred E cfg) (registeredBefore E cfg k))) /\
    Some (root_cause e) = option_map root_cause (stepRaw E cfg tc k) /\
    forallb (fun ev => negb (isServe ev)) evs = true /\
    forallb (fun ev => match stepOf ev with
                       | Some j => Nat.leb (position j) (position k)
                       | None => true
                       end) evs = true /\
    (forall j, position j < position k -> hasMarker cfg j = true ->
       existsb (fun ev => match stepOf ev with
                         | Some i => Nat.eqb (position i) (position j)
                         | None => false
                         end) evs = true) /\
    List.filter isTeardown evs
      = if decide (k = SContainerd) then [Cancel idMain] else [].
Proof.
  intros [[e He] Hb].
  destruct k; before_facts Hb; unfold stepRaw in He |- *; clear Hb; split_raw.
  all: eassert (HR : Runs (body E cfg tc ctx0) _ _ _)
    by (unfold body;
        repeat match goal with
               | H : loadListeners _ _ _ = _ |- _ => rewrite H
               | H : snd (initContainerd _) = _ |- _ => rewrite H
               end; cbv iota beta; runs).
  all: rewrite (start_of_Runs E cfg tc ctx0 _ _ _ HR); clear HR.
  all: eexists _, _; split;
    [ apply (f_equal2 pair); [reflexivity|];
      apply (f_equal2 (@app Event)); [reflexivity|];
      f_equal; unfold registeredBefore;
      rewrite ?if_same, ?app_nil_r;
      cbn [app position Nat.ltb Nat.leb andb];
      repeat match goal with
             | |- context [if ?c then _ else _] => destruct c; cbn [app negb]
             end; reflexivity
    | ].
  all: split;
    [ unfold wrapWith; cbv beta;
      repeat match goal with
             | H : ?x = Some _ |- context [?x] => rewrite H
             end;
      cbn [root_cause option_map]; reflexivity
    | ].
  all: split; [crunch|].
  all: split; [crunch|].
  all: split; [|crunch].
  all: intros j Hj Hm; destruct j; cbn [position] in Hj; try lia;
    cbn [hasMarker] in Hm; try discriminate Hm; crunch.
Qed.

(** The run in which every step succeeds: the serve loop is entered,
    and when the listeners have returned everything is shut down. *)
Lemma start_serves cfg tc ctx0 :
  (forall j, stepRaw E cfg tc j = None) ->
  exists lss hosts ltr evs,
    loadListeners (startHostEnv E) cfg tc = (inl (lss, hosts), ltr) /\
    start E cfg tc ctx0
      = (option_map (fun e => ErrWrap e "shutting down due to ServeAPI error")
           (fst (collect E (finishOrder E lss) None [])),
         evs ++ concat (map (runDeferred E cfg) (registeredBefore E cfg SBuildkit))) /\
    List.filter isServe evs = map GoServe lss /\
    List.filter isTeardown evs
      = [ClusterCleanup; ShutdownDaemon (Grace.mainCtx ctx0); ShutdownBuildKit;
         Cancel idMain]
        ++ match fst (collect E (finishOrder E lss) None []) with
           | Some _ => []
           | None => [OtelShutdown]
           end /\
    List.filter isWatcher evs = [GoShutdownWatcher (Grace.apiShutdownCtx ctx0)] /\
    List.filter isLifecycle evs
      = [GoShutdownWatcher (Grace.apiShutdownCtx ctx0)] ++ map GoServe lss
        ++ [ClusterCleanup; ShutdownDaemon (Grace.mainCtx ctx0); ShutdownBuildKit;
            Cancel idMain]
        ++ match fst (collect E (finishOrder E lss) None []) with
           | Some _ => []
           | None => [OtelShutdown]
           end.
Proof.
  intros Hb.
  pose proof (Hb SRootlessKit) as F0. pose proof (Hb SPrivileges) as F1.
  pose proof (Hb SUmask) as F2. pose proof (Hb SDaemonRoot) as F3.
  pose proof (Hb SExecRoot) as F4. pose proof (Hb SPidDir) as F5.
  pose proof (Hb SPidWrite) as F6. pose proof (Hb SListeners) as F7.
  pose proof (Hb SContainerd) as F8. pose proof (Hb SPreNotify) as F9.
  pose proof (Hb SMiddlewares) as F10. pose proof (Hb SDaemon) as F11.
  pose proof (Hb SAuthz) as F12. pose proof (Hb SMetrics) as F13.
  pose proof (Hb SCluster) as F14. pose proof (Hb SBuildkit) as F15.
  clear Hb. unfold stepRaw in *. split_raw.
  match goal with
  | H : loadListeners _ _ _ = (inl (?lss, ?hosts), ?ltr) |- _ =>
      exists lss, hosts, ltr;
      destruct (fst (collect E (finishOrder E lss) None [])) as [err|] eqn:Hc
  end.
  all: eassert (HR : Runs (body E cfg tc ctx0) _ _ _)
    by (unfold body;
        repeat match goal with
               | H : loadListeners _ _ _ = _ |- _ => rewrite H
               | H : snd (initContainerd _) = _ |- _ => rewrite H
               end; cbv iota beta; runs).
  all: rewrite (start_of_Runs E cfg tc ctx0 _ _ _ HR); clear HR.
  all: eexists; split; [first [assumption|reflexivity]|].
  all: split;
    [ apply (f_equal2 pair); [reflexivity|];
      apply (f_equal2 (@app Event)); [reflexivity|];
      f_equal; unfold registeredBefore;
      rewrite ?if_same, ?app_nil_r;
      cbn [app position Nat.ltb Nat.leb andb];
      repeat match goal with
             | |- context [if ?c then _ else _] => destruct c; cbn [app negb]
             end; reflexivity
    | ].
  all: split; [crunch|].
  all: split; [crunch|].
  all: split; [crunch|].
  all: crunch.
Qed.

End StartScenarios.

(** ** When the bounded shutdown returns *)

Lemma earlier_None a b : Ctx.earlier a b = None <-> a = None /\ b = None.
Proof.
  destruct a as [[ta ea]|], b as [[tb eb]|]; cbn;
    try destruct (ta <=? tb)%Z; split; try discriminate; auto;
    intros [? ?]; discriminate.
Qed.

(** [shutdownDaemon] returns whenever the shutdown timeout is not
    negative, whatever its size.  With a negative timeout it blocks for
    ever exactly when [d.Shutdown] never returns and the parent context
    never ends; when it returns then, it is at the earlier of the
    return of [d.Shutdown] and the end of the parent, and never with
    the forced outcome unless the parent ran into a deadline. *)
Theorem shutdownDaemon_blocks_iff (now : Z) (s : Ctx.Schedule)
    (parent : Ctx.Context) (id : nat) (d : Shutdown.Daemon) :
  let s' := Ctx.setCancel id (option_map (Z.add now) (Shutdown.ShutdownTakes d)) s in
  ((0 <= Shutdown.ShutdownTimeout d)%Z ->
   Shutdown.shutdownDaemon now s parent id d <> None) /\
  ((Shutdown.ShutdownTimeout d < 0)%Z ->
   (Shutdown.shutdownDaemon now s parent id d = None <->
    Shutdown.ShutdownTakes d = None /\ Ctx.doneAt s' parent = None) /\
   (forall t l, Shutdown.shutdownDaemon now s parent id d = Some (t, l) ->
      (forall took, Shutdown.ShutdownTakes d = Some took ->
         (t <= Z.max now (now + took))%Z) /\
      (l = Shutdown.ForceShutdown ->
       exists tp, Ctx.doneAt s' parent = Some (tp, DeadlineExceeded) /\
                  t = Z.max now tp))).
Proof.
  cbv zeta. split.
  - intros Hpos.
    destruct (boundingContext_deadline now parent id d Hpos) as (dl & Hdl & _).
    unfold Shutdown.shutdownDaemon.
    destruct (doneAt_by_deadline
                (Ctx.setCancel id (option_map (Z.add now) (Shutdown.ShutdownTakes d)) s)
                _ dl Hdl) as (t & e & -> & _).
    discriminate.
  - intros Hneg. unfold Shutdown.shutdownDaemon, Shutdown.boundingContext.
    destruct (0 <=? Shutdown.ShutdownTimeout d)%Z eqn:Hle;
      [apply Z.leb_le in Hle; lia|].
    unfold Ctx.WithCancel. cbn [Ctx.doneAt].
    assert (Hsid : Ctx.setCancel id (option_map (Z.add now) (Shutdown.ShutdownTakes d)) s id
                   = option_map (Z.add now) (Shutdown.ShutdownTakes d))
      by (unfold Ctx.setCancel; now rewrite Nat.eqb_refl).
    rewrite Hsid. clear Hsid.
    generalize (Ctx.setCancel id (option_map (Z.add now) (Shutdown.ShutdownTakes d)) s).
    intros s'.
    split.
    + split.
      * destruct (Ctx.earlier _ _) as [[t e]|] eqn:He; [discriminate|].
        intros _. apply earlier_None in He as [Hp Hc].
        split; [|exact Hp]. now destruct (Shutdown.ShutdownTakes d).
      * intros [-> Hp]. rewrite Hp. reflexivity.
    + intros t l.
      destruct (Ctx.doneAt s' parent) as [[tp ep]|] eqn:Hp;
        destruct (Shutdown.ShutdownTakes d) as [took|]; cbn [option_map Ctx.earlier].
      * destruct (Z.leb_spec tp (now + took)); intros [= <- <-].
        -- split; [intros ? [= <-]; lia|].
           intros Hf. exists tp. split; [|reflexivity].
           destruct (doneAt_err _ _ _ _ Hp) as [-> | ->]; [discriminate Hf|reflexivity].
        -- split; [intros ? [= <-]; lia|]. discriminate.
      * intros [= <- <-]. split; [discriminate|].
        intros Hf. exists tp. split; [|reflexivity].
        destruct (doneAt_err _ _ _ _ Hp) as [-> | ->]; [discriminate Hf|reflexivity].
      * intros [= <- <-]. split; [intros ? [= <-]; lia|]. discriminate.
      * discriminate.
Qed.

(** ** What [start] does, run by run *)

Section StartRuns.
Context (E : StartEnv).

(** The deferred calls only release and log. *)
Lemma runDeferred_teardown cfg d :
  List.filter isTeardown (runDeferred E cfg d) =
    match d with
    | DRemovePidfile => [Remove (Pidfile cfg)]
    | DWaitContainerd => [WaitContainerdShutdown (10 * Second)]
    | DCancel => [Cancel idMain]
    | DApiShutdown =>
        if stopFired E
        then [AfterFunc (5 * Second) idApi; AwaitShutdownDone; TimerStop]
        else [HttpClose]
    end.
Proof.
  destruct d; cbn [runDeferred]; unfold apiShutdownDeferred; try reflexivity.
  - cbn [List.filter isTeardown]. rewrite filter_if. cbn [List.filter isTeardown].
    now rewrite if_same.
  - destruct (stopFired E); [reflexivity|].
    cbn [List.filter isTeardown]. rewrite filter_if. cbn [List.filter isTeardown].
    now rewrite if_same.
Qed.

Lemma runDeferred_quiet cfg d :
  Forall (fun ev => isServe ev = false /\ stepOf ev = None) (runDeferred E cfg d).
Proof.
  destruct d; cbn [runDeferred]; unfold apiShutdownDeferred;
    repeat match goal with
           | |- context [if ?c then _ else _] => destruct c
           end; repeat constructor.
Qed.

Lemma deferred_quiet cfg ds :
  Forall (fun ev => isServe ev = false /\ stepOf ev = None)
         (concat (map (runDeferred E cfg) ds)).
Proof.
  induction ds as [|d ds IH]; simpl; [constructor|].
  apply Forall_app. split; [apply runDeferred_quiet|exact IH].
Qed.

(** The deferred calls neither serve nor watch. *)
Lemma deferred_lifecycle cfg ds :
  List.filter isLifecycle (concat (map (runDeferred E cfg) ds))
  = List.filter isTeardown (concat (map (runDeferred E cfg) ds)).
Proof.
  induction ds as [|d ds IH]; [reflexivity|].
  cbn [map concat]. rewrite !List.filter_app, IH. f_equal.
  destruct d; cbn [runDeferred]; unfold apiShutdownDeferred;
    repeat match goal with
           | |- context [if ?c then _ else _] => destruct c
           end; reflexivity.
Qed.

Lemma deferred_teardown cfg k :
  List.filter isTeardown (concat (map (runDeferred E cfg) (registeredBefore E cfg k)))
  = (if Nat.ltb (position SContainerd) (position k)
     then (if stopFired E
           then [AfterFunc (5 * Second) idApi; AwaitShutdownDone; TimerStop]
           else [HttpClose]) ++ [Cancel idMain]
     else []) ++
    (if Nat.leb (position SContainerd) (position k) && fst (initContainerd E)
     then [WaitContainerdShutdown (10 * Second)] else []) ++
    (if Nat.ltb (position SPidWrite) (position k)
        && negb (bool_decide (Pidfile cfg = ""))
     then [Remove (Pidfile cfg)] else []).
Proof.
  unfold registeredBefore.
  rewrite !map_app, !concat_app, !List.filter_app.
  f_equal; [|f_equal].
  - destruct (Nat.ltb _ _); [|reflexivity].
    cbn [map concat]. rewrite !List.filter_app, !runDeferred_teardown.
    now rewrite app_nil_r.
  - destruct (_ && _); [|reflexivity].
    cbn [map concat]. now rewrite List.filter_app, runDeferred_teardown.
  - destruct (_ && _); [|reflexivity].
    cbn [map concat]. now rewrite List.filter_app, runDeferred_teardown.
Qed.

Lemma filter_none {A} (p : A -> bool) l :
  Forall (fun x => p x = false) l -> List.filter p l = [].
Proof.
  induction 1 as [|x l Hx _ IH]; simpl; [reflexivity|]. now rewrite Hx.
Qed.

Lemma forallb_all {A} (p : A -> bool) l :
  Forall (fun x => p x = true) l -> forallb p l = true.
Proof.
  induction 1 as [|x l Hx _ IH]; simpl; [reflexivity|]. now rewrite Hx.
Qed.

Lemma filter_of_forallb_negb {A} (p : A -> bool) l :
  forallb (fun x => negb (p x)) l = true -> List.filter p l = [].
Proof.
  induction l as [|x l IH]; simpl; [reflexivity|].
  destruct (p x); simpl; [discriminate|exact IH].
Qed.

End StartRuns.

(** An environment for the examples, on Linux as root with a managed
    containerd: every step succeeds, except that [buildkit.New] answers
    [bk]; the listeners return what [sv] says, in the order of their
    sockets; [fired] tells whether the stop signal was given. *)
Definition exampleStartEnv (bk : error) (sv : Listener -> goerr) (fired : bool)
  : StartEnv :=
  {| runningWithRootlessKit := false;
     goosLinux := true;
     goosIsWindows := false;
     euid := 0;
     setDefaultUmask := None;
     createDaemonRoot := None;
     mkdirExecRoot := None;
     mkdirPidDir := None;
     pidfileWrite := None;
     pidfileRemove := None;
     stickRuntimeDirContents := None;
     startHostEnv := exampleHostEnv;
     initContainerd := (true, None);
     preNotifyReady := None;
     newVersionMiddleware := None;
     newDaemon := None;
     authzPluginGet := fun _ => None;
     startMetricsServer := None;
     clusterNew := None;
     clusterStart := None;
     sessionNewManager := None;
     newBuildManager := None;
     buildkitNew := bk;
     newBackend := None;
     buildkitFeature := false;
     hasExperimental := false;
     serve := sv;
     finishRank := fun ls => ls_fd ls;
     stopFired := fired;
     httpCloseErr := None;
     otelShutdown := None |}.

(** When step [k] is the first to fail, [start] returns an error with
    the cause of that step, never enters the serve loop, does nothing
    of a later step after having carried out the earlier ones, and
    releases exactly what its deferred calls registered before [k]
    hold, the latest first: the API server, the main context, the
    managed containerd, the pid file.  The daemon core, the cluster and
    the build back end, when already started, are not shut down. *)
Theorem start_failure_unwinds (E : StartEnv) (cfg : Config)
    (tc : option tlsConfig) (ctx0 : Context) (k : Step) :
  failsAt E cfg tc k ->
  exists e,
    fst (start E cfg tc ctx0) = Some e /\
    Some (root_cause e) = option_map root_cause (stepRaw E cfg tc k) /\
    List.filter isServe (snd (start E cfg tc ctx0)) = [] /\
    forallb (fun ev => match stepOf ev with
                       | Some j => Nat.leb (position j) (position k)
                       | None => true
                       end) (snd (start E cfg tc ctx0)) = true /\
    (forall j, position j < position k -> hasMarker cfg j = true ->
       existsb (fun ev => match stepOf ev with
                          | Some i => Nat.eqb (position i) (position j)
                          | None => false
                          end) (snd (start E cfg tc ctx0)) = true) /\
    List.filter isTeardown (snd (start E cfg tc ctx0))
    = (if decide (k = SContainerd) then [Cancel idMain] else []) ++
      (if Nat.ltb (position SContainerd) (position k)
       then (if stopFired E
             then [AfterFunc (5 * Second) idApi; AwaitShutdownDone; TimerStop]
             else [HttpClose]) ++ [Cancel idMain]
       else []) ++
      (if Nat.leb (position SContainerd) (position k) && fst (initContainerd E)
       then [WaitContainerdShutdown (10 * Second)] else []) ++
      (if Nat.ltb (position SPidWrite) (position k)
          && negb (bool_decide (Pidfile cfg = ""))
       then [Remove (Pidfile cfg)] else []).
Proof.
  intros Hk.
  destruct (start_fails E cfg tc ctx0 k Hk)
    as (e & evs & Hs & Hroot & Hserve & Hlater & Hbefore & Htear).
  pose proof (deferred_quiet E cfg (registeredBefore E cfg k)) as Hq.
  exists e. rewrite Hs. cbn [fst snd].
  split; [reflexivity|]. split; [exact Hroot|].
  split.
  { rewrite List.filter_app, (filter_of_forallb_negb _ _ Hserve). simpl.
    apply filter_none. eapply Forall_impl; [exact Hq|]. now intros ev [? _]. }
  split.
  { rewrite forallb_app, Hlater. simpl. apply forallb_all.
    eapply Forall_impl; [exact Hq|]. intros ev [_ ->]. reflexivity. }
  split.
  { intros j Hj Hm. rewrite existsb_app, (Hbefore j Hj Hm). reflexivity. }
  rewrite List.filter_app, Htear, deferred_teardown. reflexivity.
Qed.

Lemma start_failure_unwinds_witness :
  exists e,
    fst (start (exampleStartEnv (Some (ErrExt "buildkit: lock held"))
                  (fun _ => ErrServerClosed) false)
           (exampleConfig ["unix:///var/run/docker.sock"] None None) None Background)
      = Some e /\
    List.filter isTeardown
      (snd (start (exampleStartEnv (Some (ErrExt "buildkit: lock held"))
                     (fun _ => ErrServerClosed) false)
              (exampleConfig ["unix:///var/run/docker.sock"] None None) None
              Background))
    = [HttpClose; Cancel idMain; WaitContainerdShutdown (10 * Second);
       Remove "/var/run/docker.pid"].
Proof.
  destruct (start_failure_unwinds
              (exampleStartEnv (Some (ErrExt "buildkit: lock held"))
                 (fun _ => ErrServerClosed) false)
              (exampleConfig ["unix:///var/run/docker.sock"] None None) None
              Background SBuildkit)
    as (e & He & _ & _ & _ & _ & Ht).
  - split; [eexists; reflexivity|].
    intros j Hj. destruct j; try reflexivity; simpl in Hj; lia.
  - exists e. split; [exact He|]. rewrite Ht. reflexivity.
Defined.

Section ServeLoop.
Context (E : StartEnv).

(** The errors that reach the error channel, in the order in which the
    listener goroutines return. *)
Definition failures (order : list Listener) : list goerr :=
  List.filter (fun e => negb (bool_decide (e = ErrServerClosed)))
              (map (serve E) order).

Lemma collect_spec order : forall errAPI,
  fst (collect E order errAPI []) =
    match errAPI with
    | Some e => Some e
    | None => head (failures order)
    end /\
  snd (collect E order errAPI []) =
    replicate (length (failures order)) (Log LvError "ServeAPI error").
Proof.
  unfold failures.
  induction order as [|ls rest IH]; intros errAPI; simpl.
  - now destruct errAPI.
  - destruct (decide (serve E ls = ErrServerClosed)) as [Heq|Hne].
    + rewrite bool_decide_eq_true_2 by exact Heq. simpl. apply IH.
    + rewrite bool_decide_eq_false_2 by exact Hne. simpl.
      rewrite collect_trace. simpl.
      destruct (IH (match errAPI with Some _ => errAPI | None => Some (serve E ls) end))
        as [H1 H2].
      rewrite H1, H2. split; [|reflexivity]. now destruct errAPI.
Qed.

Lemma failures_nil order :
  failures order = [] <-> forall ls, ls ∈ order -> serve E ls = ErrServerClosed.
Proof.
  unfold failures. induction order as [|ls rest IH]; simpl.
  - split; [|reflexivity]. intros _ ls H. apply elem_of_nil in H. contradiction.
  - destruct (decide (serve E ls = ErrServerClosed)) as [Heq|Hne].
    + rewrite bool_decide_eq_true_2 by exact Heq. simpl. rewrite IH.
      split.
      * intros H x Hx. apply elem_of_cons in Hx as [->|Hx]; auto.
      * intros H x Hx. apply H. apply elem_of_cons. now right.
    + rewrite bool_decide_eq_false_2 by exact Hne. simpl.
      split; [discriminate|]. intros H. exfalso. apply Hne, H.
      apply elem_of_cons. now left.
Qed.

Lemma failures_head order e :
  head (failures order) = Some e ->
  exists ls, ls ∈ order /\ serve E ls = e /\ e <> ErrServerClosed.
Proof.
  unfold failures. induction order as [|ls rest IH]; simpl; [discriminate|].
  destruct (decide (serve E ls = ErrServerClosed)) as [Heq|Hne].
  - rewrite bool_decide_eq_true_2 by exact Heq. simpl. intros H.
    destruct (IH H) as (x & Hx & Hs & Hn). exists x.
    split; [apply elem_of_cons; now right|auto].
  - rewrite bool_decide_eq_false_2 by exact Hne. simpl. intros [= <-].
    exists ls. split; [apply elem_of_cons; now left|auto].
Qed.

Lemma finishOrder_perm lss : finishOrder E lss ≡ₚ lss.
Proof. unfold finishOrder. apply merge_sort_Permutation. Qed.

Lemma finishOrder_sorted lss : Sorted (finishesBefore E) (finishOrder E lss).
Proof.
  unfold finishOrder. apply Sorted_merge_sort.
  intros a b. unfold finishesBefore. lia.
Qed.

(** Either some step is the first to fail, or every step succeeds. *)
Lemma first_failure_dec cfg tc :
  (exists k, failsAt E cfg tc k) \/ (forall j, stepRaw E cfg tc j = None).
Proof.
  assert (H : forall n,
    (exists k, failsAt E cfg tc k) \/
    (forall j, position j < n -> stepRaw E cfg tc j = None)).
  { induction n as [|n [IH|IH]].
    - right. intros j Hj. lia.
    - now left.
    - assert (Hk : n >= 16 \/ exists k, position k = n).
      { do 16 (destruct n as [|n];
               [right;
                first [ now exists SRootlessKit | now exists SPrivileges
                      | now exists SUmask | now exists SDaemonRoot
                      | now exists SExecRoot | now exists SPidDir
                      | now exists SPidWrite | now exists SListeners
                      | now exists SContainerd | now exists SPreNotify
                      | now exists SMiddlewares | now exists SDaemon
                      | now exists SAuthz | now exists SMetrics
                      | now exists SCluster | now exists SBuildkit ]|]).
        left. lia. }
      destruct Hk as [Hbig|[k Hk]].
      + right. intros j Hj. apply IH. destruct j; simpl in *; lia.
      + destruct (stepRaw E cfg tc k) as [e|] eqn:Hraw.
        * left. exists k. split; [rewrite Hraw; eauto|].
          intros j Hj. apply IH. lia.
        * right. intros j Hj.
          destruct (decide (position j = n)) as [Hjn|Hjn].
          -- assert (j = k) as -> by (destruct j, k; simpl in *; lia || reflexivity).
             exact Hraw.
          -- apply IH. lia. }
  destruct (H 16) as [?|Hall]; [now left|right].
  intros j. apply Hall. destruct j; simpl; lia.
Qed.

End ServeLoop.

(** The result of a run in which every step succeeds. *)
Lemma start_serves_result (E : StartEnv) (cfg : Config) (tc : option tlsConfig)
    (ctx0 : Context) :
  (forall j, stepRaw E cfg tc j = None) ->
  exists lss hosts ltr,
    loadListeners (startHostEnv E) cfg tc = (inl (lss, hosts), ltr) /\
    fst (start E cfg tc ctx0)
      = option_map (fun e => ErrWrap e "shutting down due to ServeAPI error")
          (head (failures E (finishOrder E lss))) /\
    (fst (start E cfg tc ctx0) = None <->
     forall ls, ls ∈ lss -> serve E ls = ErrServerClosed).
Proof.
  intros Hall.
  destruct (start_serves E cfg tc ctx0 Hall)
    as (lss & hosts & ltr & evs & Hl & Hs & _).
  destruct (collect_spec E (finishOrder E lss) None) as [Hc _].
  rewrite Hc in Hs.
  exists lss, hosts, ltr. rewrite Hs. cbn [fst].
  split; [exact Hl|]. split; [reflexivity|].
  destruct (head (failures E (finishOrder E lss))) as [e|] eqn:Hh.
  - split; [discriminate|]. intros Hok. exfalso.
    apply failures_head in Hh as (ls & Hin & Hse & Hne).
    apply Hne. rewrite <- Hse. apply Hok.
    now rewrite <- (finishOrder_perm E lss).
  - split; [|reflexivity]. intros _ ls Hin.
    assert (Hnil : failures E (finishOrder E lss) = [])
      by (destruct (failures E (finishOrder E lss)); [reflexivity|discriminate]).
    apply (proj1 (failures_nil E (finishOrder E lss)) Hnil).
    now rewrite (finishOrder_perm E lss).
Qed.

(** When every step succeeds, [start] serves on every listener and,
    once all have returned, cleans up the cluster, shuts down the daemon
    core and the build back end and cancels the main context, in this
    order, before the deferred calls run.  Nothing is released before
    the serve loops have been started: in the trace the watcher of the
    stop signal comes first, then the serve loops, one per listener in
    the order of the listeners, and only then the releases.  [start]
    returns nil exactly when every listener returned
    [http.ErrServerClosed]; otherwise it returns the error of the
    listener that failed first, wrapped, and the tracing shutdown is
    skipped. *)
Theorem start_serves_until_shutdown (E : StartEnv) (cfg : Config)
    (tc : option tlsConfig) (ctx0 : Context) :
  (forall j, stepRaw E cfg tc j = None) ->
  exists lss hosts ltr,
    loadListeners (startHostEnv E) cfg tc = (inl (lss, hosts), ltr) /\
    fst (start E cfg tc ctx0)
      = option_map (fun e => ErrWrap e "shutting down due to ServeAPI error")
          (head (failures E (finishOrder E lss))) /\
    (fst (start E cfg tc ctx0) = None <->
     forall ls, ls ∈ lss -> serve E ls = ErrServerClosed) /\
    List.filter isServe (snd (start E cfg tc ctx0)) = map GoServe lss /\
    List.filter isWatcher (snd (start E cfg tc ctx0))
      = [GoShutdownWatcher (Grace.apiShutdownCtx ctx0)] /\
    List.filter isTeardown (snd (start E cfg tc ctx0))
    = [ClusterCleanup; ShutdownDaemon (Grace.mainCtx ctx0); ShutdownBuildKit;
       Cancel idMain] ++
      match fst (start E cfg tc ctx0) with
      | Some _ => []
      | None => [OtelShutdown]
      end ++
      (if stopFired E
       then [AfterFunc (5 * Second) idApi; AwaitShutdownDone; TimerStop]
       else [HttpClose]) ++
      [Cancel idMain] ++
      (if fst (initContainerd E) then [WaitContainerdShutdown (10 * Second)]
       else []) ++
      (if negb (bool_decide (Pidfile cfg = "")) then [Remove (Pidfile cfg)]
       else []) /\
    List.filter isLifecycle (snd (start E cfg tc ctx0))
    = [GoShutdownWatcher (Grace.apiShutdownCtx ctx0)] ++
      map GoServe lss ++
      List.filter isTeardown (snd (start E cfg tc ctx0)).
Proof.
  intros Hall.
  destruct (start_serves E cfg tc ctx0 Hall)
    as (lss & hosts & ltr & evs & Hl & Hs & Hserve & Htear & Hwatch & Hlife).
  destruct (collect_spec E (finishOrder E lss) None) as [Hc _].
  rewrite Hc in Hs, Htear, Hlife.
  pose proof (deferred_quiet E cfg (registeredBefore E cfg SBuildkit)) as Hq.
  exists lss, hosts, ltr. rewrite Hs. cbn [fst snd].
  split; [exact Hl|]. split; [reflexivity|].
  split.
  { destruct (head (failures E (finishOrder E lss))) as [e|] eqn:Hh.
    - split; [discriminate|]. intros Hok. exfalso.
      apply failures_head in Hh as (ls & Hin & Hse & Hne).
      apply Hne. rewrite <- Hse. apply Hok.
      now rewrite <- (finishOrder_perm E lss).
    - split; [|reflexivity]. intros _ ls Hin.
      assert (Hnil : failures E (finishOrder E lss) = [])
        by (destruct (failures E (finishOrder E lss)); [reflexivity|discriminate]).
      apply (proj1 (failures_nil E (finishOrder E lss)) Hnil).
      now rewrite (finishOrder_perm E lss). }
  split.
  { rewrite List.filter_app, Hserve.
    rewrite (filter_none isServe (concat _)); [now rewrite app_nil_r|].
    eapply Forall_impl; [exact Hq|]. now intros ev [? _]. }
  split.
  { rewrite List.filter_app, Hwatch.
    rewrite (filter_none isWatcher (concat _)); [reflexivity|].
    clear. induction (registeredBefore E cfg SBuildkit) as [|d ds IH];
      simpl; [constructor|].
    apply Forall_app. split; [|exact IH].
    destruct d; cbn [runDeferred]; unfold apiShutdownDeferred;
      repeat match goal with
             | |- context [if ?c then _ else _] => destruct c
             end; repeat constructor. }
  split.
  { rewrite List.filter_app, Htear, deferred_teardown.
    cbn [position Nat.ltb Nat.leb andb].
    rewrite <- !app_assoc. do 4 f_equal.
    destruct (head (failures E (finishOrder E lss))); reflexivity. }
  rewrite !List.filter_app, Hlife, Htear, deferred_lifecycle.
  now rewrite <- !app_assoc.
Qed.

Lemma start_serves_until_shutdown_witness :
  fst (start (exampleStartEnv None
                (fun ls => if Nat.eqb (ls_fd ls) 3 then ErrExt "accept: too many open files"
                           else ErrServerClosed) true)
         (exampleConfig ["unix:///var/run/docker.sock"] None None) None Background)
  = Some (ErrWrap (ErrExt "accept: too many open files")
            "shutting down due to ServeAPI error").
Proof.
  destruct (start_serves_until_shutdown
              (exampleStartEnv None
                 (fun ls => if Nat.eqb (ls_fd ls) 3
                            then ErrExt "accept: too many open files"
                            else ErrServerClosed) true)
              (exampleConfig ["unix:///var/run/docker.sock"] None None) None
              Background)
    as (lss & hosts & ltr & Hl & Hr & _).
  - intros j. destruct j; reflexivity.
  - rewrite Hr. vm_compute in Hl. injection Hl as <- _ _. reflexivity.
Defined.

(** [start] returns an error exactly when a start-up step fails or a
    listener's serve loop returns something else than
    [http.ErrServerClosed]. *)
Theorem start_error_iff (E : StartEnv) (cfg : Config) (tc : option tlsConfig)
    (ctx0 : Context) :
  fst (start E cfg tc ctx0) <> None <->
  (exists k, failsAt E cfg tc k) \/
  (exists lss hosts ltr ls,
     loadListeners (startHostEnv E) cfg tc = (inl (lss, hosts), ltr) /\
     ls ∈ lss /\ serve E ls <> ErrServerClosed).
Proof.
  split.
  - intros Hne. destruct (first_failure_dec E cfg tc) as [Hk|Hall]; [now left|].
    right.
    destruct (start_serves_result E cfg tc ctx0 Hall)
      as (lss & hosts & ltr & Hl & _ & Hnil).
    exists lss, hosts, ltr.
    destruct (decide (Forall (fun ls => serve E ls = ErrServerClosed) lss))
      as [Hf|Hf].
    + exfalso. apply Hne, Hnil. intros ls Hin.
      rewrite Forall_forall in Hf. now apply Hf.
    + apply not_Forall_Exists in Hf; [|intros ls; apply _].
      apply Exists_exists in Hf as (ls & Hin & Hls). eauto.
  - intros [[k Hk]|(lss & hosts & ltr & ls & Hl & Hin & Hls)].
    + destruct (start_fails E cfg tc ctx0 k Hk) as (e & evs & -> & _).
      discriminate.
    + destruct (first_failure_dec E cfg tc) as [[k Hk]|Hall].
      * destruct (start_fails E cfg tc ctx0 k Hk) as (e & evs & -> & _).
        discriminate.
      * destruct (start_serves_result E cfg tc ctx0 Hall)
          as (lss' & hosts' & ltr' & Hl' & _ & Hnil).
        rewrite Hl in Hl'. injection Hl' as <- <- <-.
        intros Hnone. apply Hls. now apply Hnil.
Qed.



(** ** The process environment *)

Section EnvFacts.
Import Env.
Variable Mask : string -> string.

Lemma Getenv_Setenv_other key value env k :
  k <> key -> fst (Setenv key value env) !! k = env !! k.
Proof.
  intros Hne. unfold Setenv.
  match goal with |- context [if ?b then _ else _] => destruct b end;
    cbn [fst]; [reflexivity|].
  now rewrite lookup_insert_ne.
Qed.

Lemma hasByte_false_NUL key value env :
  (bool_decide (key = "") || hasByte "="%char key || hasByte NUL key) = false ->
  hasByte NUL value = false ->
  Setenv key value env = (<[key := value]> env, None).
Proof. intros Hk Hv. unfold Setenv. now rewrite Hk, Hv. Qed.

(** The variables [configureProxyEnv] may write, with the value the
    configuration has for each, in the order of the calls. *)
Definition proxyVars (cfg : ProxyConfig) : list (string * string) :=
  [("HTTP_PROXY", HTTPProxy cfg); ("http_proxy", HTTPProxy cfg);
   ("HTTPS_PROXY", HTTPSProxy cfg); ("https_proxy", HTTPSProxy cfg);
   ("NO_PROXY", NoProxy cfg); ("no_proxy", NoProxy cfg)].

Definition configured (cfg : ProxyConfig) : list (string * string) :=
  List.filter (fun kv => negb (bool_decide (kv.2 = ""))) (proxyVars cfg).

(** The warning [overrideProxyEnv] logs for a variable whose value was
    [old]. *)
Definition proxyWarning (old : string) (kv : string * string)
  : list ProxyWarning :=
  if negb (bool_decide (old = "")) && negb (bool_decide (old = kv.2))
  then [mkProxyWarning kv.1 (Mask old) (Mask kv.2)] else [].

Definition overrideAll (l : list (string * string))
    (st : gmap string string * list ProxyWarning) : gmap string string * list ProxyWarning :=
  foldl (fun st kv => overrideProxyEnv Mask kv.1 kv.2 st) st l.

Lemma configureProxyEnv_fold cfg env :
  configureProxyEnv Mask cfg env = overrideAll (configured cfg) (env, []).
Proof.
  unfold configureProxyEnv, configured, proxyVars, overrideAll.
  cbn [List.filter snd].
  destruct (bool_decide (HTTPProxy cfg = "")),
    (bool_decide (HTTPSProxy cfg = "")),
    (bool_decide (NoProxy cfg = "")); reflexivity.
Qed.

Lemma List_filter_sublist {A} (p : A -> bool) (l : list A) :
  sublist (List.filter p l) l.
Proof.
  induction l as [|a l IH]; simpl; [constructor|].
  destruct (p a); [now apply sublist_skip|now apply sublist_cons].
Qed.

Lemma overrideAll_cons k p l env logs :
  overrideAll ((k, p) :: l) (env, logs)
  = overrideAll l (fst (Setenv k p env),
                   logs ++ proxyWarning (Getenv env k) (k, p)).
Proof.
  unfold overrideAll, proxyWarning, overrideProxyEnv. cbn [foldl fst snd].
  destruct (_ && _); [reflexivity|now rewrite app_nil_r].
Qed.

Lemma overrideAll_other l : forall env logs k,
  k ∉ l.*1 -> fst (overrideAll l (env, logs)) !! k = env !! k.
Proof.
  induction l as [|[k' p] l IH]; intros env logs k Hk; [reflexivity|].
  cbn [fmap list_fmap fst] in Hk. apply not_elem_of_cons in Hk as [Hne Hk].
  rewrite overrideAll_cons, IH by exact Hk.
  now apply Getenv_Setenv_other.
Qed.

Lemma overrideAll_logs l : forall env logs,
  NoDup l.*1 ->
  snd (overrideAll l (env, logs))
  = logs ++ concat (map (fun kv => proxyWarning (Getenv env kv.1) kv) l).
Proof.
  induction l as [|[k p] l IH]; intros env logs Hnd.
  - cbn. now rewrite app_nil_r.
  - cbn [fmap list_fmap fst] in Hnd. apply NoDup_cons in Hnd as [Hk Hnd].
    rewrite overrideAll_cons, IH by exact Hnd.
    cbn [map concat fst]. rewrite <- app_assoc. do 2 f_equal.
    f_equal. apply map_ext_in. intros [k' p'] Hin. cbn [fst].
    unfold Getenv at 1. rewrite Getenv_Setenv_other; [reflexivity|].
    intros ->. apply Hk. apply list_elem_of_fmap. exists (k, p'). split; [reflexivity|].
    now apply list_elem_of_In.
Qed.

Definition validName (key : string) : bool :=
  negb (bool_decide (key = "") || hasByte "="%char key || hasByte NUL key).

Lemma overrideAll_set l : forall env logs k p,
  NoDup l.*1 ->
  Forall (fun kv => validName kv.1 = true /\ hasByte NUL kv.2 = false) l ->
  (k, p) ∈ l -> fst (overrideAll l (env, logs)) !! k = Some p.
Proof.
  induction l as [|[k' p'] l IH]; intros env logs k p Hnd Hok Hin.
  - now apply elem_of_nil in Hin.
  - cbn [fmap list_fmap fst] in Hnd. apply NoDup_cons in Hnd as [Hk Hnd].
    apply Forall_cons in Hok as [[Hv Hn] Hok]. cbn [fst snd] in Hv, Hn.
    rewrite overrideAll_cons.
    apply elem_of_cons in Hin as [Heq|Hin].
    + injection Heq as -> ->.
      rewrite overrideAll_other by exact Hk.
      rewrite hasByte_false_NUL; [apply lookup_insert_eq| |exact Hn].
      unfold validName in Hv. now apply negb_true_iff in Hv.
    + now apply IH.
Qed.

End EnvFacts.

(** What [configureProxyEnv] writes and what it logs. *)
Lemma configureProxyEnv_effect (Mask : string -> string)
    (cfg : Env.ProxyConfig) (env : gmap string string) :
  Env.hasByte Env.NUL (Env.HTTPProxy cfg) = false ->
  Env.hasByte Env.NUL (Env.HTTPSProxy cfg) = false ->
  Env.hasByte Env.NUL (Env.NoProxy cfg) = false ->
  (forall k p, (k, p) ∈ proxyVars cfg -> p <> "" ->
     Env.Getenv (fst (Env.configureProxyEnv Mask cfg env)) k = p) /\
  (forall k, (forall p, (k, p) ∈ proxyVars cfg -> p = "") ->
     fst (Env.configureProxyEnv Mask cfg env) !! k = env !! k) /\
  snd (Env.configureProxyEnv Mask cfg env)
  = concat (map (fun kv => proxyWarning Mask (Env.Getenv env kv.1) kv)
              (configured cfg)).
Proof.
  intros H1 H2 H3. rewrite configureProxyEnv_fold.
  assert (Hnd : NoDup (proxyVars cfg).*1).
  { eapply bool_decide_unpack. vm_compute. exact I. }
  assert (Hsub : sublist (configured cfg) (proxyVars cfg)).
  { unfold configured. apply List_filter_sublist. }
  assert (Hnd' : NoDup (configured cfg).*1).
  { eapply sublist_NoDup; [exact Hnd|apply fmap_sublist; exact Hsub]. }
  split; [|split].
  - intros k p Hin Hp. unfold Env.Getenv.
    rewrite (overrideAll_set Mask (configured cfg) env [] k p); [reflexivity|exact Hnd'| |].
    + apply Forall_forall. intros [k' p'] Hin'.
      apply list_elem_of_In, List.filter_In in Hin' as [Hin' _].
      cbn in Hin'. cbn [fst snd].
      repeat destruct Hin' as [Heq|Hin']; try contradiction;
        injection Heq as <- <-; (split; [reflexivity|assumption]).
    + apply list_elem_of_In, List.filter_In. split; [now apply list_elem_of_In|].
      cbn [snd]. now rewrite bool_decide_eq_false_2.
  - intros k Hk. apply overrideAll_other.
    intros Hin. apply list_elem_of_fmap in Hin as ([k' p] & -> & Hin).
    apply list_elem_of_In, List.filter_In in Hin as [Hin Hp].
    cbn [fst snd] in *. apply list_elem_of_In in Hin.
    rewrite (Hk p Hin) in Hp. discriminate.
  - now rewrite overrideAll_logs.
Qed.

(** After [configureProxyEnv], every proxy variable whose value in the
    configuration is not empty (and has no NUL byte) holds that value,
    in its upper-case and in its lower-case spelling; every other
    variable of the environment is as it was.  A warning is logged for
    exactly the variables that are written and held another, non-empty
    value when the function was entered, in the order of the calls. *)
Theorem configureProxyEnv_applies (Mask : string -> string)
    (cfg : Env.ProxyConfig) (env : gmap string string) :
  Env.hasByte Env.NUL (Env.HTTPProxy cfg) = false ->
  Env.hasByte Env.NUL (Env.HTTPSProxy cfg) = false ->
  Env.hasByte Env.NUL (Env.NoProxy cfg) = false ->
  (forall k p, (k, p) ∈ proxyVars cfg -> p <> "" ->
     Env.Getenv (fst (Env.configureProxyEnv Mask cfg env)) k = p) /\
  (forall k, (forall p, (k, p) ∈ proxyVars cfg -> p = "") ->
     fst (Env.configureProxyEnv Mask cfg env) !! k = env !! k) /\
  snd (Env.configureProxyEnv Mask cfg env)
  = concat (map (fun kv => proxyWarning Mask (Env.Getenv env kv.1) kv)
              (configured cfg)).
Proof. apply configureProxyEnv_effect. Qed.

Lemma configureProxyEnv_applies_witness :
  Env.Getenv
    (fst (Env.configureProxyEnv (fun _ => "xxxxx")
            (Env.mkProxyConfig "http://proxy.example.com:3128" "" "localhost")
            {[ "HTTP_PROXY" := "http://old.example.com:8080" ]}))
    "http_proxy"
  = "http://proxy.example.com:3128".
Proof.
  apply (configureProxyEnv_applies (fun _ => "xxxxx")
           (Env.mkProxyConfig "http://proxy.example.com:3128" "" "localhost")
           {[ "HTTP_PROXY" := "http://old.example.com:8080" ]});
    try reflexivity.
  - apply elem_of_cons. right. apply elem_of_cons. now left.
  - discriminate.
Defined.

(** [configureProxyEnv] is idempotent: run again on the environment it
    produced, it changes nothing and logs no warning. *)
Theorem configureProxyEnv_idempotent (Mask : string -> string)
    (cfg : Env.ProxyConfig) (env : gmap string string) :
  Env.hasByte Env.NUL (Env.HTTPProxy cfg) = false ->
  Env.hasByte Env.NUL (Env.HTTPSProxy cfg) = false ->
  Env.hasByte Env.NUL (Env.NoProxy cfg) = false ->
  Env.configureProxyEnv Mask cfg (fst (Env.configureProxyEnv Mask cfg env))
  = (fst (Env.configureProxyEnv Mask cfg env), []).
Proof.
  intros H1 H2 H3.
  set (env' := fst (Env.configureProxyEnv Mask cfg env)).
  destruct (configureProxyEnv_effect Mask cfg env H1 H2 H3) as (Hset & _ & _).
  fold env' in Hset.
  destruct (configureProxyEnv_effect Mask cfg env' H1 H2 H3) as (Hset' & Hoth & Hlog).
  apply injective_projections.
  - cbn [fst]. apply map_eq. intros k.
    destruct (decide (Forall (fun kv => kv.1 = k -> kv.2 = "") (proxyVars cfg)))
      as [Hall|Hex].
    + apply Hoth. intros p Hin. rewrite Forall_forall in Hall.
      now apply (Hall (k, p)).
    + apply not_Forall_Exists in Hex; [|intros kv; apply _].
      apply Exists_exists in Hex as ([k' p] & Hin & Hne). cbn [fst snd] in Hne.
      destruct (decide (k' = k)) as [->|Hk]; [|exfalso; apply Hne; intros; contradiction].
      assert (Hp : p <> "") by (intros ->; now apply Hne).
      pose proof (Hset' k p Hin Hp) as Ha. pose proof (Hset k p Hin Hp) as Hb.
      unfold Env.Getenv in Ha, Hb.
      assert (Hv : forall e : gmap string string, default "" (e !! k) = p -> e !! k = Some p).
      { intros e He. destruct (e !! k) as [v|]; cbn in He; congruence. }
      now rewrite (Hv _ Ha), (Hv _ Hb).
  - cbn [snd]. rewrite Hlog. clear Hlog.
    assert (Hnil : forall l : list (string * string),
              (forall kv, kv ∈ l -> kv ∈ configured cfg) ->
              concat (map (fun kv => proxyWarning Mask (Env.Getenv env' kv.1) kv) l) = []).
    { induction l as [|[k p] l IH]; intros Hl; [reflexivity|].
      cbn [map concat]. rewrite IH.
      - rewrite app_nil_r. unfold proxyWarning. cbn [fst snd].
        assert (Hin : (k, p) ∈ configured cfg) by (apply Hl; now left).
        apply list_elem_of_In, List.filter_In in Hin as [Hin Hp]. cbn [snd] in Hp.
        apply negb_true_iff, bool_decide_eq_false in Hp.
        rewrite (Hset k p (proj2 (list_elem_of_In _ _) Hin) Hp).
        rewrite (bool_decide_eq_true_2 (p = p)) by reflexivity.
        now rewrite andb_false_r.
      - intros kv Hkv. apply Hl. now right. }
    apply Hnil. auto.
Qed.

Lemma configureProxyEnv_idempotent_witness :
  snd (Env.configureProxyEnv (fun _ => "xxxxx")
         (Env.mkProxyConfig "http://proxy.example.com:3128" "" "localhost")
         (fst (Env.configureProxyEnv (fun _ => "xxxxx")
                 (Env.mkProxyConfig "http://proxy.example.com:3128" "" "localhost")
                 {[ "HTTP_PROXY" := "http://old.example.com:8080" ]})))
  = [].
Proof.
  rewrite (configureProxyEnv_idempotent (fun _ => "xxxxx")
             (Env.mkProxyConfig "http://proxy.example.com:3128" "" "localhost")
             {[ "HTTP_PROXY" := "http://old.example.com:8080" ]});
    reflexivity.
Defined.

(** [setOTLPProtoDefault] never changes a variable that has a value,
    touches no variable but the two protocol variables for traces and
    metrics, leaves the environment with a protocol for both signals
    (the general one, or one for each), and is idempotent. *)
Theorem setOTLPProtoDefault_fills_gaps (env : gmap string string) :
  (forall k, Env.Getenv env k <> "" ->
     Env.Getenv (Env.setOTLPProtoDefault env) k = Env.Getenv env k) /\
  (forall k, k <> Env.tracesEnv -> k <> Env.metricsEnv ->
     Env.setOTLPProtoDefault env !! k = env !! k) /\
  (Env.Getenv (Env.setOTLPProtoDefault env) Env.protoEnv <> "" \/
   (Env.Getenv (Env.setOTLPProtoDefault env) Env.tracesEnv <> "" /\
    Env.Getenv (Env.setOTLPProtoDefault env) Env.metricsEnv <> "")) /\
  (Env.Getenv env Env.protoEnv = "" ->
   forall k, k = Env.tracesEnv \/ k = Env.metricsEnv -> Env.Getenv env k = "" ->
   Env.Getenv (Env.setOTLPProtoDefault env) k = Env.defaultProto) /\
  Env.setOTLPProtoDefault (Env.setOTLPProtoDefault env)
  = Env.setOTLPProtoDefault env.
Proof.
  assert (Hset : forall k e, k = Env.tracesEnv \/ k = Env.metricsEnv ->
            fst (Env.Setenv k Env.defaultProto e) = <[k := Env.defaultProto]> e).
  { intros k e [->| ->]; reflexivity. }
  assert (Hget : forall k v (e : gmap string string),
            Env.Getenv (<[k := v]> e) k = v).
  { intros k v e. unfold Env.Getenv. now rewrite lookup_insert_eq. }
  assert (Hget' : forall k k' v (e : gmap string string), k <> k' ->
            Env.Getenv (<[k := v]> e) k' = Env.Getenv e k').
  { intros k k' v e Hne. unfold Env.Getenv. now rewrite lookup_insert_ne. }
  assert (Htm : Env.tracesEnv <> Env.metricsEnv) by discriminate.
  assert (Htp : Env.tracesEnv <> Env.protoEnv) by discriminate.
  assert (Hmp : Env.metricsEnv <> Env.protoEnv) by discriminate.
  assert (Hd : Env.defaultProto <> "") by discriminate.
  unfold Env.setOTLPProtoDefault.
  destruct (decide (Env.Getenv env Env.protoEnv = "")) as [Hp|Hp].
  2:{ rewrite !(bool_decide_eq_false_2 _ Hp).
      repeat split; auto; try contradiction. }
  rewrite (bool_decide_eq_true_2 _ Hp).
  destruct (decide (Env.Getenv env Env.tracesEnv = "")) as [Ht|Ht];
    [rewrite (bool_decide_eq_true_2 _ Ht)|rewrite (bool_decide_eq_false_2 _ Ht)];
    rewrite ?Hset by auto; rewrite ?Hget' by auto;
    (destruct (decide (Env.Getenv env Env.metricsEnv = "")) as [Hm|Hm];
     [rewrite (bool_decide_eq_true_2 _ Hm)|rewrite (bool_decide_eq_false_2 _ Hm)]);
    rewrite ?Hset by auto.
  - split; [|split; [|split; [|split]]].
    + intros k Hk. rewrite !Hget'; [reflexivity|congruence..].
    + intros k H1 H2. now rewrite !lookup_insert_ne.
    + right. rewrite Hget. rewrite Hget' by auto. rewrite Hget. auto.
    + intros _ k [->| ->] _; [rewrite Hget' by auto|]; now rewrite Hget.
    + rewrite !Hget' by auto. rewrite (bool_decide_eq_true_2 _ Hp).
      rewrite Hget. rewrite (bool_decide_eq_false_2 _ Hd).
      rewrite Hget. now rewrite (bool_decide_eq_false_2 _ Hd).
  - split; [|split; [|split; [|split]]].
    + intros k Hk. rewrite !Hget'; [reflexivity|congruence..].
    + intros k H1 H2. now rewrite !lookup_insert_ne.
    + right. rewrite Hget. rewrite Hget' by auto. auto.
    + intros _ k [->| ->] Hk; [|congruence]. now rewrite Hget.
    + rewrite !Hget' by auto. rewrite (bool_decide_eq_true_2 _ Hp).
      rewrite Hget. rewrite (bool_decide_eq_false_2 _ Hd).
      rewrite Hget' by auto. now rewrite (bool_decide_eq_false_2 _ Hm).
  - split; [|split; [|split; [|split]]].
    + intros k Hk. rewrite !Hget'; [reflexivity|congruence..].
    + intros k H1 H2. now rewrite !lookup_insert_ne.
    + right. rewrite Hget. rewrite Hget' by auto. auto.
    + intros _ k [->| ->] Hk; [congruence|]. now rewrite Hget.
    + rewrite !Hget' by auto. rewrite (bool_decide_eq_true_2 _ Hp).
      rewrite (bool_decide_eq_false_2 _ Ht).
      rewrite Hget. now rewrite (bool_decide_eq_false_2 _ Hd).
  - split; [|split; [|split; [|split]]]; auto.
    + intros _ k [->| ->] Hk; congruence.
    + rewrite (bool_decide_eq_true_2 _ Hp), (bool_decide_eq_false_2 _ Ht),
        (bool_decide_eq_false_2 _ Hm). reflexivity.
Qed.

(** ** The containerd the daemon talks to *)

Section ContainerdFacts.
Import Containerd.
Context (E : ContainerdEnv).

Definition isLogLevel (o : DaemonOpt) : bool :=
  match o with WithLogLevel _ => true | _ => false end.

(** [getContainerdDaemonOpts] never fails.  The options it builds hold
    exactly one log level, "debug" when the daemon runs in debug mode
    and the configured level otherwise; the log format when one is
    configured; the option that disables CRI unless the configuration
    asks for CRI; and the detection of a local binary on Windows only.
    No option is given twice. *)
Theorem getContainerdDaemonOpts_options cfg cri :
  snd (getContainerdDaemonOpts E cfg cri) = None /\
  List.filter isLogLevel (fst (getContainerdDaemonOpts E cfg cri))
    = [WithLogLevel (if Debug cfg then "debug" else LogLevel cfg)] /\
  (forall f, WithLogFormat f ∈ fst (getContainerdDaemonOpts E cfg cri)
             <-> f = LogFormat cfg /\ f <> "") /\
  (WithCRIDisabled ∈ fst (getContainerdDaemonOpts E cfg cri) <-> cri = false) /\
  (WithDetectLocalBinary ∈ fst (getContainerdDaemonOpts E cfg cri)
   <-> onWindows E = true) /\
  NoDup (fst (getContainerdDaemonOpts E cfg cri)).
Proof.
  unfold getContainerdDaemonOpts. cbn [fst snd].
  split; [reflexivity|].
  destruct (Debug cfg), (decide (LogFormat cfg = "")) as [Hf|Hf], cri, (onWindows E);
    rewrite ?(bool_decide_eq_true_2 _ Hf), ?(bool_decide_eq_false_2 _ Hf);
    cbn [negb app List.filter isLogLevel];
    (split; [reflexivity|]);
    (split; [intros f; rewrite ?elem_of_cons, ?elem_of_nil;
             split; [intros H; repeat destruct H as [H|H]; try discriminate;
                     try contradiction; try (injection H as ->; auto)
                    |intros [-> H]; try contradiction; auto 6]|]);
    (split; [rewrite ?elem_of_cons, ?elem_of_nil;
             split; [intros H; repeat destruct H as [H|H]; try discriminate;
                     try contradiction; reflexivity
                    |intros H; try discriminate; auto 6]|]);
    (split; [rewrite ?elem_of_cons, ?elem_of_nil;
             split; [intros H; repeat destruct H as [H|H]; try discriminate;
                     try contradiction; reflexivity
                    |intros H; try discriminate; auto 6]|]);
    repeat (apply NoDup_cons; split;
            [rewrite ?elem_of_cons, ?elem_of_nil; intros H;
             repeat destruct H as [H|H]; try discriminate; contradiction|]);
    apply NoDup_nil_2.
Qed.

End ContainerdFacts.

(** [initializeContainerd] never returns a wait function together with
    an error.  When it fails it leaves the containerd address of the
    configuration alone and its error wraps the cause, which is the
    failure to find the runtime directory or the failure of
    [supervisor.Start]: building the options cannot fail.  When it
    succeeds the address is written: the address of the system
    containerd, found by [os.Lstat] on its socket, and then nothing is
    started; or the very address that [supervisor.Start] answered for
    the containerd it started, without error, under the daemon's root
    and exec-root with the options of [getContainerdDaemonOpts], and
    only then is there a wait function. *)
Theorem initializeContainerd_outcomes (E : Containerd.ContainerdEnv)
    (honorXDG : bool) (cfg : Config) (cri : bool) :
  let r := Containerd.initializeContainerd E honorXDG cfg cri in
  let started :=
    Containerd.CStart (Containerd.Join E [Root cfg; "containerd"])
      (Containerd.Join E [ExecRoot cfg; "containerd"])
      (fst (Containerd.getContainerdDaemonOpts E cfg cri)) in
  let supervised :=
    Containerd.supervisorStart E (Containerd.Join E [Root cfg; "containerd"])
      (Containerd.Join E [ExecRoot cfg; "containerd"])
      (fst (Containerd.getContainerdDaemonOpts E cfg cri)) in
  (Containerd.waitFn r = true -> Containerd.initErr r = None) /\
  (forall e, Containerd.initErr r = Some e ->
     Containerd.containerdAddr r = None /\
     ((exists cause,
         e = ErrWrap cause
               "could not determine whether the system containerd is running" /\
         snd (Containerd.GetRuntimeDir E) = Some cause /\
         honorXDG = true /\ Containerd.initEvents r = []) \/
      (exists cause,
         e = ErrWrap cause "failed to start containerd" /\
         snd (Containerd.supervisorStart E
                (Containerd.Join E [Root cfg; "containerd"])
                (Containerd.Join E [ExecRoot cfg; "containerd"])
                (fst (Containerd.getContainerdDaemonOpts E cfg cri))) = Some cause /\
         started ∈ Containerd.initEvents r))) /\
  (Containerd.initErr r = None ->
   exists addr, Containerd.containerdAddr r = Some addr /\
     if Containerd.waitFn r
     then addr = fst supervised /\
          snd supervised = None /\
          Containerd.initEvents r
          = [Containerd.CInfo "containerd not running, starting managed containerd";
             started] /\
          Containerd.Lstat E (fst (fst (Containerd.systemContainerdRunning E honorXDG)))
            <> None
     else Containerd.initEvents r = [] /\
          addr = fst (fst (Containerd.systemContainerdRunning E honorXDG)) /\
          Containerd.Lstat E addr = None).
Proof.
  cbv zeta. unfold Containerd.initializeContainerd, Containerd.systemContainerdRunning.
  destruct honorXDG.
  - destruct (Containerd.GetRuntimeDir E) as [dir [err|]] eqn:Hdir.
    + cbn. split; [discriminate|]. split; [|discriminate].
      intros e [= <-]. split; [reflexivity|]. left. exists err. cbn. auto.
    + destruct (decide (Containerd.Lstat E
                  (Containerd.Join E [dir; "containerd"; "containerd.sock"]) = None))
        as [Hl|Hl].
      * rewrite (bool_decide_eq_true_2 _ Hl). cbn.
        split; [discriminate|]. split; [discriminate|].
        intros _. eexists. split; [reflexivity|]. auto.
      * rewrite (bool_decide_eq_false_2 _ Hl). cbn [Containerd.getContainerdDaemonOpts].
        cbv zeta.
        destruct (Containerd.supervisorStart E _ _ _) as [addr [err|]] eqn:Hs; cbn.
        -- split; [discriminate|]. split; [|discriminate].
           intros e [= <-]. split; [reflexivity|]. right. exists err.
           split; [reflexivity|]. split; [reflexivity|].
           apply elem_of_cons. right. apply elem_of_cons. now left.
        -- split; [reflexivity|]. split; [discriminate|].
           intros _. eexists. split; [reflexivity|].
           split; [reflexivity|]. split; [reflexivity|].
           split; [reflexivity|exact Hl].
  - destruct (decide (Containerd.Lstat E (Containerd.DefaultAddress E) = None))
      as [Hl|Hl].
    + rewrite (bool_decide_eq_true_2 _ Hl). cbn.
      split; [discriminate|]. split; [discriminate|].
      intros _. eexists. split; [reflexivity|]. auto.
    + rewrite (bool_decide_eq_false_2 _ Hl). cbn [Containerd.getContainerdDaemonOpts].
      cbv zeta.
      destruct (Containerd.supervisorStart E _ _ _) as [addr [err|]] eqn:Hs; cbn.
      * split; [discriminate|]. split; [|discriminate].
        intros e [= <-]. split; [reflexivity|]. right. exists err.
        split; [reflexivity|]. split; [reflexivity|].
        apply elem_of_cons. right. apply elem_of_cons. now left.
      * split; [reflexivity|]. split; [discriminate|].
        intros _. eexists. split; [reflexivity|].
           split; [reflexivity|]. split; [reflexivity|].
           split; [reflexivity|exact Hl].
Qed.

(** ** Logging set-up *)

(** [configureDaemonLogs] panics exactly when the log format is none of
    "json", "text" and the empty string, and then with a message that
    names the format, or when [log.SetFormat] refuses the format, and
    then with its error.  Otherwise it sets the format once ("text" for
    the empty string) and then the level once ("info" for the empty
    string); a level that [log.SetLevel] refuses costs a warning, never
    a panic; colours are switched off only for raw logs in text
    format. *)
Theorem configureDaemonLogs_panics_iff (E : Logs.LogEnv) (conf : Config)
    (rawLogs : bool) :
  let fmt := if decide (LogFormat conf = "") then "text" else LogFormat conf in
  let lvl := if decide (LogLevel conf = "") then "info" else LogLevel conf in
  (forall p, Logs.configureDaemonLogs E conf rawLogs = inr p <->
     (LogFormat conf <> "json" /\ LogFormat conf <> "text" /\ LogFormat conf <> "" /\
      p = Logs.PanicMsg ("unsupported log format " ++ LogFormat conf)%string) \/
     ((LogFormat conf = "json" \/ LogFormat conf = "text" \/ LogFormat conf = "") /\
      exists err, Logs.logSetFormat E fmt = Some err /\ p = Logs.PanicErr err)) /\
  (forall evs, Logs.configureDaemonLogs E conf rawLogs = inl evs ->
     List.filter (fun ev => match ev with
                            | Logs.SetFormat _ | Logs.SetLevel _ => true
                            | _ => false
                            end) evs
       = [Logs.SetFormat fmt; Logs.SetLevel lvl] /\
     (Logs.DisableColors ∈ evs <->
      rawLogs = true /\ Logs.textFormatter E = true /\ fmt = "text") /\
     (forall err, Logs.WarnLevel err ∈ evs <-> Logs.logSetLevel E lvl = Some err)).
Proof.
  cbv zeta. unfold Logs.configureDaemonLogs, Logs.JSONFormat, Logs.TextFormat.
  assert (Hfmt : LogFormat conf = "json" \/ LogFormat conf = "text" \/
                 LogFormat conf = "" \/
                 (LogFormat conf <> "json" /\ LogFormat conf <> "text" /\
                  LogFormat conf <> "")).
  { destruct (decide (LogFormat conf = "json")); [auto|].
    destruct (decide (LogFormat conf = "text")); [auto|].
    destruct (decide (LogFormat conf = "")); auto 6. }
  destruct Hfmt as [Hf|[Hf|[Hf|(Hj & Ht & He)]]].
  4:{ destruct (decide (LogFormat conf = "json")); [contradiction|].
      rewrite (bool_decide_eq_false_2 _ Ht), (bool_decide_eq_false_2 _ He).
      cbn [orb]. split; [|intros evs Hevs; discriminate].
      intros p. split.
      - intros [= <-]. left. auto.
      - intros [(_ & _ & _ & ->)|([?|[?|?]] & _)]; [reflexivity|contradiction..]. }
  all: rewrite Hf;
    generalize (if decide (LogLevel conf = "") then "info" else LogLevel conf);
    intros lvl;
    repeat match goal with
           | |- context [decide (?a = ?b)] =>
               destruct (decide (a = b)) as [Heq|Hne];
               [try discriminate Heq; clear Heq
               |try (exfalso; apply Hne; reflexivity); clear Hne]
           end;
    rewrite ?bool_decide_eq_true_2 by reflexivity;
    rewrite ?bool_decide_eq_false_2 by discriminate;
    cbn [orb];
    match goal with
    | |- context [Logs.logSetFormat ?E0 ?f] =>
        destruct (Logs.logSetFormat E0 f) as [e|] eqn:Hsf
    end;
    [split; [intros p; split;
             [intros [= <-]; right; split; [auto|eauto]
             |intros [(Hx & Hy & Hz & _)|(_ & e' & [= <-] & ->)];
              [exfalso; first [now apply Hx|now apply Hy|now apply Hz]
              |reflexivity]]
            |intros evs Hevs; discriminate]|];
    (split; [intros p; split;
             [intros Hp; discriminate Hp
             |intros [(Hx & Hy & Hz & _)|(_ & e' & He' & _)];
              [exfalso; first [now apply Hx|now apply Hy|now apply Hz]
              |discriminate He']]|]);
    intros evs [= <-];
    match goal with
    | |- context [?rl && Logs.textFormatter ?E0] =>
        destruct rl, (Logs.textFormatter E0)
    | _ => idtac
    end;
    match goal with
    | |- context [Logs.logSetLevel ?E0 ?l] =>
        destruct (Logs.logSetLevel E0 l) as [e|] eqn:Hsl
    end;
    cbn [andb app List.filter];
    (split; [reflexivity|]);
    (split; [|intros err]);
    rewrite ?elem_of_cons, ?elem_of_nil;
    intuition (try discriminate; try congruence).
Qed.

(** ** Validation of container settings *)

Section VerifyFacts.
Import Verify.
Local Open Scope Z_scope.

(** [validateHealthCheck] accepts a health check exactly when each of
    its four durations is zero or at least the minimum duration and the
    number of retries is not negative; no health check at all is
    accepted.  A negative duration is therefore refused. *)
Theorem validateHealthCheck_accepts_iff Min (show : Z -> string) hc :
  validateHealthCheck Min show hc = None <->
  forall h, hc = Some h ->
    (Interval h = 0 \/ Min <= Interval h) /\
    (Timeout h = 0 \/ Min <= Timeout h) /\
    (StartPeriod h = 0 \/ Min <= StartPeriod h) /\
    (StartInterval h = 0 \/ Min <= StartInterval h) /\
    0 <= Retries h.
Proof.
  destruct hc as [h|]; cbn [validateHealthCheck].
  2:{ split; [intros _ h Hh; discriminate|reflexivity]. }
  destruct (Z.eqb_spec (Interval h) 0), (Z.ltb_spec (Interval h) Min);
    cbn [negb andb];
    try (split; [discriminate|intros Hall; specialize (Hall h eq_refl); lia]);
    (destruct (Z.eqb_spec (Timeout h) 0), (Z.ltb_spec (Timeout h) Min);
     cbn [negb andb];
     try (split; [discriminate|intros Hall; specialize (Hall h eq_refl); lia]));
    (destruct (Z.ltb_spec (Retries h) 0);
     try (split; [discriminate|intros Hall; specialize (Hall h eq_refl); lia]));
    (destruct (Z.eqb_spec (StartPeriod h) 0), (Z.ltb_spec (StartPeriod h) Min);
     cbn [negb andb];
     try (split; [discriminate|intros Hall; specialize (Hall h eq_refl); lia]));
    (destruct (Z.eqb_spec (StartInterval h) 0), (Z.ltb_spec (StartInterval h) Min);
     cbn [negb andb];
     try (split; [discriminate|intros Hall; specialize (Hall h eq_refl); lia]));
    (split; [intros _ h' [= <-]; lia|reflexivity]).
Qed.

Section PortFacts.
Variable Split : string -> string * string.
Variable ParsePort : string -> error.
Variable NewPort : string -> string -> error.
Variable quote : string -> string.

Definition bindingOk (pb : PortBinding) : Prop :=
  NewPort (fst (Split (HostPort pb))) (snd (Split (HostPort pb))) = None.

Definition portOk (entry : string * list PortBinding) : Prop :=
  ParsePort (snd (Split (fst entry))) = None /\ Forall bindingOk (snd entry).

Lemma validateBindings_spec pbs :
  match validateBindings Split NewPort quote pbs with
  | None => Forall bindingOk pbs
  | Some e =>
      exists pb, pb ∈ pbs /\ ~ bindingOk pb /\
        e = ErrNew ("invalid port specification: " ++ quote (HostPort pb))%string
  end.
Proof.
  induction pbs as [|pb rest IH]; cbn [validateBindings]; [constructor|].
  destruct (Split (HostPort pb)) as [proto port] eqn:Hs.
  destruct (NewPort proto port) as [e|] eqn:Hn.
  - exists pb. split; [now left|]. split; [|reflexivity].
    unfold bindingOk. rewrite Hs. cbn. congruence.
  - destruct (validateBindings Split NewPort quote rest) as [e|].
    + destruct IH as (pb' & Hin & Hbad & ->). exists pb'.
      split; [now right|auto].
    + constructor; [|exact IH]. unfold bindingOk. now rewrite Hs.
Qed.

Lemma validatePortBindings_spec ports :
  match validatePortBindings Split ParsePort NewPort quote ports with
  | None => Forall portOk ports
  | Some e =>
      exists entry s, entry ∈ ports /\ ~ portOk entry /\
        e = ErrNew ("invalid port specification: " ++ quote s)%string /\
        (s = snd (Split (fst entry)) \/ s ∈ map HostPort (snd entry))
  end.
Proof.
  induction ports as [|[port pbs] rest IH]; cbn [validatePortBindings];
    [constructor|].
  destruct (ParsePort (snd (Split port))) as [e|] eqn:Hp.
  - exists (port, pbs), (snd (Split port)). split; [now left|].
    split; [|auto]. intros [H _]. cbn in H. congruence.
  - pose proof (validateBindings_spec pbs) as Hb.
    destruct (validateBindings Split NewPort quote pbs) as [e|].
    + destruct Hb as (pb & Hin & Hbad & ->).
      exists (port, pbs), (HostPort pb). split; [now left|].
      split.
      * intros [_ H]. cbn in H. rewrite Forall_forall in H. now apply Hbad, H.
      * split; [reflexivity|]. right. cbn [snd].
        apply list_elem_of_fmap. eauto.
    + destruct (validatePortBindings Split ParsePort NewPort quote rest) as [e|].
      * destruct IH as (entry & s & Hin & Hbad & He & Hs).
        exists entry, s. split; [now right|auto].
      * constructor; [|exact IH]. split; [exact Hp|exact Hb].
Qed.

Lemma validatePortBindings_iff ports :
  validatePortBindings Split ParsePort NewPort quote ports = None
  <-> Forall portOk ports.
Proof.
  pose proof (validatePortBindings_spec ports) as H.
  destruct (validatePortBindings Split ParsePort NewPort quote ports) as [e|].
  - split; [discriminate|]. intros Hall.
    destruct H as (entry & s & Hin & Hbad & _).
    rewrite Forall_forall in Hall. exfalso. now apply Hbad, Hall.
  - split; [intros _; exact H|reflexivity].
Qed.

End PortFacts.

Section HostConfigFacts.
Context (E : VerifyEnv).

Definition imageMounts (ms : list Mount) : nat :=
  length (List.filter mountIsImage ms).

Lemma validateMounts_spec ms : forall w,
  exists n,
    fst (validateMounts E ms w) = w ++ replicate n msgImageMount /\
    (n <= imageMounts ms)%nat /\
    (snd (validateMounts E ms w) = None ->
     n = imageMounts ms /\ Forall (fun m => ValidateMountConfig E m = None) ms) /\
    (Forall (fun m => ValidateMountConfig E m = None) ms ->
     snd (validateMounts E ms w) = None).
Proof.
  unfold imageMounts.
  induction ms as [|m ms IH]; intros w; cbn [validateMounts List.filter].
  - exists O. cbn. rewrite app_nil_r. repeat split; auto.
  - destruct (ValidateMountConfig E m) as [e|] eqn:Hv.
    + destruct (mountIsImage m); cbn [fst snd length].
      * exists 1%nat. split; [reflexivity|]. split; [lia|].
        split; [discriminate|]. intros H. inversion H; congruence.
      * exists O. cbn. rewrite app_nil_r. split; [reflexivity|]. split; [lia|].
        split; [discriminate|]. intros H. inversion H; congruence.
    + destruct (mountIsImage m); cbn [length].
      * destruct (IH (w ++ [msgImageMount])) as (n & H1 & H2 & H3 & H4).
        exists (S n). rewrite H1, <- app_assoc. split; [reflexivity|].
        split; [lia|]. split.
        -- intros H. destruct (H3 H) as [-> ?]. split; [reflexivity|].
           constructor; assumption.
        -- intros H. apply H4. now inversion H.
      * destruct (IH w) as (n & H1 & H2 & H3 & H4).
        exists n. split; [exact H1|]. split; [lia|]. split.
        -- intros H. destruct (H3 H) as [-> ?]. split; [reflexivity|].
           constructor; assumption.
        -- intros H. apply H4. now inversion H.
Qed.

Lemma validateExtraHosts_iff hs :
  validateExtraHosts E hs = None
  <-> Forall (fun h => ValidateExtraHost E h = None) hs.
Proof.
  induction hs as [|h hs IH]; cbn [validateExtraHosts].
  - split; [constructor|reflexivity].
  - destruct (ValidateExtraHost E h) eqn:Hv.
    + split; [discriminate|]. intros H. inversion H; congruence.
    + rewrite IH. split; [now constructor|]. intros H. now inversion H.
Qed.

Lemma validateAnnotations_iff ks :
  validateAnnotations ks = None <-> "" ∉ ks.
Proof.
  induction ks as [|k ks IH]; cbn [validateAnnotations].
  - split; [intros _; apply not_elem_of_nil|reflexivity].
  - destruct (decide (k = "")) as [->|Hk].
    + split; [discriminate|]. intros H. exfalso. apply H. now left.
    + rewrite IH, not_elem_of_cons. split; [auto|tauto].
Qed.

Lemma validateCapabilities_iff hc :
  validateCapabilities E hc = None
  <-> NormalizeLegacyCapabilities E (CapAdd hc) = None /\
      NormalizeLegacyCapabilities E (CapDrop hc) = None.
Proof.
  unfold validateCapabilities.
  destruct (NormalizeLegacyCapabilities E (CapAdd hc));
    [split; [discriminate|intros [? _]; discriminate]|].
  destruct (NormalizeLegacyCapabilities E (CapDrop hc));
    [split; [discriminate|intros [_ ?]; discriminate]|].
  split; auto.
Qed.

(** The checks of [validateHostConfig] that follow the mounts. *)
Definition laterChecks (hc : HostConfig) : error :=
  match validateExtraHosts E (ExtraHosts hc) with
  | Some err => Some err
  | None =>
      match validatePortBindings (vSplitProtoPort E) (vParsePort E)
              (vNewPort E) (vQuote E) (PortBindings hc) with
      | Some err => Some err
      | None =>
          match ValidateRestartPolicy E (RestartPolicy hc) with
          | Some err => Some err
          | None =>
              match validateCapabilities E hc with
              | Some err => Some err
              | None =>
                  if negb (IsolationIsValid hc) then
                    Some (ErrNew ("invalid isolation '" ++ Isolation hc
                                  ++ "' on " ++ GOOS E)%string)
                  else validateAnnotations (AnnotationKeys hc)
              end
          end
      end
  end.

Lemma validateHostConfig_unfold hc :
  validateHostConfig E (Some hc) =
    if AutoRemove hc && negb (RestartPolicyIsNone hc) then
      ([], Some (ErrNew "can't create 'AutoRemove' container with restart policy"))
    else
      match validateMounts E (Mounts hc) [] with
      | (warnings, Some err) => (warnings, Some err)
      | (warnings, None) => (warnings, laterChecks hc)
      end.
Proof.
  unfold validateHostConfig, laterChecks.
  destruct (AutoRemove hc && negb (RestartPolicyIsNone hc)); [reflexivity|].
  destruct (validateMounts E (Mounts hc) []) as [w [e|]]; [reflexivity|].
  destruct (validateExtraHosts E (ExtraHosts hc)); [reflexivity|].
  destruct (validatePortBindings _ _ _ _ _); [reflexivity|].
  destruct (ValidateRestartPolicy E (RestartPolicy hc)); [reflexivity|].
  destruct (validateCapabilities E hc); [reflexivity|].
  destruct (negb (IsolationIsValid hc)); reflexivity.
Qed.

Lemma laterChecks_iff hc :
  laterChecks hc = None <->
  Forall (fun h => ValidateExtraHost E h = None) (ExtraHosts hc) /\
  Forall (portOk (vSplitProtoPort E) (vParsePort E) (vNewPort E))
    (PortBindings hc) /\
  ValidateRestartPolicy E (RestartPolicy hc) = None /\
  NormalizeLegacyCapabilities E (CapAdd hc) = None /\
  NormalizeLegacyCapabilities E (CapDrop hc) = None /\
  IsolationIsValid hc = true /\
  "" ∉ AnnotationKeys hc.
Proof.
  unfold laterChecks.
  rewrite <- validateExtraHosts_iff.
  rewrite <- (validatePortBindings_iff _ _ _ (vQuote E)).
  rewrite <- validateAnnotations_iff.
  pose proof (validateCapabilities_iff hc) as Hc.
  destruct (validateExtraHosts E (ExtraHosts hc));
    [split; [discriminate|intros (? & _); discriminate]|].
  destruct (validatePortBindings _ _ _ _ _);
    [split; [discriminate|intros (_ & ? & _); discriminate]|].
  destruct (ValidateRestartPolicy E (RestartPolicy hc));
    [split; [discriminate|intros (_ & _ & ? & _); discriminate]|].
  destruct (validateCapabilities E hc).
  { split; [discriminate|]. intros (_ & _ & _ & Ha & Hd & _).
    assert (Hx : Some g = None) by (apply Hc; auto). discriminate. }
  destruct (proj1 Hc eq_refl) as [Ha Hd].
  destruct (IsolationIsValid hc); cbn [negb].
  - split; [intros H; repeat split; auto|intros (_ & _ & _ & _ & _ & _ & H); exact H].
  - split; [discriminate|intros (_ & _ & _ & _ & _ & ? & _); discriminate].
Qed.

End HostConfigFacts.

End VerifyFacts.

(** [validatePortBindings] accepts a port map exactly when the port of
    every key parses and every host port of every binding makes a port;
    so whether it accepts does not depend on the order in which the
    [range] loop visits the map.  What it refuses, it refuses with the
    port, or host port, of an entry that is not well formed. *)
Theorem validatePortBindings_order_independent
    (Split : string -> string * string) (ParsePort : string -> error)
    (NewPort : string -> string -> error) (quote : string -> string)
    (ports : Verify.PortMap) :
  (Verify.validatePortBindings Split ParsePort NewPort quote ports = None
   <-> Forall (portOk Split ParsePort NewPort) ports) /\
  (forall ports', ports' ≡ₚ ports ->
     (Verify.validatePortBindings Split ParsePort NewPort quote ports' = None
      <-> Verify.validatePortBindings Split ParsePort NewPort quote ports = None)) /\
  (forall e, Verify.validatePortBindings Split ParsePort NewPort quote ports = Some e ->
     exists entry s, entry ∈ ports /\ ~ portOk Split ParsePort NewPort entry /\
       e = ErrNew ("invalid port specification: " ++ quote s)%string /\
       (s = snd (Split (fst entry)) \/ s ∈ map Verify.HostPort (snd entry))).
Proof.
  split; [apply validatePortBindings_iff|]. split.
  - intros ports' Hp. rewrite !validatePortBindings_iff. now rewrite Hp.
  - intros e He.
    pose proof (validatePortBindings_spec Split ParsePort NewPort quote ports) as H.
    rewrite He in H. exact H.
Qed.

(** [validateHostConfig] accepts a host configuration exactly when no
    check fails: automatic removal only without restart policy, valid
    mounts, extra hosts, port bindings, restart policy and capabilities,
    a valid isolation, and no empty annotation key; no host
    configuration at all is accepted without warning.  The warnings are
    one line for each image mount that was examined: all of them when
    the configuration is accepted, none when automatic removal meets a
    restart policy. *)
Theorem validateHostConfig_accepts_iff (E : Verify.VerifyEnv)
    (hostConfig : option Verify.HostConfig) :
  match hostConfig with
  | None => Verify.validateHostConfig E hostConfig = ([], None)
  | Some hc =>
      (snd (Verify.validateHostConfig E hostConfig) = None <->
       (Verify.AutoRemove hc = true -> Verify.RestartPolicyIsNone hc = true) /\
       Forall (fun m => Verify.ValidateMountConfig E m = None) (Verify.Mounts hc) /\
       Forall (fun h => Verify.ValidateExtraHost E h = None) (Verify.ExtraHosts hc) /\
       Forall (portOk (Verify.vSplitProtoPort E) (Verify.vParsePort E)
                 (Verify.vNewPort E)) (Verify.PortBindings hc) /\
       Verify.ValidateRestartPolicy E (Verify.RestartPolicy hc) = None /\
       Verify.NormalizeLegacyCapabilities E (Verify.CapAdd hc) = None /\
       Verify.NormalizeLegacyCapabilities E (Verify.CapDrop hc) = None /\
       Verify.IsolationIsValid hc = true /\
       "" ∉ Verify.AnnotationKeys hc) /\
      exists n,
        fst (Verify.validateHostConfig E hostConfig)
          = replicate n Verify.msgImageMount /\
        n <= imageMounts (Verify.Mounts hc) /\
        (snd (Verify.validateHostConfig E hostConfig) = None ->
         n = imageMounts (Verify.Mounts hc)) /\
        (Verify.AutoRemove hc = true -> Verify.RestartPolicyIsNone hc = false ->
         n = 0)
  end.
Proof.
  destruct hostConfig as [hc|]; [|reflexivity].
  rewrite validateHostConfig_unfold.
  destruct (Verify.AutoRemove hc && negb (Verify.RestartPolicyIsNone hc)) eqn:Hauto.
  - apply andb_true_iff in Hauto as [Ha Hr]. apply negb_true_iff in Hr.
    cbn [fst snd]. split.
    + split; [discriminate|]. intros [H _]. rewrite (H Ha) in Hr. discriminate.
    + exists 0. repeat split; [lia|discriminate].
  - assert (Hok : Verify.AutoRemove hc = true -> Verify.RestartPolicyIsNone hc = true).
    { intros Ha. rewrite Ha in Hauto. cbn in Hauto.
      now apply negb_false_iff in Hauto. }
    destruct (validateMounts_spec E (Verify.Mounts hc) [])
      as (n & H1 & H2 & H3 & H4).
    destruct (Verify.validateMounts E (Verify.Mounts hc) []) as [w [e|]];
      cbn [fst snd app] in *; subst w.
    + split.
      * split; [discriminate|]. intros (_ & Hm & _). specialize (H4 Hm). discriminate.
      * exists n. repeat split; [exact H2|discriminate|].
        intros Ha Hr. rewrite (Hok Ha) in Hr. discriminate.
    + destruct (H3 eq_refl) as [-> Hms]. split.
      * rewrite laterChecks_iff. tauto.
      * eexists. repeat split; [lia|].
        intros Ha Hr. rewrite (Hok Ha) in Hr. discriminate.
Qed.

(** ** Looking containers up *)

Section StoreFacts.
Import Store.
Variable invalidIdentifier : string -> goerr.
Variable containerNotFound : string -> goerr.

Lemma GetByName_sound daemon name c err :
  GetByName daemon name = (Some c, err) ->
  err = None /\ exists id, containers daemon !! id = Some c.
Proof.
  unfold GetByName. destruct name as [|a name]; [discriminate|].
  destruct (GetID daemon _) as [id [ge|]]; [discriminate|].
  destruct (containers daemon !! id) as [c'|] eqn:Hc; [|discriminate].
  intros [= <- <-]. eauto.
Qed.

Lemma GetByName_none daemon name err :
  GetByName daemon name = (None, err) -> err <> None.
Proof.
  unfold GetByName. destruct name as [|a name]; [intros [= <-]; discriminate|].
  destruct (GetID daemon _) as [id [ge|]]; [intros [= <-]; discriminate|].
  destruct (containers daemon !! id) as [c'|] eqn:Hc; [discriminate|].
  intros [= <-]. discriminate.
Qed.

Lemma GetContainer_cases daemon s :
  match GetContainer invalidIdentifier containerNotFound daemon s with
  | (Some c, err) => err = None /\ s <> "" /\ exists id, containers daemon !! id = Some c
  | (None, err) => err <> None
  end.
Proof.
  unfold GetContainer.
  destruct (decide (s = "")) as [Hs|Hs]; [discriminate|].
  destruct (containers daemon !! s) as [c|] eqn:Hc; [eauto|].
  destruct (GetByName daemon s) as [[c|] err] eqn:Hn; cbn [fst].
  - apply GetByName_sound in Hn as [_ Hex]. auto.
  - destruct (GetByPrefix daemon s) as [id [e|]]; [discriminate|].
    destruct (containers daemon !! id) as [c|] eqn:Hc'; [eauto|discriminate].
Qed.

End StoreFacts.

(** [GetContainer] returns either a container or an error, never both
    and never neither, and the container it returns is one of the memory
    store.  The empty string is refused.  A string that is the id of a
    container in the memory store finds that container, whatever the
    names and the id prefixes known to the view database; otherwise the
    container of that name wins over every id prefix; and only when
    the name finds nothing is the prefix looked up: its error is passed
    on, and an id that the memory store does not hold is reported as
    not found. *)
Theorem GetContainer_lookup_order (invalidIdentifier containerNotFound : string -> goerr)
    (daemon : Store.Daemon) (s : string) :
  (forall c err,
     Store.GetContainer invalidIdentifier containerNotFound daemon s = (Some c, err) ->
     err = None /\ s <> "" /\ exists id, Store.containers daemon !! id = Some c) /\
  (forall err,
     Store.GetContainer invalidIdentifier containerNotFound daemon s = (None, err) ->
     err <> None) /\
  (s = "" ->
   Store.GetContainer invalidIdentifier containerNotFound daemon s
   = (None, Some (invalidIdentifier ""))) /\
  (forall c, s <> "" -> Store.containers daemon !! s = Some c ->
     Store.GetContainer invalidIdentifier containerNotFound daemon s = (Some c, None)) /\
  (forall c, s <> "" -> Store.containers daemon !! s = None ->
     fst (Store.GetByName daemon s) = Some c ->
     Store.GetContainer invalidIdentifier containerNotFound daemon s = (Some c, None)) /\
  (forall id err, s <> "" -> Store.containers daemon !! s = None ->
     fst (Store.GetByName daemon s) = None ->
     Store.GetByPrefix daemon s = (id, err) ->
     Store.GetContainer invalidIdentifier containerNotFound daemon s =
       match err, Store.containers daemon !! id with
       | Some e, _ => (None, Some e)
       | None, Some c => (Some c, None)
       | None, None => (None, Some (containerNotFound s))
       end).
Proof.
  pose proof (GetContainer_cases invalidIdentifier containerNotFound daemon s) as H.
  split; [|split; [|split; [|split; [|split]]]].
  - intros c err Heq. now rewrite Heq in H.
  - intros err Heq. now rewrite Heq in H.
  - intros ->. reflexivity.
  - intros c Hs Hc. unfold Store.GetContainer.
    destruct (decide (s = "")); [contradiction|]. now rewrite Hc.
  - intros c Hs Hc Hn. unfold Store.GetContainer.
    destruct (decide (s = "")); [contradiction|]. now rewrite Hc, Hn.
  - intros id err Hs Hc Hn Hp. unfold Store.GetContainer.
    destruct (decide (s = "")); [contradiction|]. rewrite Hc, Hn, Hp.
    destruct err; [reflexivity|]. destruct (Store.containers daemon !! id); reflexivity.
Qed.

(** [GetByName] looks a name up with its leading slash: a name given
    without it finds the same container as the name given with it. *)
Theorem GetByName_leading_slash (daemon : Store.Daemon) (name : string) :
  name <> "" -> HasPrefix name "/" = false ->
  fst (Store.GetByName daemon name) = fst (Store.GetByName daemon ("/" ++ name)).
Proof.
  intros Hne Hp. destruct name as [|a name]; [contradiction|].
  cbn [HasPrefix] in Hp. unfold Store.GetByName.
  change ("/" ++ String a name)%string with (String "/"%char (String a name)).
  destruct (decide ("/"%char = a)) as [<-|Ha];
    [destruct name; discriminate Hp|].
  destruct (decide (a = "/"%char)) as [->|_]; [contradiction|].
  destruct (decide ("/"%char = "/"%char)); [|contradiction].
  change ("/" ++ String a name)%string with (String "/"%char (String a name)).
  destruct (Store.GetID daemon _) as [id [ge|]]; [reflexivity|].
  destruct (Store.containers daemon !! id); reflexivity.
Qed.

Lemma GetByName_leading_slash_witness :
  let c := Container.mkContainer "4f1e2d3c4b5a" "/var/lib/docker/containers/4f1e2d3c4b5a"
             0 false "sh" [] (Container.mkConfig "web" [] ["sh"]) "sha256:0" "/web"
             "overlay2" "linux/amd64" "linux" in
  let daemon :=
    Store.mkDaemon {[ "4f1e2d3c4b5a" := c ]}
      (fun n => if decide (n = "/web") then ("4f1e2d3c4b5a", None)
                else ("", Some (ErrExt "name is not reserved")))
      (fun _ => ("", Some (ErrExt "no such prefix"))) in
  fst (Store.GetByName daemon "web") = Some c /\
  fst (Store.GetByName daemon "/web") = Some c.
Proof.
  cbv zeta. split; [reflexivity|].
  rewrite <- (GetByName_leading_slash _ "web"); [reflexivity|discriminate|reflexivity].
Defined.

(** Once [register] has run, the container is found under its id,
    whether or not writing it to the view database succeeded; the
    containers stored under other ids are untouched, and a container
    that was stored under the same id is replaced. *)
Theorem register_then_GetContainer
    (invalidIdentifier containerNotFound : string -> goerr)
    (checkpointTo : Container.Container -> Store.Daemon ->
                    ((string -> string * error) * (string -> string * error)) * error)
    (daemon : Store.Daemon) (c : Container.Container) (openStdin : bool) :
  Container.ID c <> "" ->
  let daemon' := fst (fst (Store.register checkpointTo daemon c openStdin)) in
  Store.GetContainer invalidIdentifier containerNotFound daemon' (Container.ID c)
    = (Some c, None) /\
  (forall id, id <> Container.ID c ->
     Store.containers daemon' !! id = Store.containers daemon !! id) /\
  snd (fst (Store.register checkpointTo daemon c openStdin))
    = (if openStdin then Store.InputPipes else Store.NopInputPipe).
Proof.
  intros Hid. cbv zeta. unfold Store.register.
  destruct (checkpointTo c _) as [[g p] err]. cbn [fst snd Store.containers].
  split; [|split].
  - unfold Store.GetContainer. destruct (decide (Container.ID c = "")); [contradiction|].
    cbn [Store.containers]. now rewrite lookup_insert_eq.
  - intros id Hne. now rewrite lookup_insert_ne.
  - reflexivity.
Qed.

Lemma register_then_GetContainer_witness :
  let c := Container.mkContainer "4f1e2d3c4b5a" "/var/lib/docker/containers/4f1e2d3c4b5a"
             0 false "sh" [] (Container.mkConfig "web" [] ["sh"]) "sha256:0" "/web"
             "overlay2" "linux/amd64" "linux" in
  let emptyDaemon :=
    Store.mkDaemon ∅ (fun _ => ("", Some (ErrExt "name is not reserved")))
      (fun _ => ("", Some (ErrExt "no such prefix"))) in
  let failing := fun (_ : Container.Container) (d : Store.Daemon) =>
    ((Store.GetID d, Store.GetByPrefix d), Some (ErrExt "disk full")) in
  snd (Store.register failing emptyDaemon c false) = Some (ErrExt "disk full") /\
  Store.GetContainer ErrNew ErrNew
    (fst (fst (Store.register failing emptyDaemon c false))) "4f1e2d3c4b5a"
  = (Some c, None).
Proof.
  cbv zeta. split; [reflexivity|].
  refine (proj1 (register_then_GetContainer ErrNew ErrNew _ _
                   (Container.mkContainer "4f1e2d3c4b5a" _ _ _ _ _ _ _ _ _ _ _) false _)).
  discriminate.
Defined.

(** ** The container [newContainer] builds *)

Lemma getEntrypointAndArgs_concat ep cmd p a :
  Container.getEntrypointAndArgs ep cmd = Some (p, a) -> p :: a = ep ++ cmd.
Proof.
  destruct ep as [|x xs]; [destruct cmd as [|y ys]|].
  - discriminate.
  - rewrite getEntrypointAndArgs_cmd. now intros [= <- <-].
  - rewrite getEntrypointAndArgs_entrypoint. now intros [= <- <-].
Qed.

(** When [newContainer] returns a container it returns no error with
    it.  The container has the generated id and name, its root is the
    directory of that id in the repository, its command line is the
    entrypoint followed by the command of the configuration, and its
    host name is the configured one or, when none is configured, the
    name of the host for a container in the host's network and the
    first 12 bytes of the id otherwise. *)
Theorem newContainer_fields
    (gen : string -> (string * string) * error) (host : string * error)
    (repo drv : string) (now : Z) (name plat os : string)
    (config : Container.Config) (hc : Container.HostConfig) (img : string)
    (managed : bool) (c : Container.Container) (err : error) :
  Container.newContainer gen host repo drv now name plat os config hc img managed
    = Ok (c, err) ->
  err = None /\ snd (gen name) = None /\
  Container.ID c = fst (fst (gen name)) /\
  Container.Name c = snd (fst (gen name)) /\
  Container.Root c = Container.path_join repo (Container.ID c) /\
  Container.Path c :: Container.Args c
    = Container.Entrypoint config ++ Container.Cmd config /\
  Container.Entrypoint (Container.CConfig c) = Container.Entrypoint config /\
  Container.Cmd (Container.CConfig c) = Container.Cmd config /\
  Container.Hostname (Container.CConfig c)
    = (if decide (Container.Hostname config = "") then
         if Container.NetworkModeIsHost hc then fst host
         else String.substring 0 12 (Container.ID c)
       else Container.Hostname config) /\
  (Container.Hostname config = "" -> Container.NetworkModeIsHost hc = false ->
   12 <= String.length (Container.ID c)) /\
  Container.Managed c = managed /\ Container.ImageID c = img /\
  Container.Driver c = drv /\ Container.Created c = now.
Proof.
  unfold Container.newContainer.
  destruct (gen name) as [[id name'] [e|]]; [discriminate|].
  cbn [fst snd].
  destruct (decide (Container.Hostname config = "")) as [Hh|Hh].
  - destruct (Container.NetworkModeIsHost hc).
    + destruct host as [h [e|]]; [discriminate|].
      cbn [Container.Entrypoint Container.Cmd].
      destruct (Container.getEntrypointAndArgs _ _) as [[ep args]|] eqn:Hg;
        [|discriminate].
      intros [= <- <-]. cbn.
      repeat split; try congruence.
      now apply getEntrypointAndArgs_concat.
    + unfold Container.prefix12.
      destruct (Nat.ltb_spec (String.length id) 12); [discriminate|].
      cbn [Container.Entrypoint Container.Cmd].
      destruct (Container.getEntrypointAndArgs _ _) as [[ep args]|] eqn:Hg;
        [|discriminate].
      intros [= <- <-]. cbn.
      repeat split; try congruence; try lia.
      now apply getEntrypointAndArgs_concat.
  - cbn [Container.Entrypoint Container.Cmd].
    destruct (Container.getEntrypointAndArgs _ _) as [[ep args]|] eqn:Hg;
      [|discriminate].
    intros [= <- <-]. cbn.
    repeat split; try congruence.
    now apply getEntrypointAndArgs_concat.
Qed.

Lemma newContainer_fields_witness :
  exists c,
    Container.newContainer
      (fun n => (("4f1e2d3c4b5a69788796a5b4c3d2e1f0", "/" ++ n)%string, None))
      ("buildhost", None) "/var/lib/docker/containers" "overlay2" 0
      "web" "linux/amd64" "linux"
      (Container.mkConfig "" ["nginx"] ["-g"; "daemon off;"])
      (Container.mkHostConfig false) "sha256:0" false
    = Ok (c, None) /\
    Container.Path c :: Container.Args c = ["nginx"; "-g"; "daemon off;"] /\
    Container.Hostname (Container.CConfig c) = "4f1e2d3c4b5a".
Proof.
  eexists. split; [reflexivity|].
  destruct (newContainer_fields
              (fun n => (("4f1e2d3c4b5a69788796a5b4c3d2e1f0", "/" ++ n)%string, None))
              ("buildhost", None) "/var/lib/docker/containers" "overlay2" 0
              "web" "linux/amd64" "linux"
              (Container.mkConfig "" ["nginx"] ["-g"; "daemon off;"])
              (Container.mkHostConfig false) "sha256:0" false _ None eq_refl)
    as (_ & _ & _ & _ & _ & Hcmd & _ & _ & Hhost & _).
  split; [exact Hcmd|exact Hhost].
Defined.

(** ** Host normalisation and listener resolution, continued *)

Section HostFacts2.
Context (E : HostEnv).

Lemma normalizeLoop_result useTLS rest : forall hosts seen,
  (forall x, x ∈ seen -> x ∈ hosts) ->
  match normalizeLoop E useTLS rest hosts seen with
  | inl res =>
      Forall (fun h => snd (ParseHost E useTLS (honorXDG E) h) = None) rest /\
      (rest <> [] \/ hosts <> [] -> res <> [])
  | inr e =>
      exists pre h post,
        rest = pre ++ h :: post /\
        Forall (fun h => snd (ParseHost E useTLS (honorXDG E) h) = None) pre /\
        snd (ParseHost E useTLS (honorXDG E) h) = Some e
  end.
Proof.
  induction rest as [|h rest IH]; intros hosts seen Hseen; cbn [normalizeLoop].
  - split; [constructor|]. intros [H|H]; [contradiction|exact H].
  - destruct (ParseHost E useTLS (honorXDG E) h) as [host [err|]] eqn:Hp.
    + exists [], h, rest. rewrite Hp. auto.
    + destruct (bool_decide (host ∈ seen)) eqn:Hin.
      * apply bool_decide_eq_true in Hin.
        specialize (IH hosts seen Hseen).
        destruct (normalizeLoop E useTLS rest hosts seen) as [res|e].
        -- destruct IH as [Hall Hne].
           split; [constructor; [now rewrite Hp|exact Hall]|].
           intros _. apply Hne. right. intros ->.
           apply Hseen in Hin. now apply elem_of_nil in Hin.
        -- destruct IH as (pre & h' & post & -> & Hpre & Hh).
           exists (h :: pre), h', post. split; [reflexivity|].
           split; [constructor; [now rewrite Hp|exact Hpre]|exact Hh].
      * assert (Hseen' : forall x, x ∈ {[host]} ∪ seen -> x ∈ hosts ++ [host]).
        { intros x. rewrite elem_of_union, elem_of_singleton, elem_of_app,
            list_elem_of_singleton. intros [->|Hx]; [now right|left; auto]. }
        specialize (IH (hosts ++ [host]) ({[host]} ∪ seen) Hseen').
        destruct (normalizeLoop E useTLS rest _ _) as [res|e].
        -- destruct IH as [Hall Hne].
           split; [constructor; [now rewrite Hp|exact Hall]|].
           intros _. apply Hne. right. now destruct hosts.
        -- destruct IH as (pre & h' & post & -> & Hpre & Hh).
           exists (h :: pre), h', post. split; [reflexivity|].
           split; [constructor; [now rewrite Hp|exact Hpre]|exact Hh].
Qed.

Lemma sortStrings_nil_inv l : sortStrings l = [] -> l = [].
Proof.
  intros H. apply Permutation_nil_r. rewrite <- H. symmetry. apply sortStrings_perm.
Qed.

Lemma set_Hosts_same cfg : set_Hosts (Hosts cfg) cfg = cfg.
Proof. now destruct cfg. Qed.

(** [normalizeHosts] writes no field but [Hosts]. *)
Lemma normalizeHosts_only_hosts cfg :
  fst (normalizeHosts E cfg) = set_Hosts (Hosts (fst (normalizeHosts E cfg))) cfg.
Proof.
  unfold normalizeHosts.
  destruct (Nat.eqb (length (Hosts cfg)) 0);
    match goal with
    | |- context [normalizeLoop ?a ?b ?c ?d ?e] => destruct (normalizeLoop a b c d e)
    end; cbn [fst]; try reflexivity;
    now rewrite ?set_Hosts_same.
Qed.

(** The specifications [normalizeHosts] parses: those of the
    configuration, or the empty one when there is none. *)
Definition hostSpecs (cfg : Config) : list string :=
  if Nat.eqb (length (Hosts cfg)) 0 then [""] else Hosts cfg.

Lemma normalizeHosts_outcome cfg :
  let parse := ParseHost E (default (DefaultTLSValue E) (TLS cfg)) (honorXDG E) in
  Hosts (fst (normalizeHosts E cfg)) <> [] /\
  (snd (normalizeHosts E cfg) = None <->
   Forall (fun h => snd (parse h) = None) (hostSpecs cfg)) /\
  (forall e, snd (normalizeHosts E cfg) = Some e ->
     Hosts (fst (normalizeHosts E cfg)) = hostSpecs cfg /\
     exists pre h post,
       hostSpecs cfg = pre ++ h :: post /\
       Forall (fun h => snd (parse h) = None) pre /\
       snd (parse h) = Some e).
Proof.
  cbv zeta. unfold normalizeHosts, hostSpecs.
  assert (Htls : forall c : Config, TLS c = TLS cfg ->
            match TLS c with Some b => b | None => DefaultTLSValue E end
            = default (DefaultTLSValue E) (TLS cfg)).
  { intros c ->. now destruct (TLS cfg). }
  destruct (Nat.eqb (length (Hosts cfg)) 0) eqn:Hlen.
  - rewrite Htls by reflexivity.
    change (Hosts (set_Hosts [""] cfg)) with [""].
    pose proof (normalizeLoop_result (default (DefaultTLSValue E) (TLS cfg)) [""] [] ∅) as H.
    destruct (normalizeLoop E _ [""] [] ∅) as [res|e]; cbn [fst snd].
    + destruct H as [Hall Hne]; [set_solver|].
      split; [|split; [tauto|discriminate]].
      change (Hosts (set_Hosts (sortStrings res) (set_Hosts [""] cfg)))
        with (sortStrings res).
      intros Hs. apply sortStrings_nil_inv in Hs. apply Hne; [left; discriminate|exact Hs].
    + destruct H as (pre & h & post & Heq & Hpre & Hh); [set_solver|].
      split; [discriminate|]. split.
      * split; [discriminate|]. intros Hall. rewrite Heq in Hall.
        apply Forall_app in Hall as [_ Hall]. inversion Hall; congruence.
      * intros e' [= <-]. split; [reflexivity|]. exists pre, h, post. auto.
  - rewrite Htls by reflexivity.
    assert (Hne0 : Hosts cfg <> []) by (destruct (Hosts cfg); [discriminate|discriminate]).
    pose proof (normalizeLoop_result (default (DefaultTLSValue E) (TLS cfg))
                  (Hosts cfg) [] ∅) as H.
    destruct (normalizeLoop E _ (Hosts cfg) [] ∅) as [res|e]; cbn [fst snd].
    + destruct H as [Hall Hne]; [set_solver|].
      split; [|split; [tauto|discriminate]].
      change (Hosts (set_Hosts (sortStrings res) cfg)) with (sortStrings res).
      intros Hs. apply sortStrings_nil_inv in Hs. apply Hne; [left; exact Hne0|exact Hs].
    + destruct H as (pre & h & post & Heq & Hpre & Hh); [set_solver|].
      split; [exact Hne0|]. split.
      * split; [discriminate|]. intros Hall. rewrite Heq in Hall.
        apply Forall_app in Hall as [_ Hall]. inversion Hall; congruence.
      * intros e' [= <-]. split; [reflexivity|]. exists pre, h, post. auto.
Qed.

Lemma sortStrings_sorted_id l : Sorted String.le l -> sortStrings l = l.
Proof. intros H. symmetry. now apply sortStrings_unique. Qed.

(** [normalizeHosts] is idempotent when parsing is: if every host of
    the configuration parses to a specification that parses to
    itself, normalising the normalised configuration changes
    nothing. *)
Theorem normalizeHosts_idempotent cfg :
  Hosts cfg <> [] ->
  (forall h, h ∈ Hosts cfg ->
     let parse := ParseHost E (default (DefaultTLSValue E) (TLS cfg)) (honorXDG E) in
     snd (parse h) = None /\ parse (fst (parse h)) = (fst (parse h), None)) ->
  normalizeHosts E (fst (normalizeHosts E cfg)) = (fst (normalizeHosts E cfg), None).
Proof.
  cbv zeta. intros Hne Hstable.
  set (parse := ParseHost E (default (DefaultTLSValue E) (TLS cfg)) (honorXDG E)) in *.
  assert (Hwf : Forall (fun h => snd (parse h) = None) (Hosts cfg)).
  { apply Forall_forall. intros h Hh. now apply Hstable. }
  destruct (normalizeHosts_spec E cfg Hne Hwf) as (cfg' & Hn & Hsorted & Hnd & Hperm & _).
  rewrite Hn. cbn [fst].
  assert (Htls : TLS cfg' = TLS cfg).
  { pose proof (normalizeHosts_only_hosts cfg) as Ho. rewrite Hn in Ho. cbn [fst] in Ho.
    rewrite Ho. reflexivity. }
  assert (Hmem : forall h, h ∈ Hosts cfg' -> parse h = (h, None)).
  { intros h Hh. rewrite Hperm in Hh. rewrite elem_of_remove_dups in Hh.
    apply list_elem_of_fmap in Hh as (x & -> & Hx). now apply Hstable. }
  assert (Hne' : Hosts cfg' <> []).
  { pose proof (normalizeHosts_outcome cfg) as (Ho & _). now rewrite Hn in Ho. }
  assert (Hwf' : Forall (fun h => snd (ParseHost E (default (DefaultTLSValue E) (TLS cfg'))
                                 (honorXDG E) h) = None) (Hosts cfg')).
  { rewrite Htls. apply Forall_forall. intros h Hh. fold parse. now rewrite (Hmem h Hh). }
  assert (Hmap : map (fun x => fst (ParseHost E (default (DefaultTLSValue E) (TLS cfg'))
                                 (honorXDG E) x)) (Hosts cfg') = Hosts cfg').
  { rewrite Htls. fold parse. rewrite <- (map_id (Hosts cfg')) at 2.
    apply map_ext_in. intros h Hh. apply list_elem_of_In in Hh. now rewrite (Hmem h Hh). }
  destruct (normalizeHosts_spec E cfg' Hne' Hwf') as (cfg'' & Hn' & _ & _ & _ & Heq).
  rewrite Hmap in Heq. specialize (Heq Hnd).
  rewrite sortStrings_sorted_id in Heq by exact Hsorted.
  pose proof (normalizeHosts_only_hosts cfg') as Ho. rewrite Hn' in Ho. cbn [fst] in Ho.
  rewrite Heq, set_Hosts_same in Ho. now rewrite Hn', Ho.
Qed.

End HostFacts2.

(** [normalizeHosts] never leaves the host list empty: an empty list
    is replaced by the empty specification, which is then parsed like
    any other.  It succeeds exactly when every specification parses;
    when one does not, it returns the error of the first that does not
    and leaves the list of specifications as it found it. *)
Theorem normalizeHosts_reports_first_error (E : HostEnv) (cfg : Config) :
  let parse := ParseHost E (default (DefaultTLSValue E) (TLS cfg)) (honorXDG E) in
  Hosts (fst (normalizeHosts E cfg)) <> [] /\
  (snd (normalizeHosts E cfg) = None <->
   Forall (fun h => snd (parse h) = None) (hostSpecs cfg)) /\
  (forall e, snd (normalizeHosts E cfg) = Some e ->
     Hosts (fst (normalizeHosts E cfg)) = hostSpecs cfg /\
     exists pre h post,
       hostSpecs cfg = pre ++ h :: post /\
       Forall (fun h => snd (parse h) = None) pre /\
       snd (parse h) = Some e).
Proof. apply normalizeHosts_outcome. Qed.

Lemma normalizeHosts_idempotent_witness :
  Hosts (fst (normalizeHosts exampleHostEnv
                (fst (normalizeHosts exampleHostEnv
                        (exampleConfig ["unix:///var/run/docker.sock";
                                        "tcp://127.0.0.1:2375";
                                        "unix:///var/run/docker.sock"] None None)))))
  = ["tcp://127.0.0.1:2375"; "unix:///var/run/docker.sock"].
Proof.
  rewrite (normalizeHosts_idempotent exampleHostEnv
             (exampleConfig ["unix:///var/run/docker.sock"; "tcp://127.0.0.1:2375";
                             "unix:///var/run/docker.sock"] None None)).
  - vm_compute. reflexivity.
  - discriminate.
  - intros h _. split; reflexivity.
Defined.

Section ListenFacts.
Context (E : HostEnv).

Lemma append_String a s t : (String a s ++ t)%string = String a (s ++ t)%string.
Proof. reflexivity. Qed.

Lemma HasPrefix_split p : forall s,
  HasPrefix s p = true -> s = (p ++ drop_bytes (String.length p) s)%string.
Proof.
  induction p as [|a p IH]; intros s H.
  - now destruct s.
  - destruct s as [|b s]; [discriminate|]. cbn in H.
    destruct (decide (a = b)) as [->|]; [|discriminate].
    cbn [String.length drop_bytes]. rewrite append_String. f_equal. now apply IH.
Qed.

Lemma Cut_found sep s : forall a b,
  Cut s sep = (a, b, true) -> s = (a ++ sep ++ b)%string.
Proof.
  induction s as [|c s IH]; intros a b; cbn [Cut].
  - destruct (HasPrefix "" sep) eqn:Hp; [|discriminate].
    intros [= <- <-]. now apply HasPrefix_split in Hp.
  - destruct (HasPrefix (String c s) sep) eqn:Hp.
    + intros [= <- <-]. now apply HasPrefix_split in Hp.
    + destruct (Cut s sep) as [[before after] found].
      destruct found; [|discriminate].
      intros [= <- <-]. rewrite append_String. f_equal. now apply IH.
Qed.

Definition protoOf (h : string) : string := fst (fst (Cut h "://")).
Definition addrOf (h : string) : string := snd (fst (Cut h "://")).

Definition isBind (ev : LEvent) : bool :=
  match ev with
  | LAllocatePort _ | LInit _ _ => true
  | _ => false
  end.

(** What binding one host asks of the system: the reservation of the
    port for a tcp host, then the listener. *)
Definition bindEvents (h : string) : list LEvent :=
  (if bool_decide (protoOf h = "tcp") then [LAllocatePort (addrOf h)] else [])
  ++ [LInit (protoOf h) (addrOf h)].

(** A host that [loadListeners] gets past. *)
Definition bound (cfg : Config) (tc : option tlsConfig) (h : string) : Prop :=
  h = (protoOf h ++ "://" ++ addrOf h)%string /\
  snd (deterrent E cfg tc h (protoOf h) (addrOf h)) = None /\
  (protoOf h = "tcp" -> allocateDaemonPort E (addrOf h) = None) /\
  snd (listenersInit E (protoOf h) (addrOf h) (SocketGroup cfg) tc) = None.

Lemma filter_isBind_app a b :
  List.filter isBind (a ++ b) = List.filter isBind a ++ List.filter isBind b.
Proof. apply List.filter_app. Qed.

Lemma nonLoopbackDelay_no_bind pa ip :
  List.filter isBind (nonLoopbackDelay E pa ip) = [].
Proof.
  unfold nonLoopbackDelay.
  destruct (decide (ip = "localhost")); [reflexivity|].
  destruct (ParseIP E ip) as [a|].
  - destruct (negb (IsLoopback E a)); reflexivity.
  - destruct (ResolveIPAddr E ip) as [[a|] [err|]];
      try destruct (negb (IsLoopback E a)); reflexivity.
Qed.

Lemma deterrent_no_bind cfg tc pa proto addr :
  List.filter isBind (fst (deterrent E cfg tc pa proto addr)) = [].
Proof.
  unfold deterrent.
  destruct (bool_decide (proto = "tcp") && negb (authEnabled tc)); [|reflexivity].
  destruct (negb (checkTLSAuthOK E cfg)); [|reflexivity].
  destruct (SplitHostPort E addr) as [[ip port] [err|]]; cbn [fst]; [reflexivity|].
  rewrite filter_isBind_app, nonLoopbackDelay_no_bind. reflexivity.
Qed.

(** The failure of [loadListeners] at host [h]: the error, and what
    had been asked of the system for [h] by then. *)
Definition failsWith (cfg : Config) (tc : option tlsConfig) (h : string)
    (e : goerr) (asked : list LEvent) : Prop :=
  (snd (Cut h "://") = false /\
   e = ErrNew ("bad format " ++ h ++ ", expected PROTO://ADDR") /\ asked = []) \/
  (snd (Cut h "://") = true /\
   ((snd (deterrent E cfg tc h (protoOf h) (addrOf h)) = Some e /\ asked = []) \/
    (snd (deterrent E cfg tc h (protoOf h) (addrOf h)) = None /\
     ((protoOf h = "tcp" /\ allocateDaemonPort E (addrOf h) = Some e /\
       asked = [LAllocatePort (addrOf h)]) \/
      ((protoOf h = "tcp" -> allocateDaemonPort E (addrOf h) = None) /\
       snd (listenersInit E (protoOf h) (addrOf h) (SocketGroup cfg) tc) = Some e /\
       asked = bindEvents h))))).

Lemma listenLoop_trace cfg tc rest : forall hosts lss tr,
  match listenLoop E cfg tc rest hosts lss tr with
  | (inl (lss', hosts'), tr') =>
      Forall (bound cfg tc) rest /\
      List.filter isBind tr'
        = List.filter isBind tr ++ concat (map bindEvents rest) /\
      lss' = lss ++ concat (map (fun h => fst (listenersInit E (protoOf h) (addrOf h)
                                                 (SocketGroup cfg) tc)) rest)
  | (inr e, tr') =>
      exists pre h post asked,
        rest = pre ++ h :: post /\
        Forall (bound cfg tc) pre /\
        failsWith cfg tc h e asked /\
        List.filter isBind tr'
          = List.filter isBind tr ++ concat (map bindEvents pre) ++ asked
  end.
Proof.
  induction rest as [|h rest IH]; intros hosts lss tr; cbn [listenLoop].
  - cbn. rewrite !app_nil_r. auto.
  - destruct (Cut h "://") as [[proto addr] ok] eqn:Hcut.
    assert (Hp : protoOf h = proto) by (unfold protoOf; now rewrite Hcut).
    assert (Ha : addrOf h = addr) by (unfold addrOf; now rewrite Hcut).
    assert (Hbe : bindEvents h
                  = (if bool_decide (proto = "tcp") then [LAllocatePort addr] else [])
                    ++ [LInit proto addr])
      by (unfold bindEvents; now rewrite Hp, Ha).
    destruct ok; cbn [negb].
    2:{ exists [], h, rest, []. cbn. rewrite app_nil_r.
        split; [reflexivity|]. split; [constructor|]. split; [|reflexivity].
        left. rewrite Hcut. auto. }
    pose proof (Cut_found _ _ _ _ Hcut) as Hform.
    pose proof (deterrent_no_bind cfg tc h proto addr) as Hdet.
    destruct (deterrent E cfg tc h proto addr) as [evs [err|]] eqn:Hd; cbn [fst] in Hdet.
    { exists [], h, rest, [].
      split; [reflexivity|]. split; [constructor|]. split.
      - right. rewrite Hcut, Hp, Ha, Hd. split; [reflexivity|]. left. auto.
      - cbn [map concat]. now rewrite filter_isBind_app, Hdet, !app_nil_r. }
    assert (Hfail : forall e asked,
              (proto = "tcp" /\ allocateDaemonPort E addr = Some e /\
               asked = [LAllocatePort addr]) \/
              ((proto = "tcp" -> allocateDaemonPort E addr = None) /\
               snd (listenersInit E proto addr (SocketGroup cfg) tc) = Some e /\
               asked = bindEvents h) ->
              failsWith cfg tc h e asked).
    { intros e asked Hcase. right. rewrite Hcut, Hp, Ha, Hd.
      split; [reflexivity|]. right. split; [reflexivity|exact Hcase]. }
    assert (Hbound : (proto = "tcp" -> allocateDaemonPort E addr = None) ->
              snd (listenersInit E proto addr (SocketGroup cfg) tc) = None ->
              bound cfg tc h).
    { intros H1 H2. unfold bound. rewrite Hp, Ha, Hd. auto. }
    set (alloc := if bool_decide (proto = "tcp") then [LAllocatePort addr] else [])
      in *.
    assert (Halloc : List.filter isBind alloc = alloc)
      by (unfold alloc; destruct (bool_decide (proto = "tcp")); reflexivity).
    assert (Hstep : forall err0 : error,
              (if bool_decide (proto = "tcp")
               then ([LAllocatePort addr], err0) else ([], None))
              = (alloc, if bool_decide (proto = "tcp") then err0 else None)).
    { intros err0. unfold alloc. now destruct (bool_decide (proto = "tcp")). }
    rewrite Hstep.
    destruct (if bool_decide (proto = "tcp") then allocateDaemonPort E addr else None)
      as [err|] eqn:Hal.
    { assert (Htcp : proto = "tcp" /\ allocateDaemonPort E addr = Some err).
      { destruct (decide (proto = "tcp")) as [Ht|Ht];
          [rewrite (bool_decide_eq_true_2 _ Ht) in Hal; auto
          |rewrite (bool_decide_eq_false_2 _ Ht) in Hal; discriminate]. }
      destruct Htcp as [Htcp Hal'].
      assert (Hal2 : alloc = [LAllocatePort addr])
        by (unfold alloc; now rewrite (bool_decide_eq_true_2 _ Htcp)).
      exists [], h, rest, [LAllocatePort addr].
      split; [reflexivity|]. split; [constructor|]. split.
      - apply Hfail. left. auto.
      - cbn [map concat]. rewrite !filter_isBind_app, Hdet, Halloc, Hal2.
        now rewrite !app_nil_r. }
    assert (Hal' : proto = "tcp" -> allocateDaemonPort E addr = None).
    { intros Ht. now rewrite (bool_decide_eq_true_2 _ Ht) in Hal. }
    destruct (listenersInit E proto addr (SocketGroup cfg) tc) as [ls [err|]] eqn:Hl.
    { exists [], h, rest, (bindEvents h).
      split; [reflexivity|]. split; [constructor|]. split.
      - apply Hfail. right. auto.
      - cbn [map concat]. rewrite Hbe, !filter_isBind_app, Hdet, Halloc.
        cbn. now rewrite !app_nil_r. }
    specialize (IH (hosts ++ [addr]) (lss ++ ls)
                  (((tr ++ evs) ++ alloc ++ [LInit proto addr])
                   ++ [LDebug proto addr])).
    destruct (listenLoop E cfg tc rest _ _ _) as [[[lss' hosts']|e] tr'].
    + destruct IH as (Hall & Hf & Hlss).
      split; [constructor; [apply Hbound; auto|exact Hall]|].
      cbn [map concat]. rewrite Hbe, Hp, Ha, Hl. cbn [fst].
      rewrite Hf, Hlss, !filter_isBind_app, Hdet, Halloc. cbn.
      rewrite !app_nil_r, <- !app_assoc. auto.
    + destruct IH as (pre & h' & post & asked & -> & Hall & Hfl & Hf).
      exists (h :: pre), h', post, asked.
      split; [reflexivity|].
      split; [constructor; [apply Hbound; auto|exact Hall]|].
      split; [exact Hfl|].
      cbn [map concat]. rewrite Hbe.
      rewrite Hf, !filter_isBind_app, Hdet, Halloc. cbn.
      rewrite !app_nil_r, <- !app_assoc. reflexivity.
Qed.

End ListenFacts.

(** When [loadListeners] succeeds, every host of the configuration has
    the form PROTO://ADDR, passed the deterrent block and was bound;
    the system was asked, host after host in the order of the list, to
    reserve the port of a tcp host and then to listen, and for nothing
    else; and the listeners returned are those of the hosts, in that
    order. *)
Theorem loadListeners_binds_in_order (E : HostEnv) (cfg : Config)
    (tc : option tlsConfig) (lss : list Listener) (hosts : list string)
    (tr : list LEvent) :
  loadListeners E cfg tc = (inl (lss, hosts), tr) ->
  Hosts cfg <> [] /\
  Forall (bound E cfg tc) (Hosts cfg) /\
  List.filter isBind tr = concat (map bindEvents (Hosts cfg)) /\
  lss = concat (map (fun h => fst (listenersInit E (protoOf h) (addrOf h)
                                     (SocketGroup cfg) tc)) (Hosts cfg)).
Proof.
  unfold loadListeners.
  destruct (Nat.eqb (length (Hosts cfg)) 0) eqn:Hlen; [discriminate|].
  intros H. pose proof (listenLoop_trace E cfg tc (Hosts cfg) [] [] []) as Ht.
  rewrite H in Ht. destruct Ht as (Hall & Hf & Hlss).
  split; [now destruct (Hosts cfg)|]. auto.
Qed.

Lemma loadListeners_binds_in_order_witness :
  exists tr,
    loadListeners exampleHostEnv
      (exampleConfig ["tcp://127.0.0.1:2375"; "unix:///var/run/docker.sock"]
         (Some false) None) None
    = (inl ([mkListener "127.0.0.1:2375" 3; mkListener "/var/run/docker.sock" 3],
            ["127.0.0.1:2375"; "/var/run/docker.sock"]), tr) /\
    List.filter isBind tr
    = [LAllocatePort "127.0.0.1:2375"; LInit "tcp" "127.0.0.1:2375";
       LInit "unix" "/var/run/docker.sock"].
Proof.
  eexists. split; [vm_compute; reflexivity|].
  refine (eq_trans (proj1 (proj2 (proj2
            (loadListeners_binds_in_order exampleHostEnv
               (exampleConfig ["tcp://127.0.0.1:2375"; "unix:///var/run/docker.sock"]
                  (Some false) None) None _ _ _ _)))) _).
  - vm_compute. reflexivity.
  - vm_compute. reflexivity.
Defined.

(** When [loadListeners] fails, it fails at the first host that
    cannot be bound and looks at no later host: either there is no
    host at all, or the hosts before the failing one were bound in
    order, and the error is that of the failing host: its bad format,
    the refusal of the deterrent block, of the port reservation, or of
    the listener. *)
Theorem loadListeners_fails_fast (E : HostEnv) (cfg : Config)
    (tc : option tlsConfig) (e : goerr) (tr : list LEvent) :
  loadListeners E cfg tc = (inr e, tr) ->
  (Hosts cfg = [] /\ e = ErrNew "no hosts configured" /\ tr = []) \/
  exists pre h post asked,
    Hosts cfg = pre ++ h :: post /\
    Forall (bound E cfg tc) pre /\
    failsWith E cfg tc h e asked /\
    List.filter isBind tr = concat (map bindEvents pre) ++ asked.
Proof.
  unfold loadListeners.
  destruct (Nat.eqb (length (Hosts cfg)) 0) eqn:Hlen.
  - intros [= <- <-]. left. split; [|auto].
    destruct (Hosts cfg); [reflexivity|discriminate].
  - intros H. right.
    pose proof (listenLoop_trace E cfg tc (Hosts cfg) [] [] []) as Ht.
    rewrite H in Ht. exact Ht.
Qed.

Lemma loadListeners_fails_fast_witness :
  exists tr,
    loadListeners exampleHostEnv
      (exampleConfig ["unix:///var/run/docker.sock"; "127.0.0.1:2375";
                      "tcp://0.0.0.0:2376"] (Some false) None) None
    = (inr (ErrNew "bad format 127.0.0.1:2375, expected PROTO://ADDR"), tr) /\
    List.filter isBind tr = [LInit "unix" "/var/run/docker.sock"].
Proof.
  eexists. split; [vm_compute; reflexivity|].
  destruct (loadListeners_fails_fast exampleHostEnv
              (exampleConfig ["unix:///var/run/docker.sock"; "127.0.0.1:2375";
                              "tcp://0.0.0.0:2376"] (Some false) None) None _ _
              ltac:(vm_compute; reflexivity))
    as [(Hnil & _)|(pre & h & post & asked & Hh & _ & _ & Hf)].
  - discriminate Hnil.
  - vm_compute. reflexivity.
Defined.

(** ** The configuration of a new daemon *)

Section CliFacts.
Context (E : CliEnv).

Lemma normalizeHosts_accepts H cfg cfg' :
  normalizeHosts H cfg = (cfg', None) ->
  Hosts cfg' <> [] /\ Sorted String.le (Hosts cfg') /\ NoDup (Hosts cfg') /\
  Features cfg' = Features cfg /\ CDISpecDirs cfg' = CDISpecDirs cfg.
Proof.
  intros Hn.
  pose proof (normalizeHosts_outcome H cfg) as (Hne & Hok & _).
  rewrite Hn in Hne, Hok. cbn [fst snd] in Hne, Hok.
  assert (Hwf := proj1 Hok eq_refl).
  pose proof (normalizeHosts_only_hosts H cfg) as Ho. rewrite Hn in Ho. cbn [fst] in Ho.
  split; [exact Hne|].
  assert (Hs : Sorted String.le (Hosts cfg') /\ NoDup (Hosts cfg')).
  { unfold hostSpecs in Hwf.
    destruct (Nat.eqb (length (Hosts cfg)) 0) eqn:Hlen.
    - (* the empty list stands for the one empty specification *)
      assert (Heq : normalizeHosts H (set_Hosts [""] cfg) = normalizeHosts H cfg).
      { unfold normalizeHosts. rewrite Hlen.
        change (Hosts (set_Hosts [""] cfg)) with [""]. cbn [length Nat.eqb].
        reflexivity. }
      destruct (normalizeHosts_spec H (set_Hosts [""] cfg)) as (c & Hc & Hso & Hnd & _).
      + discriminate.
      + exact Hwf.
      + rewrite Heq, Hn in Hc. injection Hc as <-. auto.
    - destruct (normalizeHosts_spec H cfg) as (c & Hc & Hso & Hnd & _).
      + destruct (Hosts cfg); [discriminate|discriminate].
      + exact Hwf.
      + rewrite Hn in Hc. injection Hc as <-. auto. }
  destruct Hs as [Hso Hnd]. rewrite Ho. auto.
Qed.

Lemma forceTLS_frame conf :
  Hosts (forceTLS conf) = Hosts conf /\
  Features (forceTLS conf) = Features conf /\
  CDISpecDirs (forceTLS conf) = CDISpecDirs conf.
Proof.
  unfold forceTLS.
  destruct (IsValueSet conf FlagTLSVerify); cbn;
    destruct (TLSVerify conf); cbn; try destruct (TLS conf); cbn; auto.
Qed.

Lemma cdiSpecDirs_result conf :
  Hosts (cdiSpecDirs E conf) = Hosts conf /\
  Features (cdiSpecDirs E conf) = Features conf /\
  CDISpecDirs (cdiSpecDirs E conf) =
    (if bool_decide (Features conf !! "cdi" = Some false) then None
     else match CDISpecDirs conf with
          | None => match DefaultSpecDirs E with [] => None | l => Some l end
          | Some [d] => if decide (d = "") then None else Some [d]
          | Some l => Some l
          end).
Proof.
  unfold cdiSpecDirs.
  destruct (CDISpecDirs conf) as [[|d [|d' l]]|] eqn:Hc; cbn;
    try destruct (decide (d = "")); cbn;
    destruct (Features conf !! "cdi") as [[|]|] eqn:Hf; cbn;
    rewrite ?Hc, ?Hf; auto;
    destruct (DefaultSpecDirs E); auto.
Qed.

Lemma finishConfig_hosts_cdi c1 conf :
  finishConfig E c1 = inl conf ->
  Hosts conf <> [] /\ Sorted String.le (Hosts conf) /\ NoDup (Hosts conf) /\
  Features conf = Features c1 /\
  CDISpecDirs conf =
    (if bool_decide (Features c1 !! "cdi" = Some false) then None
     else match CDISpecDirs c1 with
          | None => match DefaultSpecDirs E with [] => None | l => Some l end
          | Some [d] => if decide (d = "") then None else Some [d]
          | Some l => Some l
          end).
Proof.
  unfold finishConfig.
  destruct (normalizeHosts (cliHostEnv E) c1) as [cn [err|]] eqn:Hn; [discriminate|].
  apply normalizeHosts_accepts in Hn as (Hne & Hso & Hnd & Hfe & Hcd).
  destruct (Validate E cn); [discriminate|].
  destruct (GetConflictFreeLabels E (Labels cn)) as [labels [err|]]; [discriminate|].
  destruct (validateCPURealtimeOptions E _); [discriminate|].
  destruct (setPlatformOptions E _); [discriminate|].
  intros [= <-].
  destruct (cdiSpecDirs_result (forceTLS (set_Labels labels cn))) as (-> & -> & ->).
  destruct (forceTLS_frame (set_Labels labels cn)) as (-> & -> & ->).
  cbn. rewrite Hfe, Hcd. auto.
Qed.

End CliFacts.

(** Every configuration [loadDaemonCliConfig] accepts comes from
    parsed flags and has a host list that is not empty, sorted and free
    of duplicates, so that listener resolution never finds it without
    hosts: every failure of listener resolution is the failure of one
    of its hosts.  Its CDI spec directories are not the single empty
    string (unless that is the default), and there are none when the
    feature "cdi" is switched off; hence, on Linux, there are none
    whenever [cdiEnabled] is false. *)
Theorem loadDaemonCliConfig_hosts_and_cdi (E : CliEnv) (opts : daemonOptions)
    (conf : Config) :
  loadDaemonCliConfig E opts = inl conf ->
  Parsed (flags opts) = true /\
  Hosts conf <> [] /\ Sorted String.le (Hosts conf) /\ NoDup (Hosts conf) /\
  (forall H tc e tr, loadListeners H conf tc = (inr e, tr) ->
     exists pre h post asked,
       Hosts conf = pre ++ h :: post /\ failsWith H conf tc h e asked) /\
  (DefaultSpecDirs E <> [""] -> CDISpecDirs conf <> Some [""]) /\
  (Features conf !! "cdi" = Some false -> CDISpecDirs conf = None) /\
  (forall S : StartEnv, goosLinux S = true -> cdiEnabled S conf = false ->
     CDISpecDirs conf = None).
Proof.
  unfold loadDaemonCliConfig.
  destruct (Parsed (flags opts)); [|discriminate]. cbn [negb].
  destruct (flagsConfig E (setDefaultOptions E opts)) as [c0|err]; [|discriminate].
  destruct (mergeFile E (setDefaultOptions E opts) c0) as [c1|err]; [|discriminate].
  intros Hfin.
  destruct (finishConfig_hosts_cdi E c1 conf Hfin) as (Hne & Hso & Hnd & Hfe & Hcd).
  split; [reflexivity|]. split; [exact Hne|]. split; [exact Hso|]. split; [exact Hnd|].
  assert (Hoff : Features conf !! "cdi" = Some false -> CDISpecDirs conf = None).
  { rewrite Hcd, Hfe. intros Hf. now rewrite (bool_decide_eq_true_2 _ Hf). }
  split; [|split; [|split; [exact Hoff|]]].
  - intros H tc e tr. unfold loadListeners.
    destruct (Hosts conf) as [|h hs]; [contradiction|]. cbn [length Nat.eqb].
    pose proof (listenLoop_trace H conf tc (h :: hs) [] [] []) as Ht.
    intros Heq. rewrite Heq in Ht.
    destruct Ht as (pre & h' & post & asked & Hsplit & _ & Hfail & _).
    exists pre, h', post, asked. auto.
  - intros Hdef. rewrite Hcd. destruct (bool_decide _); [congruence|].
    destruct (CDISpecDirs c1) as [[|d [|d' l]]|]; try congruence.
    + destruct (decide (d = "")); congruence.
    + destruct (DefaultSpecDirs E); congruence.
  - intros S Hlin Hen. apply Hoff. unfold cdiEnabled in Hen. rewrite Hlin in Hen.
    cbn [negb] in Hen. destruct (Features conf !! "cdi") as [[|]|]; congruence.
Qed.

Lemma loadDaemonCliConfig_hosts_and_cdi_witness :
  exists conf,
    loadDaemonCliConfig exampleCliEnv exampleOptions = inl conf /\
    Hosts conf = ["tcp://127.0.0.1:2376"] /\
    CDISpecDirs conf = Some ["/etc/cdi"; "/var/run/cdi"] /\
    Sorted String.le (Hosts conf).
Proof.
  destruct (loadDaemonCliConfig exampleCliEnv exampleOptions) as [conf|err] eqn:H;
    [|vm_compute in H; discriminate].
  exists conf. split; [reflexivity|].
  destruct (loadDaemonCliConfig_hosts_and_cdi exampleCliEnv exampleOptions conf H)
    as (_ & _ & Hso & _).
  vm_compute in H. injection H as <-.
  split; [reflexivity|]. split; [reflexivity|exact Hso].
Defined.

Lemma newAPIServerTLSConfig_spec
    (srv : TLSOptions -> ClientAuthType -> option tlsConfig * error)
    (cfg : Config) (tc : option tlsConfig) :
  (forall o ca tc, srv o ca = (tc, None) ->
     exists c, tc = Some c /\ ClientAuth c = ca) ->
  newAPIServerTLSConfig srv cfg = (tc, None) ->
  (tc <> None <-> TLS cfg = Some true) /\
  (authEnabled tc = true <-> TLS cfg = Some true /\ TLSVerify cfg <> Some false).
Proof.
  intros Hsrv. unfold newAPIServerTLSConfig.
  destruct (TLS cfg) as [[|]|] eqn:Htls.
  - destruct (srv (TLSOpts cfg) _) as [tc' [err|]] eqn:Hs; [discriminate|].
    destruct (Hsrv _ _ _ Hs) as (c & -> & Hca). intros [= <-].
    split; [split; [reflexivity|discriminate]|].
    unfold authEnabled. rewrite Hca.
    destruct (TLSVerify cfg) as [[|]|].
    + rewrite bool_decide_eq_true_2 by reflexivity.
      split; [intros _; split; [reflexivity|discriminate]|reflexivity].
    + rewrite bool_decide_eq_false_2 by discriminate.
      split; [discriminate|]. intros [_ H]. now contradiction H.
    + rewrite bool_decide_eq_true_2 by reflexivity.
      split; [intros _; split; [reflexivity|discriminate]|reflexivity].
  - intros [= <-]. split; [split; [contradiction|discriminate]|].
    split; [discriminate|intros [? _]; discriminate].
  - intros [= <-]. split; [split; [contradiction|discriminate]|].
    split; [discriminate|intros [? _]; discriminate].
Qed.

(** For every daemon CLI that [newDaemonCLI] builds, given that
    [tlsconfig.Server] answers a configuration with the client
    authentication it was asked for: the API server has a TLS
    configuration exactly when TLS is on; client certificates are
    verified exactly when TLS is on and verification is not switched
    off; whenever TLS is set at all the posture is one
    [checkTLSAuthOK] accepts, so that its cautious branch for a missing
    [TLSVerify] is never taken; and with verification on, listener
    resolution neither sleeps nor warns. *)
Theorem newDaemonCLI_tls_posture (E : CliEnv)
    (tlsconfigServer : TLSOptions -> ClientAuthType -> option tlsConfig * error)
    (opts : daemonOptions) (cli : Cli.daemonCLI) :
  (forall o ca tc, tlsconfigServer o ca = (tc, None) ->
     exists c, tc = Some c /\ ClientAuth c = ca) ->
  Cli.newDaemonCLI E tlsconfigServer opts = inl cli ->
  loadDaemonCliConfig E opts = inl (Cli.cliConfig cli) /\
  (Cli.apiTLSConfig cli <> None <-> TLS (Cli.cliConfig cli) = Some true) /\
  (authEnabled (Cli.apiTLSConfig cli) = true <->
   TLS (Cli.cliConfig cli) = Some true /\ TLSVerify (Cli.cliConfig cli) = Some true) /\
  (forall H, TLS (Cli.cliConfig cli) <> None ->
     checkTLSAuthOK H (Cli.cliConfig cli) = true) /\
  (TLS (Cli.cliConfig cli) = Some true ->
   TLSVerify (Cli.cliConfig cli) = Some true ->
   forall H r tr,
     loadListeners H (Cli.cliConfig cli) (Cli.apiTLSConfig cli) = (r, tr) ->
     slept tr = 0%Z /\ warnings tr = 0).
Proof.
  intros Hsrv. unfold Cli.newDaemonCLI.
  destruct (loadDaemonCliConfig E opts) as [cfg|err] eqn:Hload; [|discriminate].
  assert (Hver : TLS cfg <> None -> TLSVerify cfg <> None).
  { revert Hload. unfold loadDaemonCliConfig.
    destruct (negb (Parsed (flags opts))); [discriminate|].
    destruct (flagsConfig E (setDefaultOptions E opts)) as [c0|?]; [|discriminate].
    destruct (mergeFile E (setDefaultOptions E opts) c0) as [c1|?]; [|discriminate].
    intros Hfin. destruct (finishConfig_spec E c1 cfg Hfin) as (_ & Hv & _).
    rewrite Hv. destruct (TLSVerify c1); [discriminate|auto]. }
  destruct (newAPIServerTLSConfig tlsconfigServer cfg) as [tc [err|]] eqn:Hn;
    [discriminate|].
  intros [= <-]. cbn [Cli.cliConfig Cli.apiTLSConfig].
  destruct (newAPIServerTLSConfig_spec tlsconfigServer cfg tc Hsrv Hn) as [Hsome Hauth].
  split; [reflexivity|]. split; [exact Hsome|].
  assert (Hauth' : authEnabled tc = true <-> TLS cfg = Some true /\ TLSVerify cfg = Some true).
  { rewrite Hauth. split; intros [Ht Hv]; (split; [exact Ht|]).
    - destruct (TLSVerify cfg) as [[|]|]; [reflexivity|contradiction|].
      exfalso. apply Hver; [rewrite Ht; discriminate|reflexivity].
    - rewrite Hv. discriminate. }
  split; [exact Hauth'|]. split.
  - intros H Ht. unfold checkTLSAuthOK.
    destruct (TLS cfg) as [[|]|]; [|reflexivity|contradiction].
    destruct (TLSVerify cfg) eqn:Hv; [reflexivity|].
    exfalso. apply Hver; [discriminate|reflexivity].
  - intros Ht Hv H r tr Hl.
    assert (Ha : authEnabled tc = true) by (apply Hauth'; auto).
    unfold loadListeners in Hl.
    destruct (Nat.eqb (length (Hosts cfg)) 0);
      [injection Hl as <- <-; split; reflexivity|].
    apply (listenLoop_auth H cfg tc (Hosts cfg) [] [] [] r tr Ha) in Hl.
    exact Hl.
Qed.

Lemma newDaemonCLI_tls_posture_witness :
  exists cli,
    Cli.newDaemonCLI exampleCliEnv (fun _ ca => (Some (mkTlsConfig ca), None))
      exampleOptions = inl cli /\
    Cli.apiTLSConfig cli = Some (mkTlsConfig NoClientCert) /\
    authEnabled (Cli.apiTLSConfig cli) = false /\
    checkTLSAuthOK exampleHostEnv (Cli.cliConfig cli) = true.
Proof.
  destruct (Cli.newDaemonCLI exampleCliEnv (fun _ ca => (Some (mkTlsConfig ca), None))
              exampleOptions) as [cli|err] eqn:H;
    [|vm_compute in H; discriminate].
  exists cli. split; [reflexivity|].
  destruct (newDaemonCLI_tls_posture exampleCliEnv
              (fun _ ca => (Some (mkTlsConfig ca), None)) exampleOptions cli)
    as (_ & _ & _ & Hok & _).
  - intros o ca tc [= <-]. eauto.
  - exact H.
  - vm_compute in H. injection H as <-.
    split; [reflexivity|]. split; [reflexivity|].
    apply Hok. discriminate.
Defined.

(** ** Authorization plugins and the log of a reload *)

(** [validateAuthzPlugins] accepts a list of plugins exactly when the
    plugin store knows every one of them; otherwise it returns the
    error of the first plugin the store does not know. *)
Theorem validateAuthzPlugins_first_error (plugins : list string)
    (get : string -> error) :
  (Reload.validateAuthzPlugins plugins get = None
   <-> Forall (fun p => get p = None) plugins) /\
  (forall e, Reload.validateAuthzPlugins plugins get = Some e ->
     exists pre p post,
       plugins = pre ++ p :: post /\ Forall (fun p => get p = None) pre /\
       get p = Some e).
Proof.
  induction plugins as [|p rest [IH1 IH2]]; cbn [Reload.validateAuthzPlugins].
  - split; [split; [constructor|reflexivity]|discriminate].
  - destruct (get p) as [e|] eqn:Hp.
    + split.
      * split; [discriminate|]. intros H. inversion H; congruence.
      * intros e' [= <-]. exists [], p, rest. auto.
    + split.
      * rewrite IH1. split; [now constructor|]. intros H. now inversion H.
      * intros e He. destruct (IH2 e He) as (pre & q & post & -> & Hpre & Hq).
        exists (p :: pre), q, post. split; [reflexivity|]. split; [|exact Hq].
        now constructor.
Qed.

(** The log of [reloadConfig] opens with the line that acknowledges
    the signal and has at most three more lines.  It closes with
    "Reloaded configuration" exactly when the configuration was read
    again and its authorization plugins validated: also when the
    daemon core then refused the configuration, in which case the
    error line of the refusal comes before it. *)
Theorem reloadConfig_log_shape (E : Reload.ReloadEnv) (st : Reload.State) :
  head (Reload.log (Reload.reloadConfig E st))
    = Some (Reload.Info "Got signal to reload configuration") /\
  2 <= length (Reload.log (Reload.reloadConfig E st)) <= 4 /\
  (last (Reload.log (Reload.reloadConfig E st))
     = Some (Reload.Info "Reloaded configuration")
   <-> exists cfg,
         Reload.reparse E = inl cfg /\
         Reload.validateAuthzPlugins (AuthorizationPlugins cfg) (Reload.pluginGet E)
           = None) /\
  (forall cfg err,
     Reload.reparse E = inl cfg ->
     Reload.validateAuthzPlugins (AuthorizationPlugins cfg) (Reload.pluginGet E)
       = None ->
     Reload.coreReload E (Reload.liveConfig st) cfg = inr err ->
     exists warn,
       Reload.log (Reload.reloadConfig E st)
       = [Reload.Info "Got signal to reload configuration";
          Reload.Error "Error reconfiguring the daemon" err] ++ warn ++
         [Reload.Info "Reloaded configuration"]).
Proof.
  unfold Reload.reloadConfig, Reload.configReload, Reload.reload, Reload.daemonReload.
  destruct (Reload.reparse E) as [cfg|err0] eqn:Hp.
  2:{ cbn. split; [reflexivity|]. split; [lia|].
      split; [|intros ? ? [=]].
      split; [discriminate|]. intros (? & [=] & _). }
  destruct (Reload.validateAuthzPlugins _ _) as [err1|] eqn:Hv.
  { cbn. split; [reflexivity|]. split; [lia|].
    split; [|intros ? ? [= <-]; congruence].
    split; [discriminate|]. intros (c & [= <-] & Hc). congruence. }
  cbn -[Reload.toggleDebug].
  destruct (Reload.coreReload E (Reload.liveConfig st) cfg) as [live|err2] eqn:Hc.
  - cbn -[Reload.toggleDebug].
    match goal with
    | |- context [Reload.marshal E ?c] => destruct (Reload.marshal E c)
    end; cbn;
      (split; [reflexivity|]); (split; [lia|]);
      (split; [split; [intros _; eauto|reflexivity]
              |intros c e [= <-] _ Hcr; congruence]).
  - cbn. destruct (Reload.marshal E (Reload.liveConfig st)) as [s|e]; cbn;
      (split; [reflexivity|]); (split; [lia|]);
      (split; [split; [intros _; eauto|reflexivity]|]);
      intros c e' [= <-] _ Hcr;
      assert (e' = err2) as -> by congruence.
    + exists []. reflexivity.
    + eexists [_]. reflexivity.
Qed.

Section ContainerConfigFacts.
Import Verify.
Context (C : ConfigEnv).

Lemma validateEnvs_iff env :
  validateEnvs C env = None <-> Forall (fun e => ValidateEnv C e = None) env.
Proof.
  induction env as [|e env IH]; cbn [validateEnvs].
  - split; [constructor|reflexivity].
  - destruct (ValidateEnv C e) eqn:He.
    + split; [discriminate|]. intros H. inversion H; congruence.
    + rewrite IH. split; [now constructor|]. intros H. now inversion H.
Qed.

(** Whether [translateWorkingDir] takes the working directory for an
    absolute path. *)
Definition absolute (wd : string) : bool :=
  IsAbs C (FromSlash C wd) || HasPrefix (FromSlash C wd) (PathSeparator C).

Lemma translateWorkingDir_spec c :
  StopSignal (fst (translateWorkingDir C c)) = StopSignal c /\
  Env (fst (translateWorkingDir C c)) = Env c /\
  Healthcheck (fst (translateWorkingDir C c)) = Healthcheck c /\
  WorkingDir (fst (translateWorkingDir C c)) =
    (if negb (bool_decide (WorkingDir c = "")) && absolute (WorkingDir c)
     then Clean C (FromSlash C (WorkingDir c)) else WorkingDir c) /\
  (snd (translateWorkingDir C c) = None
   <-> WorkingDir c = "" \/ absolute (WorkingDir c) = true).
Proof.
  unfold translateWorkingDir, absolute.
  destruct (decide (WorkingDir c = "")) as [Hw|Hw].
  - rewrite (bool_decide_eq_true_2 _ Hw). cbn. repeat split; auto.
  - rewrite (bool_decide_eq_false_2 _ Hw). cbn [negb andb].
    destruct (IsAbs C _), (HasPrefix _ _); cbn;
      repeat split; auto; try discriminate; intros [?|?]; congruence.
Qed.

Lemma validateContainerConfig_spec c :
  exists c',
    fst (validateContainerConfig C (Some c)) = Some c' /\
    StopSignal c' = StopSignal c /\ Env c' = Env c /\
    Healthcheck c' = Healthcheck c /\
    WorkingDir c' =
      (if negb (bool_decide (WorkingDir c = "")) && absolute (WorkingDir c)
       then Clean C (FromSlash C (WorkingDir c)) else WorkingDir c) /\
    (snd (validateContainerConfig C (Some c)) = None <->
     (WorkingDir c = "" \/ absolute (WorkingDir c) = true) /\
     (StopSignal c <> "" -> ParseSignal C (StopSignal c) = None) /\
     Forall (fun e => ValidateEnv C e = None) (Env c) /\
     validateHealthCheck (cMinimumDuration C) (cShowDuration C) (Healthcheck c)
       = None).
Proof.
  cbn [validateContainerConfig].
  destruct (translateWorkingDir_spec c) as (Hs & He & Hh & Hw & Hok).
  destruct (translateWorkingDir C c) as [c' [err|]]; cbn [fst snd] in *.
  { exists c'. do 5 (split; [first [reflexivity|assumption]|]).
    split; [discriminate|]. intros (H & _). apply Hok in H. discriminate. }
  assert (Hwd := proj1 Hok eq_refl).
  rewrite Hs, He, Hh.
  set (sig := if negb (bool_decide (StopSignal c = ""))
              then ParseSignal C (StopSignal c) else None).
  assert (Hsig : sig = None <-> (StopSignal c <> "" -> ParseSignal C (StopSignal c) = None)).
  { unfold sig. destruct (decide (StopSignal c = "")) as [H|H].
    - rewrite (bool_decide_eq_true_2 _ H). cbn. split; [intros _ ?; contradiction|auto].
    - rewrite (bool_decide_eq_false_2 _ H). cbn. split; auto. }
  pose proof (validateEnvs_iff (Env c)) as Henv.
  destruct sig as [err|]; cbn [fst snd].
  { exists c'. do 5 (split; [first [reflexivity|assumption]|]).
    split; [discriminate|]. intros (_ & H & _). apply Hsig in H. discriminate. }
  destruct (validateEnvs C (Env c)) as [err|]; cbn [fst snd].
  { exists c'. do 5 (split; [first [reflexivity|assumption]|]).
    split; [discriminate|]. intros (_ & _ & H & _). apply Henv in H. discriminate. }
  exists c'. do 5 (split; [first [reflexivity|assumption]|]).
  split.
  - intros H. split; [exact Hwd|]. split; [now apply Hsig|]. split; [now apply Henv|exact H].
  - intros (_ & _ & _ & H). exact H.
Qed.

End ContainerConfigFacts.

(** [validateContainerConfig] accepts a container configuration
    exactly when its working directory is empty or absolute, its stop
    signal is empty or parses, every environment variable validates and
    the health check is valid; no configuration at all is accepted.  It
    writes no field but the working directory, which it replaces by its
    cleaned form when it is not empty and absolute: also when a later
    check then refuses the configuration. *)
Theorem validateContainerConfig_accepts_iff (C : Verify.ConfigEnv)
    (config : option Verify.ContainerConfig) :
  match config with
  | None => Verify.validateContainerConfig C config = (None, None)
  | Some c =>
      exists c',
        fst (Verify.validateContainerConfig C config) = Some c' /\
        Verify.StopSignal c' = Verify.StopSignal c /\
        Verify.Env c' = Verify.Env c /\
        Verify.Healthcheck c' = Verify.Healthcheck c /\
        Verify.WorkingDir c' =
          (if negb (bool_decide (Verify.WorkingDir c = ""))
              && absolute C (Verify.WorkingDir c)
           then Verify.Clean C (Verify.FromSlash C (Verify.WorkingDir c))
           else Verify.WorkingDir c) /\
        (snd (Verify.validateContainerConfig C config) = None <->
         (Verify.WorkingDir c = "" \/ absolute C (Verify.WorkingDir c) = true) /\
         (Verify.StopSignal c <> "" ->
          Verify.ParseSignal C (Verify.StopSignal c) = None) /\
         Forall (fun e => Verify.ValidateEnv C e = None) (Verify.Env c) /\
         Verify.validateHealthCheck (Verify.cMinimumDuration C)
           (Verify.cShowDuration C) (Verify.Healthcheck c) = None)
  end.
Proof.
  destruct config as [c|]; [|reflexivity]. apply validateContainerConfig_spec.
Qed.

(** [verifyContainerSettings] succeeds exactly when the container
    configuration, the host configuration and the platform settings are
    all accepted.  It examines the host configuration only when the
    container configuration is accepted, and the platform settings only
    when the host configuration is: its warnings are none in the first
    case of failure, those of the host configuration in the second, and
    those of the host configuration followed by those of the platform
    otherwise. *)
Theorem verifyContainerSettings_stages (C : Verify.ConfigEnv) (E : Verify.VerifyEnv)
    (platform : option Verify.HostConfig -> bool -> list string * error)
    (hostConfig : option Verify.HostConfig)
    (config : option Verify.ContainerConfig) (update : bool) :
  let r := Verify.verifyContainerSettings C E platform hostConfig config update in
  fst r = fst (Verify.validateContainerConfig C config) /\
  (snd (snd r) = None <->
   snd (Verify.validateContainerConfig C config) = None /\
   snd (Verify.validateHostConfig E hostConfig) = None /\
   snd (platform hostConfig update) = None) /\
  fst (snd r) =
    match snd (Verify.validateContainerConfig C config),
          snd (Verify.validateHostConfig E hostConfig) with
    | Some _, _ => []
    | None, Some _ => fst (Verify.validateHostConfig E hostConfig)
    | None, None =>
        fst (Verify.validateHostConfig E hostConfig)
        ++ fst (platform hostConfig update)
    end /\
  (forall e, snd (Verify.validateContainerConfig C config) = Some e ->
     snd r = ([], Some e)) /\
  (forall e, snd (Verify.validateContainerConfig C config) = None ->
     snd (Verify.validateHostConfig E hostConfig) = Some e ->
     snd (snd r) = Some e).
Proof.
  cbv zeta. unfold Verify.verifyContainerSettings.
  destruct (Verify.validateContainerConfig C config) as [c' [e1|]]; cbn [fst snd].
  - split; [reflexivity|]. split; [split; [discriminate|intros [? _]; discriminate]|].
    split; [reflexivity|]. split; [now intros e [= <-]|discriminate].
  - destruct (Verify.validateHostConfig E hostConfig) as [w [e2|]]; cbn [fst snd].
    + split; [reflexivity|].
      split; [split; [discriminate|intros (_ & ? & _); discriminate]|].
      split; [reflexivity|]. split; [discriminate|]. now intros e _ [= <-].
    + destruct (platform hostConfig update) as [w2 e3]; cbn [fst snd].
      split; [reflexivity|]. split; [tauto|].
      split; [reflexivity|]. split; discriminate.
Qed.
